(** * Clortho: license keys, checks and offline tokens

    A shallow embedding of the core of the Clortho license server:
    - [internal/service/license_generator.go]: [ParseCharset], [GenerateLicenseKey];
    - [internal/api/handlers/utils.go]: [ParseExpirationDuration];
    - the offline token signer [SignLicense];
    - [internal/api/middleware/rate_limit.go]: [GetLimiter], [RateLimitMiddleware];
    - the license handlers [CheckLicenseHandler], [GenerateLicenseHandler],
      [requireLicenseKey].

    Go strings are byte sequences: they are modelled by [string], whose
    characters ([ascii]) are exactly the 256 byte values.  Go's [int] is the
    64-bit two's complement integer; where the code can overflow, the
    wrap-around is written out with [wrap64]. *)

From Stdlib Require Import ZArith NArith List String Ascii Bool Lia.
From stdpp Require Import base gmap strings list functions pretty.
Import ListNotations.

Local Open Scope string_scope.

(** ** Common vocabulary *)

(** A Go [(T, error)] pair: either the value or the error's message. *)
Inductive result (A : Type) : Type :=
  | Ok (a : A)
  | Err (msg : string).
Arguments Ok {A} a.
Arguments Err {A} msg.

Definition is_ok {A} (r : result A) : bool :=
  match r with Ok _ => true | Err _ => false end.

(** The value of a byte, and the byte of a value (modulo 256, as a Go
    [byte] addition wraps). *)
Definition byte_val (c : ascii) : Z := Z.of_N (N_of_ascii c).
Definition byte_of (z : Z) : ascii := ascii_of_N (Z.to_N (z mod 256)).

(** Two's complement wrap-around of a 64-bit signed integer. *)
Definition wrap64 (z : Z) : Z := ((z + 2 ^ 63) mod 2 ^ 64 - 2 ^ 63)%Z.

(** [len(s)] as a Go [int]. *)
Definition len (s : string) : Z := Z.of_nat (String.length s).

(** [s[i]] for a byte index; [None] is the run-time panic of an index out
    of range. *)
Definition index (s : string) (i : Z) : option ascii :=
  if (i <? 0)%Z then None else String.get (Z.to_nat i) s.

(** [strings.Repeat]-like helper used in statements: [n] copies of a byte. *)
Fixpoint repeat_byte (c : ascii) (n : nat) : string :=
  match n with
  | O => EmptyString
  | S k => String c (repeat_byte c k)
  end.

(** [strings.Split(s, sep)] for a separator of one byte: the substrings
    between the separators; the empty string splits into one empty token. *)
Fixpoint split_on (sep : ascii) (s : string) : list string :=
  match s with
  | EmptyString => [EmptyString]
  | String c rest =>
      if Ascii.eqb c sep then EmptyString :: split_on sep rest
      else match split_on sep rest with
           | tok :: toks => String c tok :: toks
           | [] => [String c EmptyString]
           end
  end.

(** The bytes of a string, as a list. *)
Definition bytes (s : string) : list ascii := list_ascii_of_string s.

(** An instant: nanoseconds since the Unix epoch.  [t.Before(u)] is the
    strict order of instants, [t.Unix()] the whole seconds. *)
Definition Time := Z.
Definition Before (t u : Time) : bool := (t <? u)%Z.
Definition Unix (t : Time) : Z := (t / 1000000000)%Z.

Definition Minute : Z := 60000000000.
Definition Hour : Z := 3600000000000.

(** [t.Add(d)] for a [time.Duration] of [d] nanoseconds. *)
Definition Add (t : Time) (d : Z) : Time := (t + d)%Z.

(** The parts of the Go library that the code only calls: the calendar
    arithmetic of [Time.AddDate], the quoting of [%q] and the decimal
    printing of [%d]. *)
Class GoLib := {
  AddDate : Time -> Z -> Z -> Z -> Time;
  Quote : string -> string;
  Itoa : Z -> string
}.

(** ** internal/service/license_generator.go *)

Module Generator.

Definition defaultCharset : string :=
  "abcdefghijklmnopqrstuvwxyzABCDEFGHIJKLMNOPQRSTUVWXYZ0123456789".

(** [strings.Split(input, ",")]. *)
Definition Split (s : string) : list string := split_on "," s.

(** The inner loop [for i := start; i <= end; i++ { builder.WriteByte(i) }].
    [i] is a [byte], here its value: [i++] wraps from 255 to 0.  The loop has
    no bound of its own, so the model runs it on fuel; [None] is fuel
    exhausted. *)
Fixpoint range_loop (fuel : nat) (i : Z) (e : Z) (builder : string)
  : option string :=
  match fuel with
  | O => None
  | S f =>
      if (i <=? e)%Z
      then range_loop f ((i + 1) mod 256)%Z e
             (builder ++ String (byte_of i) EmptyString)
      else Some builder
  end.

(** The loop over the parts.  The result is [None] when a range loop runs
    out of fuel, [Some (Err _)] for the invalid-range error, [Some (Ok _)]
    for [builder.String()]. *)
Fixpoint parts_loop (fuel : nat) (parts : list string) (builder : string)
  : option (result string) :=
  match parts with
  | [] => Some (Ok builder)
  | part :: rest =>
      match part with
      | String start (String mid (String e EmptyString)) =>
          if Ascii.eqb mid "-" then
            if (byte_val e <? byte_val start)%Z
            then Some (Err ("invalid range: " ++ part))
            else match range_loop fuel (byte_val start) (byte_val e) builder with
                 | None => None
                 | Some builder' => parts_loop fuel rest builder'
                 end
          else parts_loop fuel rest (builder ++ part)
      | _ => parts_loop fuel rest (builder ++ part)
      end
  end.

Definition ParseCharset (fuel : nat) (input : string) : option (result string) :=
  if String.eqb input "" then Some (Ok defaultCharset)
  else parts_loop fuel (Split input) "".


(** [crypto/rand]: the secure random source behind [rand.Int(rand.Reader, max)].
    A draw either fails with the reader's error or yields a number; the
    library returns a number in [[0, max)] for a positive [max]. *)
Class RandSource (S : Type) := {
  rand_Int : S -> Z -> result Z * S;
  rand_Int_range : forall s max n s',
    (0 < max)%Z -> rand_Int s max = (Ok n, s') -> (0 <= n < max)%Z
}.

(** A call either returns or panics (index out of range). *)
Inductive outcome (A : Type) : Type :=
  | Returns (a : A)
  | Panics.
Arguments Returns {A} a.
Arguments Panics {A}.

(** The loop [for i := range b] that fills the [n] remaining bytes of [b],
    left to right; [b] holds the bytes written so far. *)
Fixpoint fill {S} `{RandSource S} (n : nat) (usedCharset : string) (src : S)
  (b : string) : outcome (result string) * S :=
  match n with
  | O => (Returns (Ok b), src)
  | S k =>
      match rand_Int src (len usedCharset) with
      | (Err e, src') => (Returns (Err e), src')
      | (Ok num, src') =>
          match index usedCharset num with
          | None => (Panics, src')
          | Some c => fill k usedCharset src' (b ++ String c EmptyString)
          end
      end
  end.

Definition GenerateLicenseKey {S} `{RandSource S}
  (prefix : string) (length : Z) (separator : string) (charset : string)
  (src : S) : outcome (result string) * S :=
  let length := if (length <=? 0)%Z then 12%Z else length in
  let separator := if String.eqb separator "" then "-" else separator in
  let usedCharset := if String.eqb charset "" then defaultCharset else charset in
  match fill (Z.to_nat length) usedCharset src "" with
  | (Returns (Ok randomString), src') =>
      if negb (String.eqb prefix "")
      then (Returns (Ok (prefix ++ separator ++ randomString)), src')
      else (Returns (Ok randomString), src')
  | (Returns (Err e), src') => (Returns (Err e), src')
  | (Panics, src') => (Panics, src')
  end.

(** A random source for examples: a tape of prepared answers, each reduced
    into the requested interval; an exhausted tape fails. *)
Definition Tape := list (result Z).

Definition tape_Int (t : Tape) (max : Z) : result Z * Tape :=
  match t with
  | [] => (Err "EOF", [])
  | Ok n :: t' => (Ok (n mod max)%Z, t')
  | Err e :: t' => (Err e, t')
  end.

#[export] Instance TapeSource : RandSource Tape.
Proof.
  refine {| rand_Int := tape_Int |}.
  intros s max n s' Hmax Hdraw.
  destruct s as [|[k|e] t]; simpl in Hdraw; try discriminate.
  injection Hdraw as <- _. apply Z.mod_pos_bound; exact Hmax.
Defined.

End Generator.

(** ** internal/api/handlers/utils.go *)

Module Utils.

(** [strconv.Atoi] of the Go standard library, base 10: an optional sign,
    then one or more decimal digits, and the value must fit the 64-bit [int];
    anything else is an error ([None]). *)
Definition is_digit (c : ascii) : bool :=
  ((48 <=? byte_val c) && (byte_val c <=? 57))%Z.

Fixpoint digits_val (s : string) (acc : Z) : option Z :=
  match s with
  | EmptyString => Some acc
  | String c r =>
      if is_digit c then digits_val r (10 * acc + (byte_val c - 48))%Z else None
  end.

Definition Atoi (s : string) : option Z :=
  match s with
  | EmptyString => None
  | String c r =>
      let neg := Ascii.eqb c "-" in
      let body := if Ascii.eqb c "-" || Ascii.eqb c "+" then r else s in
      match body with
      | EmptyString => None
      | _ =>
          match digits_val body 0 with
          | None => None
          | Some n =>
              let v := if neg then (- n)%Z else n in
              if ((- 2 ^ 63 <=? v) && (v <=? 2 ^ 63 - 1))%Z then Some v else None
          end
      end
  end.

(** [strings.HasSuffix(d, "mo")]. *)
Definition HasSuffix_mo (d : string) : bool :=
  let n := String.length d in
  (2 <=? n)%nat && String.eqb (substring (n - 2) 2 d) "mo".

Definition ParseExpirationDuration `{GoLib} (now : Time) (d : string)
  : result Time :=
  if (String.length d <? 2)%nat then Err "duration too short"
  else
    let n := String.length d in
    let '(unit, valStr) :=
      if HasSuffix_mo d then ("mo", substring 0 (n - 2) d)
      else (substring (n - 1) 1 d, substring 0 (n - 1) d) in
    match Atoi valStr with
    | None => Err "invalid number"
    | Some val =>
        if String.eqb unit "m" then Ok (Add now (wrap64 (Minute * val)))
        else if String.eqb unit "h" then Ok (Add now (wrap64 (Hour * val)))
        else if String.eqb unit "d" then Ok (AddDate now 0 0 val)
        else if String.eqb unit "w" then Ok (AddDate now 0 0 (wrap64 (val * 7)))
        else if String.eqb unit "mo" then Ok (AddDate now 0 val 0)
        else if String.eqb unit "y" then Ok (AddDate now val 0 0)
        else Err ("unknown unit " ++ Quote unit)
    end.

End Utils.

(** ** internal/models/models.go *)

Module Models.

Definition UUID := string.

Definition LicenseStatusActive : string := "active".
Definition LicenseStatusRevoked : string := "revoked".
Definition LicenseStatusExpired : string := "expired".

Module ProductGroup.
Record t := {
  ID : UUID;
  OwnerID : option string;
  Name : string;
  Description : string;
  LicensePrefix : string;
  LicenseSeparator : string;
  LicenseCharset : string;
  LicenseLength : Z
}.
End ProductGroup.

Module Product.
Record t := {
  ID : UUID;
  OwnerID : option string;
  Name : string;
  Description : string;
  LicensePrefix : string;
  LicenseSeparator : string;
  LicenseCharset : string;
  LicenseLength : Z;
  LicenseType : string;
  LicenseDuration : string;
  ProductGroupID : option UUID
}.
End Product.

(** A Go [[]string] where it matters whether the slice is nil: the nil
    slice, or a slice with its elements.  [len], [range] and indexing see
    the nil slice as the empty one; [encoding/json] does not: it writes the
    nil slice as [null] and an empty slice as [[]]. *)
Inductive Strings : Type :=
  | NilStrings
  | StringsOf (l : list string).

Definition elems (s : Strings) : list string :=
  match s with
  | NilStrings => []
  | StringsOf l => l
  end.
Coercion elems : Strings >-> list.

(** [License].  [Features] is the one slice of a license that is encoded
    (into the token of a check), so it keeps its nil-ness; the other slices
    are only measured and ranged over.  [AutoAllowedIP] and
    [AutoAllowedIPLimit] are the two fields
    that internal/api/auto_allowed_ip_test.go sets on [models.License] and
    that the migration adds to the [licenses] table
    ([auto_allowed_ip], [auto_allowed_ip_limit]); the declaration in
    internal/models/models.go does not list them and no handler reads
    them. *)
Module License.
Record t := {
  ID : UUID;
  Key : string;
  OwnerID : option string;
  Type_ : string;
  ProductID : UUID;
  AllowedIPs : list string;
  AllowedNetworks : list string;
  AutoAllowedIP : bool;
  AutoAllowedIPLimit : Z;
  ExpiresAt : option Time;
  Features : Strings;
  Releases : list string;
  Status : string;
  CreatedAt : Time;
  UpdatedAt : Time
}.
End License.

(** The values that the handlers put into [gin.H] and [jwt.MapClaims]. *)
Inductive JSON : Type :=
  | JNull
  | JBool (b : bool)
  | JString (s : string)
  | JInt (z : Z)
  | JTime (t : Time)
  | JStrings (l : list string).

(** A [[]string] as a JSON value. *)
Definition JSlice (s : Strings) : JSON :=
  match s with
  | NilStrings => JNull
  | StringsOf l => JStrings l
  end.

(** A [*time.Time] as a JSON value. *)
Definition JTimePtr (t : option Time) : JSON :=
  match t with
  | None => JNull
  | Some t => JTime t
  end.

Module LicenseCheckLog.
Record t := {
  ProductID : option UUID;
  LicenseID : option UUID;
  LicenseKey : string;
  RequestPayload : gmap string JSON;
  ResponsePayload : gmap string JSON;
  IPAddress : string;
  UserAgent : string;
  StatusCode : Z;
  CreatedAt : Time
}.
End LicenseCheckLog.

End Models.

(** ** The offline token signer *)

Module Signer.
Import Models.

(** [encoding/base64] and [golang-jwt]: the decoding of the configured key
    and the signing of a claim set, [jwt.NewWithClaims(EdDSA, claims)
    .SignedString(privateKey)]. *)
Class SignLib := {
  DecodeString : string -> result string;
  SignedString : string -> gmap string JSON -> result string
}.

Definition PrivateKeySize : Z := 64.

(** The claim set built by [SignLicense]. *)
Definition claims_of (key : string) (expiresAt : option Time) (valid : bool)
  (features : Strings) : gmap string JSON :=
  let claims : gmap string JSON :=
    <["features" := JSlice features]>
      (<["valid" := JBool valid]>
         (<["iss" := JString "clortho"]>
            (<["sub" := JString key]> ∅))) in
  match expiresAt with
  | Some t => <["exp" := JInt (Unix t)]> claims
  | None => claims
  end.

Definition SignLicense `{GoLib} `{SignLib} (privateKeyBase64 : string)
  (key : string) (expiresAt : option Time) (valid : bool)
  (features : Strings) : result string :=
  if String.eqb privateKeyBase64 "" then Err "private key is empty"
  else
    match DecodeString privateKeyBase64 with
    | Err e => Err ("failed to decode private key: " ++ e)
    | Ok privateKeyBytes =>
        if negb (len privateKeyBytes =? PrivateKeySize)%Z
        then Err ("invalid private key size: " ++ Itoa (len privateKeyBytes))
        else SignedString privateKeyBytes (claims_of key expiresAt valid features)
    end.

End Signer.

(** ** internal/api/middleware/rate_limit.go *)

Module Middleware.

(** The response a handler writes with [c.JSON(code, body)]. *)
Record Written := {
  Code : Z;
  Body : gmap string Models.JSON
}.

(** What the middleware sees and changes of a [gin.Context]: the client
    address, the response written so far, and whether [c.Abort()] has been
    called (gin then skips the pending handlers). *)
Record Context := {
  ClientIP : string;
  written : option Written;
  aborted : bool
}.

(** [golang.org/x/time/rate] and [hashicorp/golang-lru/v2/expirable]: the
    token bucket and the expiring cache.  The cache holds pointers to
    limiters; [Allow] changes the limiter it is called on. *)
Class RateLib := {
  Limit : Type;
  Limiter : Type;
  LRU : Type;
  NewLimiter : Limit -> Z -> Limiter;
  Allow : Limiter -> Time -> bool * Limiter;
  NewLRU : Z -> Z -> LRU;
  lru_Get : LRU -> string -> Time -> option nat * LRU;
  lru_Add : LRU -> string -> nat -> Time -> LRU
}.

Section RateLimiter.
Context {ratelib : RateLib}.

Record RateLimitConfig := {
  RequestsPerSecond : Limit;
  Burst : Z;
  Enabled : bool;
  CacheSize : Z;
  CacheTTL : Z
}.

(** [RateLimiter]: [heap] holds the limiters allocated so far, addressed by
    the pointers that [ips] stores; [fresh] is the next unused address (the
    addresses from [fresh] on hold a limiter that no pointer refers to). *)
Record RateLimiter := {
  ips : LRU;
  heap : nat -> Limiter;
  fresh : nat;
  r : Limit;
  b : Z;
  enabled : bool
}.

Definition NewRateLimiter (cfg : RateLimitConfig) : RateLimiter :=
  let size := if (CacheSize cfg <=? 0)%Z then 5000%Z else CacheSize cfg in
  let ttl := if (CacheTTL cfg <=? 0)%Z then 0%Z else CacheTTL cfg in
  {| ips := NewLRU size ttl;
     heap := fun _ => NewLimiter (RequestsPerSecond cfg) (Burst cfg);
     fresh := 0;
     r := RequestsPerSecond cfg;
     b := Burst cfg;
     enabled := Enabled cfg |}.

Definition GetLimiter (rl : RateLimiter) (ip : string) (now : Time)
  : nat * RateLimiter :=
  match lru_Get (ips rl) ip now with
  | (Some limiter, ips') =>
      (limiter,
       {| ips := ips'; heap := heap rl; fresh := fresh rl;
          r := r rl; b := b rl; enabled := enabled rl |})
  | (None, ips') =>
      let limiter := fresh rl in
      (limiter,
       {| ips := lru_Add ips' ip limiter now;
          heap := <[limiter := NewLimiter (r rl) (b rl)]> (heap rl);
          fresh := S (fresh rl);
          r := r rl; b := b rl; enabled := enabled rl |})
  end.

(** [limiter.Allow()] through the pointer. *)
Definition Allow_at (rl : RateLimiter) (limiter : nat) (now : Time)
  : bool * RateLimiter :=
  let '(ok, l') := Allow (heap rl limiter) now in
  (ok,
   {| ips := ips rl; heap := <[limiter := l']> (heap rl); fresh := fresh rl;
      r := r rl; b := b rl; enabled := enabled rl |}).

(** The two handlers that [RateLimitMiddleware] can return: the pass-through
    one, or the one closed over the limiter [rl]. *)
Inductive Installed :=
  | PassThrough
  | Limiting (rl : RateLimiter).

Definition RateLimitMiddleware (cfg : RateLimitConfig) : Installed :=
  if negb (Enabled cfg) then PassThrough
  else Limiting (NewRateLimiter cfg).

Definition TooManyRequests : Written :=
  {| Code := 429; Body := {[ "error" := Models.JString "Too many requests" ]} |}.

(** One request through the installed handler.  [next] is what [c.Next()]
    runs: the rest of the chain. *)
Definition serve (h : Installed) (now : Time) (next : Context -> Context)
  (c : Context) : Context * Installed :=
  match h with
  | PassThrough => (next c, PassThrough)
  | Limiting rl =>
      let ip := ClientIP c in
      let '(limiter, rl1) := GetLimiter rl ip now in
      let '(ok, rl2) := Allow_at rl1 limiter now in
      if negb ok
      then ({| ClientIP := ClientIP c;
               written := Some TooManyRequests;
               aborted := true |}, Limiting rl2)
      else (next c, Limiting rl2)
  end.

End RateLimiter.

End Middleware.

(** ** The license handlers: check and generate *)

Module Handlers.
Import Models Signer.

(** [net]: parsing and comparing addresses. *)
Class NetLib := {
  IP : Type;
  IPNet : Type;
  ParseIP : string -> option IP;
  ParseCIDR : string -> option (IP * IPNet);
  IP_Equal : IP -> IP -> bool;
  IPNet_Contains : IPNet -> IP -> bool
}.

(** The calls a handler makes on the stores, in order. *)
Inductive StoreCall : Type :=
  | GetLicenseByKey (key : string)
  | UpdateLicense (license : License.t)
  | CreateLicense (license : License.t)
  | GetProduct (id : string)
  | GetProductGroup (id : string)
  | CreateAdminLog (action : string) (entityID : UUID).

Inductive ResponseBody : Type :=
  | BodyH (h : gmap string JSON)
  | BodyLicense (license : License.t).

Record Response := {
  Code : Z;
  Body : ResponseBody
}.

Definition StatusOK : Z := 200.
Definition StatusCreated : Z := 201.
Definition StatusBadRequest : Z := 400.
Definition StatusNotFound : Z := 404.
Definition StatusInternalServerError : Z := 500.

Definition errorBody (msg : string) : ResponseBody :=
  BodyH {[ "error" := JString msg ]}.

(** What a check reads of the request. *)
Record CheckRequest := {
  XLicenseKey : string;
  QueryVersion : string;
  QueryFeature : string;
  ClientIP : string;
  UserAgent : string
}.

(** [requireLicenseKey]: the key and [true], or the empty string, [false]
    and the response it wrote. *)
Definition requireLicenseKey (c : CheckRequest)
  : string * bool * option Response :=
  let key := XLicenseKey c in
  if String.eqb key ""
  then ("", false,
        Some {| Code := StatusBadRequest;
                Body := errorBody "X-License-Key header is required" |})
  else (key, true, None).

(** The status and expiration rules: the first [if / else if]. *)
Definition checkStatusExpiry (license : License.t) (now : Time)
  : bool * string :=
  if String.eqb (License.Status license) LicenseStatusRevoked
  then (false, "License is revoked")
  else match License.ExpiresAt license with
       | Some t => if Before t now then (false, "License has expired")
                   else (true, "")
       | None => (true, "")
       end.

Section Net.
Context `{NetLib}.

(** The loop over [license.AllowedIPs]. *)
Fixpoint allowedIPs_loop (clientIP : IP) (l : list string) : bool :=
  match l with
  | [] => false
  | allowedIPStr :: rest =>
      match ParseIP allowedIPStr with
      | Some allowedIP =>
          if IP_Equal allowedIP clientIP then true
          else allowedIPs_loop clientIP rest
      | None =>
          match ParseCIDR allowedIPStr with
          | Some (ip, _) =>
              if IP_Equal ip clientIP then true
              else allowedIPs_loop clientIP rest
          | None => allowedIPs_loop clientIP rest
          end
      end
  end.

(** The loop over [license.AllowedNetworks]. *)
Fixpoint allowedNetworks_loop (clientIP : IP) (l : list string) : bool :=
  match l with
  | [] => false
  | allowedNetStr :: rest =>
      match ParseCIDR allowedNetStr with
      | Some (_, subnet) =>
          if IPNet_Contains subnet clientIP then true
          else allowedNetworks_loop clientIP rest
      | None => allowedNetworks_loop clientIP rest
      end
  end.

(** The IP rule, on the [valid] and [reason] variables. *)
Definition checkIP (license : License.t) (clientIPStr : string)
  (st : bool * string) : bool * string :=
  let '(valid, reason) := st in
  if valid && ((0 <? length (License.AllowedIPs license))%nat
               || (0 <? length (License.AllowedNetworks license))%nat)
  then
    match ParseIP clientIPStr with
    | None => (false, "Unable to determine client IP for validation")
    | Some clientIP =>
        let ipAllowed :=
          if (0 <? length (License.AllowedIPs license))%nat
          then allowedIPs_loop clientIP (License.AllowedIPs license)
          else false in
        let ipAllowed :=
          if negb ipAllowed
             && (0 <? length (License.AllowedNetworks license))%nat
          then allowedNetworks_loop clientIP (License.AllowedNetworks license)
          else ipAllowed in
        if negb ipAllowed then (false, "IP address not allowed")
        else (valid, reason)
    end
  else st.

End Net.

(** [for _, v := range l { if v == x { found = true; break } }]. *)
Fixpoint contains (l : list string) (x : string) : bool :=
  match l with
  | [] => false
  | v :: rest => if String.eqb v x then true else contains rest x
  end.

(** The version rule. *)
Definition checkVersion (license : License.t) (version : string)
  (st : bool * string) : bool * string :=
  let '(valid, reason) := st in
  if negb (String.eqb version "") && valid
  then
    let versionAllowed :=
      if (length (License.Releases license) =? 0)%nat then true
      else contains (License.Releases license) version in
    if negb versionAllowed
    then (false, "License not valid for version " ++ version)
    else (valid, reason)
  else st.

(** The feature rule. *)
Definition checkFeature (license : License.t) (feature : string)
  (st : bool * string) : bool * string :=
  let '(valid, reason) := st in
  if negb (String.eqb feature "") && valid
  then
    let featureAllowed := contains (License.Features license) feature in
    if negb featureAllowed
    then (false, "Feature not enabled: " ++ feature)
    else (valid, reason)
  else st.

(** What a check leaves behind: the response, the calls on the license
    store, and the entry handed to [AsyncLogLicenseCheck] by the deferred
    function, with the [valid] and [reason] arguments it computes. *)
Record CheckResult := {
  response : Response;
  calls : list StoreCall;
  logEntry : LicenseCheckLog.t;
  logValid : bool;
  logReason : string
}.

Definition deferredLog (resp : Response) (calls : list StoreCall)
  (entry : LicenseCheckLog.t) : CheckResult :=
  {| response := resp;
     calls := calls;
     logEntry := entry;
     logValid :=
       (LicenseCheckLog.StatusCode entry =? StatusOK)%Z
       && match LicenseCheckLog.ResponsePayload entry !! "valid" with
          | Some (JBool true) => true
          | _ => false
          end;
     logReason :=
       match LicenseCheckLog.ResponsePayload entry !! "reason" with
       | Some (JString r) => r
       | _ => ""
       end |}.

Section Check.
Context `{GoLib} `{SignLib} `{NetLib}.

(** The rules in the order the handler runs them, on the variables [valid]
    and [reason]. *)
Definition validate (license : License.t) (now : Time) (clientIPStr : string)
  (version feature : string) : bool * string :=
  let st := checkStatusExpiry license now in
  let st := checkIP license clientIPStr st in
  let st := checkVersion license version st in
  checkFeature license feature st.

(** [CheckLicenseHandler].  [licenseStore] answers [GetLicenseByKey];
    [now] is the clock. *)
Definition CheckLicenseHandler (licenseStore : string -> result License.t)
  (responseSigningPrivateKey : string) (now : Time) (c : CheckRequest)
  : CheckResult :=
  let logEntry :=
    {| LicenseCheckLog.ProductID := None;
       LicenseCheckLog.LicenseID := None;
       LicenseCheckLog.LicenseKey := XLicenseKey c;
       LicenseCheckLog.RequestPayload :=
         <["feature" := JString (QueryFeature c)]>
           {[ "version" := JString (QueryVersion c) ]};
       LicenseCheckLog.ResponsePayload := ∅;
       LicenseCheckLog.IPAddress := ClientIP c;
       LicenseCheckLog.UserAgent := UserAgent c;
       LicenseCheckLog.StatusCode := 0;
       LicenseCheckLog.CreatedAt := now |} in
  match requireLicenseKey c with
  | (_, false, Some resp) => deferredLog resp [] logEntry
  | (_, false, None) =>
      (* nothing written: gin answers 200 with an empty body *)
      deferredLog {| Code := StatusOK; Body := BodyH ∅ |} [] logEntry
  | (key, true, _) =>
      match licenseStore key with
      | Err _ =>
          let payload : gmap string JSON :=
            {[ "error" := JString "License not found" ]} in
          deferredLog {| Code := StatusNotFound; Body := BodyH payload |}
            [GetLicenseByKey key]
            {| LicenseCheckLog.ProductID := None;
               LicenseCheckLog.LicenseID := None;
               LicenseCheckLog.LicenseKey := XLicenseKey c;
               LicenseCheckLog.RequestPayload :=
                 LicenseCheckLog.RequestPayload logEntry;
               LicenseCheckLog.ResponsePayload := payload;
               LicenseCheckLog.IPAddress := ClientIP c;
               LicenseCheckLog.UserAgent := UserAgent c;
               LicenseCheckLog.StatusCode := StatusNotFound;
               LicenseCheckLog.CreatedAt := now |}
      | Ok license =>
          let '(valid, reason) :=
            validate license now (ClientIP c) (QueryVersion c)
              (QueryFeature c) in
          let response : gmap string JSON :=
            <["expires_at" := JTimePtr (License.ExpiresAt license)]>
              {[ "valid" := JBool valid ]} in
          let response :=
            if negb (String.eqb reason "")
            then <["reason" := JString reason]> response
            else response in
          let response :=
            if negb (String.eqb responseSigningPrivateKey "")
            then
              match SignLicense responseSigningPrivateKey key
                      (License.ExpiresAt license) valid
                      (License.Features license) with
              | Err _ => response
              | Ok token => <["token" := JString token]> response
              end
            else response in
          deferredLog {| Code := StatusOK; Body := BodyH response |}
            [GetLicenseByKey key]
            {| LicenseCheckLog.ProductID := Some (License.ProductID license);
               LicenseCheckLog.LicenseID := Some (License.ID license);
               LicenseCheckLog.LicenseKey := XLicenseKey c;
               LicenseCheckLog.RequestPayload :=
                 LicenseCheckLog.RequestPayload logEntry;
               LicenseCheckLog.ResponsePayload := response;
               LicenseCheckLog.IPAddress := ClientIP c;
               LicenseCheckLog.UserAgent := UserAgent c;
               LicenseCheckLog.StatusCode := StatusOK;
               LicenseCheckLog.CreatedAt := now |}
      end
  end.

End Check.

(** [generateLicenseRequest]. *)
Module generateLicenseRequest.
Record t := {
  ProductID : string;
  Type_ : string;
  ExpiresAt : option Time;
  Duration : string;
  Prefix : string;
  Length : Z;
  FeatureCodes : list string;
  ReleaseVersions : list string;
  AllowedIPs : list string;
  AllowedNetworks : list string;
  OwnerID : option string
}.
End generateLicenseRequest.

(** The settings that the generate handler resolves before it calls the
    key generator. *)
Record Settings := {
  prefix : string;
  separator : string;
  charsetRaw : string;
  length_ : Z
}.

(** The block "Resolve settings with inheritance from ProductGroup".
    [group] is the product's group when the product names one and the group
    store returned it. *)
Definition resolveSettings (req : generateLicenseRequest.t)
  (product : Product.t) (group : option ProductGroup.t) : Settings :=
  let prefix := Product.LicensePrefix product in
  let separator := Product.LicenseSeparator product in
  let charsetRaw := Product.LicenseCharset product in
  let length := generateLicenseRequest.Length req in
  let length :=
    if (length =? 0)%Z then Product.LicenseLength product else length in
  let '(prefix, separator, charsetRaw, length) :=
    match group with
    | Some group =>
        (if String.eqb prefix "" then ProductGroup.LicensePrefix group
         else prefix,
         if String.eqb separator "" || String.eqb separator "-"
         then if negb (String.eqb (ProductGroup.LicenseSeparator group) "")
              then ProductGroup.LicenseSeparator group
              else separator
         else separator,
         if String.eqb charsetRaw "" then ProductGroup.LicenseCharset group
         else charsetRaw,
         if (length =? 0)%Z then ProductGroup.LicenseLength group
         else length)
    | None => (prefix, separator, charsetRaw, length)
    end in
  let length := if (length <=? 0)%Z then 12%Z else length in
  let prefix := if String.eqb prefix "" then "LICENSE" else prefix in
  let prefix :=
    if negb (String.eqb (generateLicenseRequest.Prefix req) "")
    then generateLicenseRequest.Prefix req
    else prefix in
  {| prefix := prefix; separator := separator;
     charsetRaw := charsetRaw; length_ := length |}.

(** What a generate request leaves behind. *)
Record GenerateResult := {
  gen_response : Response;
  gen_calls : list StoreCall
}.

(** The stores as the handler sees them: one answer per call. *)
Record Stores := {
  getProduct : string -> result Product.t;
  getProductGroup : string -> result ProductGroup.t;
  createLicense : License.t -> result unit
}.

Section Generate.
Context `{GoLib} {S : Type} `{Generator.RandSource S}.

(** [GenerateLicenseHandler].  [bound] is the outcome of
    [c.ShouldBindJSON(&req)]; [fuel] bounds the charset range loops; [newID]
    is [uuid.New()], [now] the clock, [src] the random source.  [None] is a
    request that never gets its response: a range loop that does not end, or
    a panic. *)
Definition GenerateLicenseHandler (fuel : nat) (stores : Stores)
  (newID : UUID) (now : Time) (src : S)
  (bound : result generateLicenseRequest.t) : option GenerateResult :=
  match bound with
  | Err e =>
      Some {| gen_response :=
                {| Code := StatusBadRequest; Body := errorBody e |};
              gen_calls := [] |}
  | Ok req =>
      if match generateLicenseRequest.ExpiresAt req with
         | Some _ => true | None => false end
         && negb (String.eqb (generateLicenseRequest.Duration req) "")
      then
        Some {| gen_response :=
                  {| Code := StatusBadRequest;
                     Body := errorBody
                       "Cannot specify both expires_at and duration" |};
                gen_calls := [] |}
      else
        let parsed : result (option Time) :=
          match generateLicenseRequest.ExpiresAt req with
          | Some t => Ok (Some t)
          | None =>
              if negb (String.eqb (generateLicenseRequest.Duration req) "")
              then match Utils.ParseExpirationDuration now
                           (generateLicenseRequest.Duration req) with
                   | Err e => Err e
                   | Ok exp => Ok (Some exp)
                   end
              else Ok None
          end in
        match parsed with
        | Err e =>
            Some {| gen_response :=
                      {| Code := StatusBadRequest;
                         Body := errorBody ("Invalid duration format: " ++ e) |};
                    gen_calls := [] |}
        | Ok expiresAt =>
            let productID := generateLicenseRequest.ProductID req in
            match getProduct stores productID with
            | Err _ =>
                Some {| gen_response :=
                          {| Code := StatusBadRequest;
                             Body := errorBody
                               "Invalid product_id or product not found" |};
                        gen_calls := [GetProduct productID] |}
            | Ok product =>
                let '(group, groupCalls) :=
                  match Product.ProductGroupID product with
                  | Some gid =>
                      (match getProductGroup stores gid with
                       | Ok g => Some g
                       | Err _ => None
                       end, [GetProductGroup gid])
                  | None => (None, [])
                  end in
                let settings := resolveSettings req product group in
                let calls := GetProduct productID :: groupCalls in
                match Generator.ParseCharset fuel (charsetRaw settings) with
                | None => None
                | Some (Err e) =>
                    Some {| gen_response :=
                              {| Code := StatusBadRequest;
                                 Body := errorBody
                                   ("Invalid charset configuration: " ++ e) |};
                            gen_calls := calls |}
                | Some (Ok parsedCharset) =>
                    match Generator.GenerateLicenseKey (prefix settings)
                            (length_ settings) (separator settings)
                            parsedCharset src with
                    | (Generator.Panics, _) => None
                    | (Generator.Returns (Err _), _) =>
                        Some {| gen_response :=
                                  {| Code := StatusInternalServerError;
                                     Body := errorBody
                                       "Failed to generate license key" |};
                                gen_calls := calls |}
                    | (Generator.Returns (Ok key), _) =>
                        let license :=
                          {| License.ID := newID;
                             License.Key := key;
                             License.OwnerID :=
                               generateLicenseRequest.OwnerID req;
                             License.Type_ := generateLicenseRequest.Type_ req;
                             License.ProductID := Product.ID product;
                             License.AllowedIPs :=
                               generateLicenseRequest.AllowedIPs req;
                             License.AllowedNetworks :=
                               generateLicenseRequest.AllowedNetworks req;
                             License.AutoAllowedIP := false;
                             License.AutoAllowedIPLimit := 0;
                             License.ExpiresAt := expiresAt;
                             License.Features :=
                               if (0 <? length
                                     (generateLicenseRequest.FeatureCodes req))%nat
                               then StringsOf
                                      (generateLicenseRequest.FeatureCodes req)
                               else NilStrings;
                             License.Releases :=
                               generateLicenseRequest.ReleaseVersions req;
                             License.Status := LicenseStatusActive;
                             License.CreatedAt := now;
                             License.UpdatedAt := now |} in
                        match createLicense stores license with
                        | Err _ =>
                            Some {| gen_response :=
                                      {| Code := StatusInternalServerError;
                                         Body := errorBody
                                           "Failed to save license" |};
                                    gen_calls :=
                                      calls ++ [CreateLicense license] |}
                        | Ok _ =>
                            Some {| gen_response :=
                                      {| Code := StatusCreated;
                                         Body := BodyLicense license |};
                                    gen_calls :=
                                      calls ++ [CreateLicense license;
                                                CreateAdminLog
                                                  "GENERATE_LICENSE" newID] |}
                        end
                    end
                end
            end
        end
  end.

End Generate.

End Handlers.

(** ** internal/api/handlers/utils.go: pagination; the paging of the stores *)

Module Pagination.
Import Utils.

(** [models.PaginationParams] and [models.PaginatedList]. *)
Record PaginationParams := {
  Page : Z;
  Limit : Z
}.

Record PaginatedList (T : Type) := {
  Items : list T;
  TotalCount : Z;
  ListPage : Z;
  ListLimit : Z;
  TotalPages : Z
}.
Arguments Items {T} _.
Arguments TotalCount {T} _.
Arguments ListPage {T} _.
Arguments ListLimit {T} _.
Arguments TotalPages {T} _.

(** [c.DefaultQuery(key, def)]: the value of the key when the query string
    has the key (the value may be empty), else the default. *)
Definition DefaultQuery (value : option string) (def : string) : string :=
  match value with
  | Some v => v
  | None => def
  end.

(** [ParsePaginationParams], on the [page] and [limit] values of the
    query. *)
Definition ParsePaginationParams (page limit : option string)
  : PaginationParams :=
  let pageStr := DefaultQuery page "1" in
  let limitStr := DefaultQuery limit "10" in
  let page :=
    match Atoi pageStr with
    | Some p => if (p <? 1)%Z then 1%Z else p
    | None => 1%Z
    end in
  let limit :=
    match Atoi limitStr with
    | Some l => if (l <? 1)%Z then 10%Z else l
    | None => 10%Z
    end in
  let limit := if (1000 <? limit)%Z then 1000%Z else limit in
  {| Page := page; Limit := limit |}.

(** The computation of [totalPages] that every list handler repeats:
    [(totalCount + pagination.Limit - 1) / pagination.Limit] when the limit
    is positive, else 0.  Go's [int] sum wraps and its division truncates. *)
Definition totalPagesOf (totalCount : Z) (pagination : PaginationParams) : Z :=
  if (0 <? Limit pagination)%Z
  then Z.quot (wrap64 (wrap64 (totalCount + Limit pagination) - 1))
              (Limit pagination)
  else 0%Z.

(** The answer of a list handler. *)
Definition paginated {T} (items : list T) (totalCount : Z)
  (pagination : PaginationParams) : PaginatedList T :=
  {| Items := items;
     TotalCount := totalCount;
     ListPage := Page pagination;
     ListLimit := Limit pagination;
     TotalPages := totalPagesOf totalCount pagination |}.

(** The paging block that every list query of the stores repeats:
    the [LIMIT] and [OFFSET] arguments of the query. *)
Definition window (pagination : PaginationParams) : Z * Z :=
  let limit := Limit pagination in
  let limit := if (limit <=? 0)%Z then 10%Z else limit in
  let page := Page pagination in
  let page := if (page <=? 0)%Z then 1%Z else page in
  let offset := wrap64 (wrap64 (page - 1) * limit) in
  (limit, offset).

End Pagination.

(** ** internal/api/handlers/log_handlers.go *)

Module LogHandlers.
Import Utils Models Pagination.

(** The queries of a handler on the log store. *)
Inductive LogCall : Type :=
  | GetLicenseCheckLogsByLicenseKey (licenseKey : string)
      (statusCode : option Z) (pagination : PaginationParams)
  | GetLicenseCheckLogsByProductID (productID : string)
      (statusCode : option Z) (pagination : PaginationParams)
  | GetLicenseCheckLogsByProductGroupID (productGroupID : string)
      (statusCode : option Z) (pagination : PaginationParams)
  | ListAdminLogs (ownerID : option string) (pagination : PaginationParams).

(** What the handlers read of the request. *)
Record LogQuery := {
  license_key : string;
  product_id : string;
  product_group_id : string;
  status_code : string;
  owner_id : string;
  page : option string;
  limit : option string
}.

Inductive LogResponse (T : Type) : Type :=
  | LogError (code : Z) (msg : string)
  | LogPage (code : Z) (list : PaginatedList T).
Arguments LogError {T} code msg.
Arguments LogPage {T} code list.

Record LogResult (T : Type) := {
  log_response : LogResponse T;
  log_calls : list LogCall
}.
Arguments log_response {T} _.
Arguments log_calls {T} _.

Section Logs.
(** The rows of the two log tables, and the log store: the rows and the
    total count of a query, or an error. *)
Context {CheckLog AdminLog : Type}.
Variable checkLogs : LogCall -> result (list CheckLog * Z).
Variable adminLogs : LogCall -> result (list AdminLog * Z).

Definition fetch {T} (store : LogCall -> result (list T * Z))
  (call : LogCall) (pagination : PaginationParams) (failure : string)
  : LogResult T :=
  match store call with
  | Err _ =>
      {| log_response := LogError 500 failure; log_calls := [call] |}
  | Ok (logs, totalCount) =>
      {| log_response := LogPage 200 (paginated logs totalCount pagination);
         log_calls := [call] |}
  end.

Definition GetLicenseCheckLogsHandler (q : LogQuery) : LogResult CheckLog :=
  let licenseKey := license_key q in
  let productID := product_id q in
  let productGroupID := product_group_id q in
  let statusCodeStr := status_code q in
  let parsed : result (option Z) :=
    if negb (String.eqb statusCodeStr "")
    then match Atoi statusCodeStr with
         | None => Err "Invalid status_code parameter"
         | Some code => Ok (Some code)
         end
    else Ok None in
  match parsed with
  | Err e => {| log_response := LogError 400 e; log_calls := [] |}
  | Ok statusCode =>
      let pagination := ParsePaginationParams (page q) (limit q) in
      if negb (String.eqb licenseKey "")
      then fetch checkLogs
             (GetLicenseCheckLogsByLicenseKey licenseKey statusCode pagination)
             pagination "Failed to fetch license check logs"
      else if negb (String.eqb productID "")
      then fetch checkLogs
             (GetLicenseCheckLogsByProductID productID statusCode pagination)
             pagination "Failed to fetch license check logs"
      else if negb (String.eqb productGroupID "")
      then fetch checkLogs
             (GetLicenseCheckLogsByProductGroupID productGroupID statusCode
                pagination)
             pagination "Failed to fetch license check logs"
      else {| log_response :=
                LogError 400
                  "Missing filter parameter (license_key, product_id, or product_group_id)";
              log_calls := [] |}
  end.

Definition GetAdminLogsHandler (q : LogQuery) : LogResult AdminLog :=
  let ownerID :=
    if negb (String.eqb (owner_id q) "") then Some (owner_id q) else None in
  let pagination := ParsePaginationParams (page q) (limit q) in
  fetch adminLogs (ListAdminLogs ownerID pagination) pagination
    "Failed to fetch admin logs".

End Logs.

End LogHandlers.

(** ** The license handlers: revoke, purge, update, get *)

Module LicenseAdmin.
Import Utils Models Handlers Pagination.

(** An error of a store, as the handlers tell them apart with
    [errors.Is(err, store.ErrNotFound)]. *)
Inductive StoreError : Type :=
  | ErrNotFound
  | ErrOther (msg : string).

Inductive sresult (A : Type) : Type :=
  | SOk (a : A)
  | SErr (e : StoreError).
Arguments SOk {A} a.
Arguments SErr {A} e.

(** The calls of these handlers on the license store and on the log
    store, in order. *)
Inductive AdminCall : Type :=
  | CallGet (key : string)
  | CallUpdate (license : License.t)
  | CallDelete (key : string)
  | CallList (ownerID : option string) (pagination : PaginationParams)
  | CallAdminLog (action : string) (entityID : UUID) (ownerID : option string).

(** [store.LicenseStore], one answer per call. *)
Record LicenseStore := {
  getLicenseByKey : string -> sresult License.t;
  updateLicense : License.t -> sresult unit;
  deleteLicense : string -> sresult unit;
  listLicenses : option string -> PaginationParams
                 -> result (list License.t * Z)
}.

Inductive AdminBody : Type :=
  | BodyJSON (h : gmap string JSON)
  | BodyOne (license : License.t)
  | BodyMany (licenses : PaginatedList License.t).

Record AdminResponse := {
  AdminCode : Z;
  AdminBodyOf : AdminBody
}.

Record AdminResult := {
  admin_response : AdminResponse;
  admin_calls : list AdminCall
}.

Definition answer (code : Z) (body : AdminBody) (calls : list AdminCall)
  : AdminResult :=
  {| admin_response := {| AdminCode := code; AdminBodyOf := body |};
     admin_calls := calls |}.

Definition jsonError (msg : string) : AdminBody :=
  BodyJSON {[ "error" := JString msg ]}.

Definition jsonMessage (msg : string) : AdminBody :=
  BodyJSON {[ "message" := JString msg ]}.

(** The request as [requireLicenseKey] reads it: the header alone. *)
Definition withKey (key : string) : CheckRequest :=
  {| XLicenseKey := key; QueryVersion := ""; QueryFeature := "";
     ClientIP := ""; UserAgent := "" |}.

(** The response that [requireLicenseKey] wrote, when it stopped the
    request. *)
Definition keyRequired (written : option Response) : AdminResult :=
  match written with
  | Some {| Code := code; Body := BodyH h |} => answer code (BodyJSON h) []
  | Some {| Code := code; Body := BodyLicense l |} =>
      answer code (BodyOne l) []
  | None => answer StatusOK (BodyJSON ∅) []
  end.

Definition withStatus (license : License.t) (status : string) : License.t :=
  {| License.ID := License.ID license;
     License.Key := License.Key license;
     License.OwnerID := License.OwnerID license;
     License.Type_ := License.Type_ license;
     License.ProductID := License.ProductID license;
     License.AllowedIPs := License.AllowedIPs license;
     License.AllowedNetworks := License.AllowedNetworks license;
     License.AutoAllowedIP := License.AutoAllowedIP license;
     License.AutoAllowedIPLimit := License.AutoAllowedIPLimit license;
     License.ExpiresAt := License.ExpiresAt license;
     License.Features := License.Features license;
     License.Releases := License.Releases license;
     License.Status := status;
     License.CreatedAt := License.CreatedAt license;
     License.UpdatedAt := License.UpdatedAt license |}.

(** [RevokeLicenseHandler]. *)
Definition RevokeLicenseHandler (licenseStore : LicenseStore) (key : string)
  : AdminResult :=
  match requireLicenseKey (withKey key) with
  | (_, false, written) => keyRequired written
  | (key, true, _) =>
      match getLicenseByKey licenseStore key with
      | SErr ErrNotFound =>
          answer StatusNotFound (jsonError "License not found") [CallGet key]
      | SErr (ErrOther _) =>
          answer StatusInternalServerError
            (jsonError "Failed to revoke license") [CallGet key]
      | SOk license =>
          let license := withStatus license LicenseStatusRevoked in
          match updateLicense licenseStore license with
          | SErr _ =>
              answer StatusInternalServerError
                (jsonError "Failed to revoke license")
                [CallGet key; CallUpdate license]
          | SOk _ =>
              answer StatusOK (jsonMessage "License revoked")
                [CallGet key; CallUpdate license;
                 CallAdminLog "REVOKE_LICENSE" (License.ID license)
                   (License.OwnerID license)]
          end
      end
  end.

(** [DeleteLicenseHandler]. *)
Definition DeleteLicenseHandler (licenseStore : LicenseStore) (key : string)
  : AdminResult :=
  match requireLicenseKey (withKey key) with
  | (_, false, written) => keyRequired written
  | (key, true, _) =>
      match getLicenseByKey licenseStore key with
      | SErr ErrNotFound =>
          answer StatusNotFound (jsonError "License not found") [CallGet key]
      | SErr (ErrOther _) =>
          answer StatusInternalServerError
            (jsonError "Failed to delete license") [CallGet key]
      | SOk license =>
          match deleteLicense licenseStore key with
          | SErr ErrNotFound =>
              answer StatusNotFound (jsonError "License not found")
                [CallGet key; CallDelete key]
          | SErr (ErrOther _) =>
              answer StatusInternalServerError
                (jsonError "Failed to delete license")
                [CallGet key; CallDelete key]
          | SOk _ =>
              answer StatusOK (jsonMessage "License deleted permanently")
                [CallGet key; CallDelete key;
                 CallAdminLog "DELETE_LICENSE" (License.ID license)
                   (License.OwnerID license)]
          end
      end
  end.

(** [updateLicenseRequest].  A slice of the request is [None] when the JSON
    does not give it (a nil slice), [Some l] when it does. *)
Module updateLicenseRequest.
Record t := {
  Type_ : string;
  ExpiresAt : option Time;
  Duration : string;
  Prefix : string;
  Length : Z;
  FeatureCodes : option (list string);
  ReleaseVersions : option (list string);
  AllowedIPs : option (list string);
  AllowedNetworks : option (list string);
  Status : string;
  OwnerID : option string
}.
End updateLicenseRequest.

(** The assignments of [UpdateLicenseHandler] to the stored license, with
    the expiry already resolved. *)
Definition applyUpdate (req : updateLicenseRequest.t) (existing : License.t)
  (expiresAt : option Time) (now : Time) : License.t :=
  {| License.ID := License.ID existing;
     License.Key := License.Key existing;
     License.OwnerID := License.OwnerID existing;
     License.Type_ :=
       if negb (String.eqb (updateLicenseRequest.Type_ req) "")
       then updateLicenseRequest.Type_ req
       else License.Type_ existing;
     License.ProductID := License.ProductID existing;
     License.AllowedIPs :=
       match updateLicenseRequest.AllowedIPs req with
       | Some l => l
       | None => License.AllowedIPs existing
       end;
     License.AllowedNetworks :=
       match updateLicenseRequest.AllowedNetworks req with
       | Some l => l
       | None => License.AllowedNetworks existing
       end;
     License.AutoAllowedIP := License.AutoAllowedIP existing;
     License.AutoAllowedIPLimit := License.AutoAllowedIPLimit existing;
     License.ExpiresAt := expiresAt;
     License.Features :=
       match updateLicenseRequest.FeatureCodes req with
       | Some l => StringsOf l
       | None => License.Features existing
       end;
     License.Releases :=
       match updateLicenseRequest.ReleaseVersions req with
       | Some l => l
       | None => License.Releases existing
       end;
     License.Status :=
       if negb (String.eqb (updateLicenseRequest.Status req) "")
       then updateLicenseRequest.Status req
       else License.Status existing;
     License.CreatedAt := License.CreatedAt existing;
     License.UpdatedAt := now |}.

Section Update.
Context `{GoLib}.

(** [UpdateLicenseHandler].  [bound] is the outcome of
    [c.ShouldBindJSON(&req)], [now] the clock. *)
Definition UpdateLicenseHandler (licenseStore : LicenseStore) (now : Time)
  (key : string) (bound : result updateLicenseRequest.t) : AdminResult :=
  match requireLicenseKey (withKey key) with
  | (_, false, written) => keyRequired written
  | (key, true, _) =>
      match bound with
      | Err e => answer StatusBadRequest (jsonError e) []
      | Ok req =>
          match getLicenseByKey licenseStore key with
          | SErr _ =>
              answer StatusNotFound (jsonError "License not found")
                [CallGet key]
          | SOk existing =>
              let resolved : result (option Time) :=
                match updateLicenseRequest.ExpiresAt req with
                | Some t => Ok (Some t)
                | None =>
                    if negb (String.eqb (updateLicenseRequest.Duration req) "")
                    then match ParseExpirationDuration now
                                 (updateLicenseRequest.Duration req) with
                         | Err e => Err e
                         | Ok exp => Ok (Some exp)
                         end
                    else Ok (License.ExpiresAt existing)
                end in
              match resolved with
              | Err e =>
                  answer StatusBadRequest
                    (jsonError ("Invalid duration format: " ++ e))
                    [CallGet key]
              | Ok expiresAt =>
                  let existing := applyUpdate req existing expiresAt now in
                  match updateLicense licenseStore existing with
                  | SErr _ =>
                      answer StatusInternalServerError
                        (jsonError "Failed to update license")
                        [CallGet key; CallUpdate existing]
                  | SOk _ =>
                      answer StatusOK (BodyOne existing)
                        [CallGet key; CallUpdate existing;
                         CallAdminLog "UPDATE_LICENSE" (License.ID existing)
                           (updateLicenseRequest.OwnerID req)]
                  end
              end
          end
      end
  end.

End Update.

(** [GetLicenseHandler]: the list of the licenses when the header is empty,
    the license of the key otherwise. *)
Definition GetLicenseHandler (licenseStore : LicenseStore) (key : string)
  (owner_id : string) (page limit : option string) : AdminResult :=
  if String.eqb key ""
  then
    let ownerID :=
      if negb (String.eqb owner_id "") then Some owner_id else None in
    let pagination := ParsePaginationParams page limit in
    match listLicenses licenseStore ownerID pagination with
    | Err _ =>
        answer StatusInternalServerError
          (jsonError "Failed to list licenses")
          [CallList ownerID pagination]
    | Ok (licenses, totalCount) =>
        answer StatusOK
          (BodyMany (paginated licenses totalCount pagination))
          [CallList ownerID pagination]
    end
  else
    match getLicenseByKey licenseStore key with
    | SErr ErrNotFound =>
        answer StatusNotFound (jsonError "License not found") [CallGet key]
    | SErr (ErrOther _) =>
        answer StatusInternalServerError (jsonError "Failed to get license")
          [CallGet key]
    | SOk license => answer StatusOK (BodyOne license) [CallGet key]
    end.

End LicenseAdmin.

(** ** The product handlers: update *)

Module Products.
Import Models Handlers.

(** [uuid.Parse] of [github.com/google/uuid]. *)
Class UUIDLib := {
  uuid_Parse : string -> option UUID
}.

Module updateProductRequest.
Record t := {
  Name : string;
  Description : string;
  LicensePrefix : string;
  LicenseSeparator : string;
  LicenseCharset : string;
  LicenseLength : Z;
  LicenseType : string;
  LicenseDuration : string;
  ProductGroupID : string;
  OwnerID : option string
}.
End updateProductRequest.

Inductive ProductCall : Type :=
  | CallGetProduct (id : string)
  | CallUpdateProduct (product : Product.t)
  | CallProductLog (action : string) (entityID : UUID)
      (ownerID : option string).

Record ProductStore := {
  getProductByID : string -> result Product.t;
  updateProduct : Product.t -> result unit
}.

Inductive ProductBody : Type :=
  | ProductError (msg : string)
  | ProductJSON (product : Product.t).

Record ProductResult := {
  product_code : Z;
  product_body : ProductBody;
  product_calls : list ProductCall
}.

(** [if req.X != "" { product.X = req.X }]. *)
Definition orKeep (requested stored : string) : string :=
  if negb (String.eqb requested "") then requested else stored.

(** The assignments of [UpdateProductHandler] to the stored product, with
    the group already resolved.  ([UpdatedAt] is not part of the model of
    [Product].) *)
Definition mergeProduct (req : updateProductRequest.t) (product : Product.t)
  (group : option UUID) : Product.t :=
  {| Product.ID := Product.ID product;
     Product.OwnerID := Product.OwnerID product;
     Product.Name := orKeep (updateProductRequest.Name req) (Product.Name product);
     Product.Description :=
       orKeep (updateProductRequest.Description req)
         (Product.Description product);
     Product.LicensePrefix :=
       orKeep (updateProductRequest.LicensePrefix req)
         (Product.LicensePrefix product);
     Product.LicenseSeparator :=
       orKeep (updateProductRequest.LicenseSeparator req)
         (Product.LicenseSeparator product);
     Product.LicenseCharset :=
       orKeep (updateProductRequest.LicenseCharset req)
         (Product.LicenseCharset product);
     Product.LicenseLength :=
       if (0 <? updateProductRequest.LicenseLength req)%Z
       then updateProductRequest.LicenseLength req
       else Product.LicenseLength product;
     Product.LicenseType :=
       orKeep (updateProductRequest.LicenseType req)
         (Product.LicenseType product);
     Product.LicenseDuration :=
       orKeep (updateProductRequest.LicenseDuration req)
         (Product.LicenseDuration product);
     Product.ProductGroupID := group |}.

Section Update.
Context `{UUIDLib}.

(** [UpdateProductHandler].  [id] is the path parameter, [bound] the
    outcome of [c.ShouldBindJSON(&req)]. *)
Definition UpdateProductHandler (productStore : ProductStore) (id : string)
  (bound : result updateProductRequest.t) : ProductResult :=
  match bound with
  | Err e =>
      {| product_code := StatusBadRequest; product_body := ProductError e;
         product_calls := [] |}
  | Ok req =>
      match getProductByID productStore id with
      | Err _ =>
          {| product_code := StatusNotFound;
             product_body := ProductError "Product not found";
             product_calls := [CallGetProduct id] |}
      | Ok product =>
          let group : result (option UUID) :=
            if negb (String.eqb (updateProductRequest.ProductGroupID req) "")
            then match uuid_Parse (updateProductRequest.ProductGroupID req) with
                 | None => Err "Invalid product_group_id"
                 | Some groupID => Ok (Some groupID)
                 end
            else Ok (Product.ProductGroupID product) in
          match group with
          | Err e =>
              {| product_code := StatusBadRequest;
                 product_body := ProductError e;
                 product_calls := [CallGetProduct id] |}
          | Ok group =>
              let product := mergeProduct req product group in
              match updateProduct productStore product with
              | Err _ =>
                  {| product_code := StatusInternalServerError;
                     product_body := ProductError "Failed to update product";
                     product_calls :=
                       [CallGetProduct id; CallUpdateProduct product] |}
              | Ok _ =>
                  {| product_code := StatusOK;
                     product_body := ProductJSON product;
                     product_calls :=
                       [CallGetProduct id; CallUpdateProduct product;
                        CallProductLog "UPDATE_PRODUCT" (Product.ID product)
                          (Product.OwnerID product)] |}
              end
          end
      end
  end.

End Update.

End Products.

(** ** The response signing middleware *)

Module ResponseSigning.
Import Signer.

(** [crypto/ed25519], [encoding/base64] and the RFC 3339 format of
    [time]. *)
Class SigLib := {
  Sign : string -> string -> string;
  Verify : string -> string -> string -> bool;
  EncodeToString : string -> string;
  FormatRFC3339 : Time -> string
}.

(** What the rest of the chain does to the response: the chunks it writes,
    in order, and the headers it sets. *)
Record Downstream := {
  chunks : list string;
  setHeaders : gmap string string -> gmap string string
}.

(** The response: the bytes handed to the underlying writer and the header
    map. *)
Record Reply := {
  body : string;
  headers : gmap string string
}.

Fixpoint writeAll (buffer : string) (l : list string) : string :=
  match l with
  | [] => buffer
  | b :: rest => writeAll (buffer ++ b) rest
  end.

(** [c.Next()] on the plain writer. *)
Definition passThrough (next : Downstream) (r : Reply) : Reply :=
  {| body := writeAll (body r) (chunks next);
     headers := setHeaders next (headers r) |}.

Section Middleware.
Context `{SignLib} `{SigLib}.

(** [ResponseSigningMiddleware(privateKeyBase64)] on one request; [now] is
    the clock after the rest of the chain has run. *)
Definition ResponseSigningMiddleware (privateKeyBase64 : string) (now : Time)
  (next : Downstream) (r : Reply) : Reply :=
  if String.eqb privateKeyBase64 "" then passThrough next r
  else
    match DecodeString privateKeyBase64 with
    | Err _ => passThrough next r
    | Ok privateKeyBytes =>
        if negb (len privateKeyBytes =? PrivateKeySize)%Z
        then passThrough next r
        else
          let w_body := writeAll "" (chunks next) in
          let r' := passThrough next r in
          let timestamp := FormatRFC3339 now in
          let payload := timestamp ++ "." ++ w_body in
          let signature := Sign privateKeyBytes payload in
          let signatureBase64 := EncodeToString signature in
          {| body := body r';
             headers :=
               <["X-Clortho-Timestamp" := timestamp]>
                 (<["X-Clortho-Signature" := signatureBase64]> (headers r')) |}
    end.

End Middleware.

End ResponseSigning.

(** ** The configuration *)

Module Config.

(** The string fields of [Config]; the two rate-limit pools, which the
    functions below do not touch, are left to [Rest]. *)
Record t (Rest : Type) := {
  Port : string;
  Debug : bool;
  DatabaseURL : string;
  AdminSecret : string;
  ResponseSigningPrivateKey : string;
  ResponseSigningPublicKey : string;
  TrustedProxies : list string;
  RateLimits : Rest
}.
Arguments Port {Rest} _.
Arguments Debug {Rest} _.
Arguments DatabaseURL {Rest} _.
Arguments AdminSecret {Rest} _.
Arguments ResponseSigningPrivateKey {Rest} _.
Arguments ResponseSigningPublicKey {Rest} _.
Arguments TrustedProxies {Rest} _.
Arguments RateLimits {Rest} _.

(** [crypto/ed25519], [crypto/rand] and [encoding/base64]: the generation
    of a key pair (public, private), of 32 random bytes, and the encoding. *)
Class KeyLib := {
  GenerateKey : result (string * string);
  ReadRandom32 : result string;
  Base64 : string -> string
}.

Section Load.
Context {Rest : Type} {keylib : KeyLib}.

(** [os.Getenv]. *)
Variable Getenv : string -> string.

Definition fromEnv (name : string) (current : string) : string :=
  if negb (String.eqb (Getenv name) "") then Getenv name else current.

Definition LoadEnv (c : t Rest) : t Rest :=
  {| Port := fromEnv "PORT" (Port c);
     Debug := Debug c;
     DatabaseURL := fromEnv "DATABASE_URL" (DatabaseURL c);
     AdminSecret := fromEnv "ADMIN_SECRET" (AdminSecret c);
     ResponseSigningPrivateKey :=
       fromEnv "RESPONSE_SIGNING_PRIVATE_KEY" (ResponseSigningPrivateKey c);
     ResponseSigningPublicKey :=
       fromEnv "RESPONSE_SIGNING_PUBLIC_KEY" (ResponseSigningPublicKey c);
     TrustedProxies := TrustedProxies c;
     RateLimits := RateLimits c |}.

Definition ensureKeys (c : t Rest) : result (t Rest) :=
  if negb (String.eqb (ResponseSigningPrivateKey c) "")
     && negb (String.eqb (ResponseSigningPublicKey c) "")
  then Ok c
  else
    match GenerateKey with
    | Err e => Err ("failed to generate keys: " ++ e)
    | Ok (pub, priv) =>
        Ok {| Port := Port c; Debug := Debug c;
              DatabaseURL := DatabaseURL c;
              AdminSecret := AdminSecret c;
              ResponseSigningPrivateKey := Base64 priv;
              ResponseSigningPublicKey := Base64 pub;
              TrustedProxies := TrustedProxies c;
              RateLimits := RateLimits c |}
    end.

Definition ensureAdminSecret (c : t Rest) : result (t Rest) :=
  if negb (String.eqb (AdminSecret c) "") then Ok c
  else
    match ReadRandom32 with
    | Err e => Err ("failed to generate admin secret: " ++ e)
    | Ok secretBytes =>
        Ok {| Port := Port c; Debug := Debug c;
              DatabaseURL := DatabaseURL c;
              AdminSecret := Base64 secretBytes;
              ResponseSigningPrivateKey := ResponseSigningPrivateKey c;
              ResponseSigningPublicKey := ResponseSigningPublicKey c;
              TrustedProxies := TrustedProxies c;
              RateLimits := RateLimits c |}
    end.

(** What [os.Open] and the YAML decoder made of the file: no such file,
    another error of opening, or the outcome of decoding onto the default
    configuration. *)
Inductive FileOutcome : Type :=
  | NotExist
  | OpenFailed (e : string)
  | Decoded (r : result (t Rest)).

(** [LoadFromPath]; [defaults] is [NewDefaultConfig()]. *)
Definition LoadFromPath (defaults : t Rest) (file : FileOutcome)
  : result (t Rest) :=
  let afterFile : result (t Rest) :=
    match file with
    | NotExist => Ok defaults
    | OpenFailed e => Err e
    | Decoded r => r
    end in
  match afterFile with
  | Err e => Err e
  | Ok cfg =>
      match ensureKeys cfg with
      | Err e => Err e
      | Ok cfg =>
          match ensureAdminSecret cfg with
          | Err e => Err e
          | Ok cfg => Ok (LoadEnv cfg)
          end
      end
  end.

End Load.

End Config.

(** * Vocabulary of the statements *)

Module CharsetSpec.

(** The bytes [start], [start+1], ..., [n] of them. *)
Fixpoint byte_range (start : Z) (n : nat) : string :=
  match n with
  | O => EmptyString
  | S k => String (byte_of start) (byte_range (start + 1) k)
  end.

(** The range that a part denotes, if it is a range token [X-Y]. *)
Definition range_of (part : string) : option (ascii * ascii) :=
  match part with
  | String x (String mid (String y EmptyString)) =>
      if Ascii.eqb mid "-" then Some (x, y) else None
  | _ => None
  end.

(** What a part contributes: the bytes from [X] to [Y] inclusive for a
    range token, its own bytes otherwise. *)
Definition expand (part : string) : string :=
  match range_of part with
  | Some (x, y) =>
      byte_range (byte_val x) (Z.to_nat (byte_val y - byte_val x + 1))
  | None => part
  end.

(** A range token with [X > Y]. *)
Definition bad_range (part : string) : bool :=
  match range_of part with
  | Some (x, y) => (byte_val y <? byte_val x)%Z
  | None => false
  end.

(** A range token whose end is the largest byte. *)
Definition ends_at_max (part : string) : bool :=
  match range_of part with
  | Some (_, y) => (byte_val y =? 255)%Z
  | None => false
  end.

Fixpoint concat_strings (l : list string) : string :=
  match l with
  | [] => EmptyString
  | s :: r => s ++ concat_strings r
  end.

End CharsetSpec.

Module KeySpec.
Import Generator.

(** [draws max s ns s']: from state [s] the source answers the successive
    requests for a number below [max] with the numbers [ns], and is then in
    state [s']. *)
Inductive draws {S} `{RandSource S} (max : Z) : S -> list Z -> S -> Prop :=
  | draws_nil (s : S) : draws max s [] s
  | draws_cons (s s1 s2 : S) (n : Z) (ns : list Z) :
      rand_Int s max = (Ok n, s1) ->
      draws max s1 ns s2 ->
      draws max s (n :: ns) s2.

End KeySpec.

Module CheckSpec.
Import Models Handlers.

(** A field of the JSON object that a handler answered with. *)
Definition body_field (r : Response) (k : string) : option JSON :=
  match Body r with
  | BodyH h => h !! k
  | BodyLicense _ => None
  end.

(** The verdict of a check, read off its response: [valid] and the
    (possibly absent) [reason]. *)
Definition verdict (r : Response) : option JSON * option JSON :=
  (body_field r "valid", body_field r "reason").

Definition invalid_because (reason : string) : option JSON * option JSON :=
  (Some (JBool false), Some (JString reason)).

Definition valid_verdict : option JSON * option JSON :=
  (Some (JBool true), None).

End CheckSpec.

Module DurationSpec.

(** An integer, as written: an optional sign and at least one decimal
    digit. *)
Definition spec_integer (N : string) : bool :=
  match N with
  | EmptyString => false
  | String c r =>
      let digits := if Ascii.eqb c "-" || Ascii.eqb c "+" then r else N in
      negb (String.eqb digits "") && forallb Utils.is_digit (bytes digits)
  end.

Definition spec_units : list string := ["m"; "h"; "d"; "w"; "mo"; "y"].

(** A duration of the form [Nm], [Nh], [Nd], [Nw], [Nmo] or [Ny] with an
    integer [N]. *)
Definition spec_duration_form (d : string) : Prop :=
  exists (N unit : string),
    d = N ++ unit /\ spec_integer N = true /\ In unit spec_units.

End DurationSpec.

Module SettingsSpec.
Import Models Handlers.

(** Precedence: the first candidate that is present, else the default. *)
Definition first_present {A} (present : A -> bool) (candidates : list A)
  (default : A) : A :=
  match List.find present candidates with
  | Some a => a
  | None => default
  end.

Definition non_empty (s : string) : bool := negb (String.eqb s "").
Definition non_zero (z : Z) : bool := negb (z =? 0)%Z.
Definition non_default_separator (s : string) : bool :=
  negb (String.eqb s "") && negb (String.eqb s "-").

(** The value of a field of the group, when there is a group. *)
Definition of_group {A} (f : ProductGroup.t -> A)
  (group : option ProductGroup.t) : list A :=
  match group with
  | Some g => [f g]
  | None => []
  end.

(** The length by the precedence of the specification, read to the letter:
    request, then product, then group, each when non-zero, then 12. *)
Definition spec_length (req : generateLicenseRequest.t)
  (product : Product.t) (group : option ProductGroup.t) : Z :=
  first_present non_zero
    ([generateLicenseRequest.Length req; Product.LicenseLength product]
     ++ of_group ProductGroup.LicenseLength group)%list
    12%Z.

(** The separator that the key generator puts after the prefix. *)
Definition effective_separator (separator : string) : string :=
  if String.eqb separator "" then "-" else separator.

End SettingsSpec.

(** ** Addresses admitted by a license *)

Module AddressSpec.
Import Models Handlers.

Section Address.
Context {netlib : NetLib}.

(** An entry of [AllowedIPs] names the caller's address: it parses as an
    address equal to it, or it does not parse as an address, parses as a
    CIDR, and the address written in the CIDR is equal to it. *)
Definition listed_address (clientIP : IP) (entry : string) : Prop :=
  (exists a, ParseIP entry = Some a /\ IP_Equal a clientIP = true)
  \/ (ParseIP entry = None
      /\ exists a subnet,
           ParseCIDR entry = Some (a, subnet) /\ IP_Equal a clientIP = true).

(** An entry of [AllowedNetworks] holds the caller's address: it parses as a
    CIDR whose network contains it. *)
Definition listed_network (clientIP : IP) (entry : string) : Prop :=
  exists a subnet,
    ParseCIDR entry = Some (a, subnet) /\ IPNet_Contains subnet clientIP = true.

Definition admitted (license : License.t) (clientIP : IP) : Prop :=
  (exists entry, In entry (License.AllowedIPs license)
                 /\ listed_address clientIP entry)
  \/ (exists entry, In entry (License.AllowedNetworks license)
                    /\ listed_network clientIP entry).

Definition restricts (license : License.t) : Prop :=
  License.AllowedIPs license <> [] \/ License.AllowedNetworks license <> [].

End Address.

End AddressSpec.

(** ** The bucket of an address *)

Module LimiterSpec.
Import Middleware.

Section Spec.
Context {ratelib : RateLib}.






End Spec.

End LimiterSpec.

(** * Stand-ins for the libraries, for the examples

    The tests of the repository run the handlers against mock stores; the
    examples below run the model against these stand-ins. *)

Module Examples.
Import Utils Models Signer Middleware Handlers.

(** A calendar of 365-day years and 30-day months; [%q] puts the string
    between quotes. *)
Definition day : Z := 86400000000000.

#[export] Instance ExampleLib : GoLib := {|
  AddDate t y m d := (t + (y * 365 + m * 30 + d) * day)%Z;
  Quote s := String "034" s ++ String "034" EmptyString;
  Itoa z := pretty z
|}.

(** IPv4 only: an address is its four octets, a network the address and
    the length of its prefix. *)
Definition parse_octet (s : string) : option Z :=
  match s with
  | EmptyString => None
  | String c r =>
      if Ascii.eqb c "0" && negb (String.eqb r "") then None
      else match digits_val s 0 with
           | Some n => if (n <=? 255)%Z then Some n else None
           | None => None
           end
  end.

Definition parse_ipv4 (s : string) : option (list Z) :=
  match List.map parse_octet (split_on "." s) with
  | [Some a; Some b; Some c; Some d] => Some [a; b; c; d]
  | _ => None
  end.

Definition ipv4_number (ip : list Z) : Z :=
  fold_left (fun acc o => (acc * 256 + o)%Z) ip 0%Z.

Definition parse_cidr4 (s : string) : option (list Z * (list Z * Z)) :=
  match split_on "/" s with
  | [addr; bits] =>
      match parse_ipv4 addr, digits_val bits 0 with
      | Some ip, Some n =>
          if (n <=? 32)%Z && negb (String.eqb bits "") then Some (ip, (ip, n))
          else None
      | _, _ => None
      end
  | _ => None
  end.

Definition contains4 (net : list Z * Z) (ip : list Z) : bool :=
  let '(base, n) := net in
  (ipv4_number ip / 2 ^ (32 - n) =? ipv4_number base / 2 ^ (32 - n))%Z.

#[export] Instance ExampleNet : NetLib := {|
  IP := list Z;
  IPNet := list Z * Z;
  ParseIP := parse_ipv4;
  ParseCIDR := parse_cidr4;
  IP_Equal a b := bool_decide (a = b);
  IPNet_Contains := contains4
|}.

(** The standard base64 alphabet. *)
Definition b64_value (c : ascii) : option Z :=
  let v := byte_val c in
  if (65 <=? v)%Z && (v <=? 90)%Z then Some (v - 65)%Z
  else if (97 <=? v)%Z && (v <=? 122)%Z then Some (v - 71)%Z
  else if (48 <=? v)%Z && (v <=? 57)%Z then Some (v + 4)%Z
  else if (v =? 43)%Z then Some 62%Z
  else if (v =? 47)%Z then Some 63%Z
  else None.

(** The three bytes of four 6-bit values. *)
Definition b64_three (a b c d : Z) : list ascii :=
  let n := (a * 262144 + b * 4096 + c * 64 + d)%Z in
  [byte_of (n / 65536); byte_of (n / 256); byte_of n].

(** One group of four; the last group may end in one or two [=]. *)
Definition b64_group (last : bool) (a b c d : ascii) : option (list ascii) :=
  match b64_value a, b64_value b with
  | Some va, Some vb =>
      if last && Ascii.eqb d "="
      then if Ascii.eqb c "="
           then Some (take 1 (b64_three va vb 0 0))
           else match b64_value c with
                | Some vc => Some (take 2 (b64_three va vb vc 0))
                | None => None
                end
      else match b64_value c, b64_value d with
           | Some vc, Some vd => Some (b64_three va vb vc vd)
           | _, _ => None
           end
  | _, _ => None
  end.

Fixpoint b64_decode (l : list ascii) : option (list ascii) :=
  match l with
  | [] => Some []
  | a :: b :: c :: d :: rest =>
      match rest with
      | [] => b64_group true a b c d
      | _ =>
          match b64_group false a b c d, b64_decode rest with
          | Some g, Some r => Some (List.app g r)
          | _, _ => None
          end
      end
  | _ => None
  end.

(** [base64.StdEncoding.DecodeString] on input without line breaks (the Go
    decoder skips them, this one refuses them); the token of a claim set is
    its subject claim between brackets. *)
#[export] Instance ExampleSign : SignLib := {|
  DecodeString s :=
    match b64_decode (bytes s) with
    | Some l => Ok (string_of_list_ascii l)
    | None => Err "illegal base64 data"
    end;
  SignedString privateKey claims :=
    match claims !! "sub" with
    | Some (JString sub) => Ok ("[" ++ sub ++ "]")
    | _ => Err "no subject"
    end
|}.

(** A private key of 64 bytes and its base64 encoding. *)
Definition exampleKeyBytes : string :=
  "0123456789abcdef0123456789abcdef0123456789abcdef0123456789abcdef".

Definition exampleKeyBase64 : string :=
  "MDEyMzQ1Njc4OWFiY2RlZjAxMjM0NTY3ODlhYmNkZWYwMTIzNDU2Nzg5YWJjZGVmMDEyMzQ1Njc4OWFiY2RlZg==".

(** A bucket of [b] tokens that is never refilled; a cache that keeps every
    entry. *)
#[export] Instance ExampleRate : RateLib := {|
  Limit := Z;
  Limiter := Z;
  LRU := list (string * nat);
  NewLimiter r b := b;
  Allow l now := if (0 <? l)%Z then (true, (l - 1)%Z) else (false, l);
  NewLRU size ttl := [];
  lru_Get c ip now :=
    (snd <$> List.find (fun e => String.eqb (fst e) ip) c, c);
  lru_Add c ip p now := (ip, p) :: c
|}.

(** Stores that hold one product and accept every license. *)
Definition exampleProduct : Product.t :=
  {| Product.ID := "p1"; Product.OwnerID := None;
     Product.Name := "Editor"; Product.Description := "";
     Product.LicensePrefix := "ED"; Product.LicenseSeparator := "";
     Product.LicenseCharset := "0-9"; Product.LicenseLength := 20;
     Product.LicenseType := "perpetual"; Product.LicenseDuration := "";
     Product.ProductGroupID := Some "g1" |}.

Definition exampleGroup : ProductGroup.t :=
  {| ProductGroup.ID := "g1"; ProductGroup.OwnerID := None;
     ProductGroup.Name := "Suite"; ProductGroup.Description := "";
     ProductGroup.LicensePrefix := "SUITE";
     ProductGroup.LicenseSeparator := "_";
     ProductGroup.LicenseCharset := "A-Z";
     ProductGroup.LicenseLength := 30 |}.

Definition exampleStores : Stores :=
  {| getProduct id :=
       if String.eqb id "p1" then Ok exampleProduct else Err "not found";
     getProductGroup id :=
       if String.eqb id "g1" then Ok exampleGroup else Err "not found";
     createLicense _ := Ok tt |}.

Definition exampleRequest (expiresAt : option Time) (duration : string)
  (prefix : string) (length : Z) : generateLicenseRequest.t :=
  {| generateLicenseRequest.ProductID := "p1";
     generateLicenseRequest.Type_ := "timed";
     generateLicenseRequest.ExpiresAt := expiresAt;
     generateLicenseRequest.Duration := duration;
     generateLicenseRequest.Prefix := prefix;
     generateLicenseRequest.Length := length;
     generateLicenseRequest.FeatureCodes := [];
     generateLicenseRequest.ReleaseVersions := [];
     generateLicenseRequest.AllowedIPs := [];
     generateLicenseRequest.AllowedNetworks := [];
     generateLicenseRequest.OwnerID := None |}.

(** A license as the tests build it: a list that the literal leaves out is
    nil. *)
Definition exampleLicense (status : string) (expiresAt : option Time)
  (allowedIPs allowedNetworks : list string) (autoAllowedIP : bool)
  (autoAllowedIPLimit : Z) (features releases : list string) : License.t :=
  {| License.ID := "l1"; License.Key := "TEST-KEY";
     License.OwnerID := None; License.Type_ := "perpetual";
     License.ProductID := "p1";
     License.AllowedIPs := allowedIPs;
     License.AllowedNetworks := allowedNetworks;
     License.AutoAllowedIP := autoAllowedIP;
     License.AutoAllowedIPLimit := autoAllowedIPLimit;
     License.ExpiresAt := expiresAt;
     License.Features :=
       match features with
       | [] => NilStrings
       | _ => StringsOf features
       end;
     License.Releases := releases;
     License.Status := status;
     License.CreatedAt := 0%Z; License.UpdatedAt := 0%Z |}.

(** A limiter configuration with a burst of [burst] requests. *)
Definition exampleConfig (on : bool) (burst : Z)
  : RateLimitConfig (ratelib := ExampleRate) :=
  {| RequestsPerSecond := 1%Z; Burst := burst; Enabled := on;
     CacheSize := 10%Z; CacheTTL := 0%Z |}.

Definition exampleContext (ip : string) : Context :=
  {| Middleware.ClientIP := ip; written := None; aborted := false |}.

Definition exampleCheck (key ip version feature : string) : CheckRequest :=
  {| XLicenseKey := key; QueryVersion := version; QueryFeature := feature;
     ClientIP := ip; UserAgent := "test" |}.

(** The numbers 0, 7, 14, ... as the answers of the random source. *)
Definition draws_by_7 (n : nat) : Generator.Tape :=
  List.map (fun k => Ok (7 * Z.of_nat k)%Z) (seq 0 n).

(** The license of the IP restriction test, and the verdict of a check of a
    license from an address. *)
Definition restricted : License.t :=
  exampleLicense "active" None ["10.0.0.1"] ["192.168.1.0/24"] false 0 [] [].

Definition check_from (license : License.t) (ip : string)
  : option JSON * option JSON :=
  CheckSpec.verdict
    (response (CheckLicenseHandler (fun _ => Ok license) "" 10%Z
                 (exampleCheck "TEST-KEY" ip "" ""))).

End Examples.

(** * More stand-ins, for the examples of the admin handlers *)

Module AdminExamples.
Import Utils Models Handlers Pagination LicenseAdmin Products
  ResponseSigning Config Examples.

(** A license store that holds one license under the key "TEST-KEY" and
    accepts every update and deletion. *)
Definition oneLicense (license : License.t) : LicenseStore :=
  {| getLicenseByKey key :=
       if String.eqb key "TEST-KEY" then SOk license else SErr ErrNotFound;
     updateLicense _ := SOk tt;
     deleteLicense _ := SOk tt;
     listLicenses _ _ := Ok ([license], 1%Z) |}.

Definition timedLicense : License.t :=
  exampleLicense "active" (Some 50%Z) ["10.0.0.1"] [] false 0 ["pro"] ["1.0"].

Definition emptyUpdate : updateLicenseRequest.t :=
  {| updateLicenseRequest.Type_ := "";
     updateLicenseRequest.ExpiresAt := None;
     updateLicenseRequest.Duration := "";
     updateLicenseRequest.Prefix := "";
     updateLicenseRequest.Length := 0;
     updateLicenseRequest.FeatureCodes := None;
     updateLicenseRequest.ReleaseVersions := None;
     updateLicenseRequest.AllowedIPs := None;
     updateLicenseRequest.AllowedNetworks := None;
     updateLicenseRequest.Status := "";
     updateLicenseRequest.OwnerID := None |}.

Definition durationUpdate (expiresAt : option Time) (duration : string)
  : updateLicenseRequest.t :=
  {| updateLicenseRequest.Type_ := "";
     updateLicenseRequest.ExpiresAt := expiresAt;
     updateLicenseRequest.Duration := duration;
     updateLicenseRequest.Prefix := "";
     updateLicenseRequest.Length := 0;
     updateLicenseRequest.FeatureCodes := None;
     updateLicenseRequest.ReleaseVersions := None;
     updateLicenseRequest.AllowedIPs := None;
     updateLicenseRequest.AllowedNetworks := None;
     updateLicenseRequest.Status := "";
     updateLicenseRequest.OwnerID := Some "someone" |}.

(** A product store that holds the example product under "p1". *)
Definition oneProduct : ProductStore :=
  {| getProductByID id :=
       if String.eqb id "p1" then Ok exampleProduct else Err "not found";
     updateProduct _ := Ok tt |}.

Definition prefixUpdate (prefix separator : string) (length : Z)
  : updateProductRequest.t :=
  {| updateProductRequest.Name := "";
     updateProductRequest.Description := "";
     updateProductRequest.LicensePrefix := prefix;
     updateProductRequest.LicenseSeparator := separator;
     updateProductRequest.LicenseCharset := "";
     updateProductRequest.LicenseLength := length;
     updateProductRequest.LicenseType := "";
     updateProductRequest.LicenseDuration := "";
     updateProductRequest.ProductGroupID := "";
     updateProductRequest.OwnerID := None |}.

(** Identifiers are accepted when they have 36 bytes. *)
#[export] Instance ExampleUUID : UUIDLib := {|
  uuid_Parse s := if (String.length s =? 36)%nat then Some s else None
|}.

(** A signature scheme for the examples: the private and the public key are
    the same 64 bytes, and the signature of a message is the key followed by
    the message; the encoding leaves the bytes as they are. *)
#[export] Instance ExampleSig : SigLib := {|
  Sign privateKey message := privateKey ++ message;
  Verify publicKey message signature :=
    String.eqb signature (publicKey ++ message);
  EncodeToString s := s;
  FormatRFC3339 t := pretty t
|}.

Definition key64 : string := exampleKeyBytes.

#[export] Instance ExampleKeys : KeyLib := {|
  GenerateKey := Ok ("generated-public", "generated-private");
  ReadRandom32 := Ok "generated-secret";
  Base64 s := s
|}.

(** A configuration with the given keys, and an environment that sets
    only the given private key. *)
Definition exampleConfig0 (privateKey publicKey : string) : Config.t unit :=
  {| Port := "8080"; Debug := false; DatabaseURL := "";
     AdminSecret := "secret";
     ResponseSigningPrivateKey := privateKey;
     ResponseSigningPublicKey := publicKey;
     TrustedProxies := []; RateLimits := tt |}.

Definition exampleEnv (privateKey : string) (name : string) : string :=
  if String.eqb name "RESPONSE_SIGNING_PRIVATE_KEY" then privateKey else "".

(** The license and the result of the generate request of the examples:
    no prefix in the request, three random bytes. *)
Definition generatedLicense : License.t :=
  {| License.ID := "id"; License.Key := "ED_074";
     License.OwnerID := None; License.Type_ := "timed";
     License.ProductID := "p1"; License.AllowedIPs := [];
     License.AllowedNetworks := [];
     License.AutoAllowedIP := false;
     License.AutoAllowedIPLimit := 0;
     License.ExpiresAt := None; License.Features := NilStrings;
     License.Releases := []; License.Status := "active";
     License.CreatedAt := 0%Z; License.UpdatedAt := 0%Z |}.

Definition generatedResult : GenerateResult :=
  {| gen_response :=
       {| Code := StatusCreated; Body := BodyLicense generatedLicense |};
     gen_calls :=
       [GetProduct "p1"; GetProductGroup "g1";
        CreateLicense generatedLicense;
        CreateAdminLog "GENERATE_LICENSE" "id"] |}.

(** The rest of a chain that writes "hello world" in two chunks and sets
    no header; and a response that nothing was written to. *)
Definition helloWorld : Downstream :=
  {| chunks := ["hello "; "world"]; setHeaders := fun h => h |}.

Definition emptyReply : Reply := {| body := ""; headers := ∅ |}.

(** A library whose random source is broken. *)
Definition FailingKeys : KeyLib := {|
  GenerateKey := Err "no entropy";
  ReadRandom32 := Err "no entropy";
  Base64 s := s
|}.

(** An environment that gives both keys. *)
Definition keysEnv (name : string) : string :=
  if String.eqb name "RESPONSE_SIGNING_PRIVATE_KEY" then "env-private"
  else if String.eqb name "RESPONSE_SIGNING_PUBLIC_KEY" then "env-public"
  else "".

End AdminExamples.

(** * Properties *)

(** ** Bytes and strings *)

Lemma byte_val_range (c : ascii) : (0 <= byte_val c <= 255)%Z.
Proof.
  unfold byte_val. pose proof (N_ascii_bounded c). lia.
Qed.

Lemma byte_val_of (z : Z) : byte_val (byte_of z) = (z mod 256)%Z.
Proof.
  unfold byte_val, byte_of.
  assert (Hm : (0 <= z mod 256 < 256)%Z) by (apply Z.mod_pos_bound; lia).
  rewrite N_ascii_embedding by lia. lia.
Qed.

Lemma byte_of_val (c : ascii) : byte_of (byte_val c) = c.
Proof.
  unfold byte_of. pose proof (byte_val_range c).
  rewrite Z.mod_small by lia. unfold byte_val.
  rewrite N2Z.id. apply ascii_N_embedding.
Qed.

Lemma append_cons (c : ascii) (s t : string) :
  String c s ++ t = String c (s ++ t).
Proof. reflexivity. Qed.

Lemma append_nil_l (s : string) : "" ++ s = s.
Proof. reflexivity. Qed.

Lemma append_nil_r (s : string) : s ++ "" = s.
Proof.
  induction s as [|c s IH]; [reflexivity|]. now rewrite append_cons, IH.
Qed.

Lemma append_assoc (a b c : string) : (a ++ b) ++ c = a ++ (b ++ c).
Proof.
  induction a as [|x a IH]; [reflexivity|]. now rewrite !append_cons, IH.
Qed.

Lemma length_append (a b : string) :
  String.length (a ++ b) = (String.length a + String.length b)%nat.
Proof.
  induction a as [|c a IH]; [reflexivity|].
  rewrite append_cons. simpl. now rewrite IH.
Qed.

Lemma bytes_append (a b : string) : bytes (a ++ b) = (bytes a ++ bytes b)%list.
Proof.
  unfold bytes. induction a as [|c a IH]; [reflexivity|].
  rewrite append_cons. simpl. now rewrite IH.
Qed.

Lemma eqb_empty_false (c : ascii) (s : string) : String.eqb (String c s) "" = false.
Proof. reflexivity. Qed.

(** ** ParseCharset *)

Module GeneratorProofs.
Import Generator CharsetSpec.

(** With the end of the range at 255 the loop condition [i <= end] holds for
    every byte: the loop never exits. *)
Lemma range_loop_max_diverges (fuel : nat) :
  forall (i : Z) (b : string),
    (0 <= i <= 255)%Z -> range_loop fuel i 255 b = None.
Proof.
  induction fuel as [|f IH]; intros i b Hi; simpl; [reflexivity|].
  destruct (Z.leb_spec i 255); [|lia].
  apply IH. pose proof (Z.mod_pos_bound (i + 1) 256). lia.
Qed.

(** Below 255 the loop writes the bytes from [i] to [e] and exits. *)
Lemma range_loop_below (n : nat) :
  forall (fuel : nat) (i e : Z) (b : string),
    (0 <= i)%Z -> (e < 255)%Z -> Z.of_nat n = (e - i + 1)%Z ->
    (n < fuel)%nat ->
    range_loop fuel i e b = Some (b ++ byte_range i n).
Proof.
  induction n as [|n IH]; intros fuel i e b Hi He Hn Hf.
  - destruct fuel as [|f]; [lia|]. simpl.
    destruct (Z.leb_spec i e); [lia|]. now rewrite append_nil_r.
  - destruct fuel as [|f]; [lia|]. simpl.
    destruct (Z.leb_spec i e); [|lia].
    rewrite Z.mod_small by lia.
    rewrite (IH f (i + 1)%Z e) by lia.
    now rewrite append_assoc.
Qed.

Lemma parts_loop_cons (fuel : nat) (part : string) (rest : list string)
  (b : string) :
  parts_loop fuel (part :: rest) b =
  match range_of part with
  | Some (x, y) =>
      if (byte_val y <? byte_val x)%Z
      then Some (Err ("invalid range: " ++ part))
      else match range_loop fuel (byte_val x) (byte_val y) b with
           | None => None
           | Some b' => parts_loop fuel rest b'
           end
  | None => parts_loop fuel rest (b ++ part)
  end.
Proof.
  destruct part as [|x [|m [|y [|z t]]]]; try reflexivity;
    unfold range_of; simpl; destruct (Ascii.eqb m "-"); reflexivity.
Qed.

(** The parts loop, when no range ends at byte 255: the first range with
    [X > Y] is reported, otherwise every part is expanded in order. *)
Lemma parts_loop_below_max (parts : list string) :
  forall (fuel : nat) (b : string),
    (256 < fuel)%nat ->
    (forall p, In p parts -> ends_at_max p = false) ->
    parts_loop fuel parts b =
    Some match List.find bad_range parts with
         | Some p => Err ("invalid range: " ++ p)
         | None => Ok (b ++ concat_strings (List.map expand parts))
         end.
Proof.
  induction parts as [|part rest IH]; intros fuel b Hfuel Hmax.
  - simpl. now rewrite append_nil_r.
  - rewrite parts_loop_cons.
    assert (Hp : ends_at_max part = false) by (apply Hmax; now left).
    assert (Hrest : forall p, In p rest -> ends_at_max p = false)
      by (intros p Hin; apply Hmax; now right).
    simpl List.find. simpl List.map. simpl concat_strings.
    unfold bad_range at 1, expand at 1. unfold ends_at_max in Hp.
    destruct (range_of part) as [[x y]|].
    + pose proof (byte_val_range x) as Hx.
      pose proof (byte_val_range y) as Hy.
      destruct (Z.ltb_spec (byte_val y) (byte_val x)) as [Hlt|Hle];
        [reflexivity|].
      apply Z.eqb_neq in Hp.
      rewrite (range_loop_below (Z.to_nat (byte_val y - byte_val x + 1)))
        by lia.
      rewrite IH by assumption.
      now rewrite append_assoc.
    + rewrite IH by assumption. now rewrite append_assoc.
Qed.

(** Empty input: the default alphabet. *)
Lemma ParseCharset_empty (fuel : nat) :
  ParseCharset fuel "" = Some (Ok defaultCharset).
Proof. reflexivity. Qed.

(** X1: non-empty input without a range that ends at byte 255: the parser
    returns, with the concatenation of the expanded tokens in token order,
    or with the invalid-range error exactly when some range token has
    [X > Y]. *)
Theorem ParseCharset_below_max (input : string) (fuel : nat) :
  input <> "" ->
  (256 < fuel)%nat ->
  (forall p, In p (Split input) -> ends_at_max p = false) ->
  ParseCharset fuel input =
  Some match List.find bad_range (Split input) with
       | Some p => Err ("invalid range: " ++ p)
       | None => Ok (concat_strings (List.map expand (Split input)))
       end.
Proof.
  intros Hne Hfuel Hmax. unfold ParseCharset.
  destruct (String.eqb_spec input "") as [->|_]; [congruence|].
  now rewrite parts_loop_below_max.
Qed.

(** A range token [X-Y] with [X <= Y] expands to [Y - X + 1] bytes, the
    [k]-th of which is [X + k]. *)
Lemma byte_range_length (n : nat) (start : Z) :
  String.length (byte_range start n) = n.
Proof.
  revert start. induction n as [|n IH]; intros start; simpl; [reflexivity|].
  now rewrite IH.
Qed.

Lemma byte_range_get (n : nat) :
  forall (start : Z) (k : nat),
    (k < n)%nat ->
    String.get k (byte_range start n) = Some (byte_of (start + Z.of_nat k)).
Proof.
  induction n as [|n IH]; intros start k Hk; [lia|].
  destruct k as [|k]; simpl.
  - now rewrite Z.add_0_r.
  - rewrite IH by lia. do 2 f_equal. lia.
Qed.

(** A range that ends at byte 255 is never the invalid one. *)
Lemma ends_at_max_not_bad (p : string) :
  ends_at_max p = true -> bad_range p = false.
Proof.
  unfold ends_at_max, bad_range. destruct (range_of p) as [[x y]|]; [|easy].
  intros Hy. apply Z.eqb_eq in Hy. pose proof (byte_val_range x).
  apply Z.ltb_ge. lia.
Qed.

Lemma parts_loop_max_diverges (pre : list string) :
  forall (p : string) (rest : list string) (fuel : nat) (b : string),
    ends_at_max p = true ->
    (forall q, In q pre -> bad_range q = false) ->
    parts_loop fuel (pre ++ p :: rest)%list b = None.
Proof.
  induction pre as [|q pre IH]; intros p rest fuel b Hp Hpre.
  - cbn [app]. rewrite parts_loop_cons.
    pose proof (ends_at_max_not_bad p Hp) as Hnb.
    unfold ends_at_max in Hp. unfold bad_range in Hnb.
    destruct (range_of p) as [[x y]|]; [|discriminate].
    rewrite Hnb. apply Z.eqb_eq in Hp. rewrite Hp.
    rewrite range_loop_max_diverges by apply byte_val_range. reflexivity.
  - cbn [app]. rewrite parts_loop_cons.
    assert (Hq : bad_range q = false) by (apply Hpre; now left).
    assert (Hrest : forall q', In q' pre -> bad_range q' = false)
      by (intros q' Hin; apply Hpre; now right).
    unfold bad_range in Hq.
    destruct (range_of q) as [[x y]|].
    + rewrite Hq.
      destruct (range_loop fuel (byte_val x) (byte_val y) b);
        [now apply IH | reflexivity].
    + now apply IH.
Qed.

(** C3: a range token [X-Y] whose end [Y] is the largest byte has [X <= Y],
    so the specified result is the bytes from [X] to 255; but the loop
    counter is a byte, [i <= end] never becomes false, and when no earlier
    token is an invalid range [ParseCharset] returns with no amount of fuel:
    neither the alphabet nor the error. *)
Theorem ParseCharset_range_to_max_never_returns (input : string)
  (pre : list string) (p : string) (rest : list string) (fuel : nat) :
  input <> "" ->
  Split input = (pre ++ p :: rest)%list ->
  ends_at_max p = true ->
  (forall q, In q pre -> bad_range q = false) ->
  ParseCharset fuel input = None.
Proof.
  intros Hne Hsplit Hp Hpre. unfold ParseCharset.
  destruct (String.eqb_spec input "") as [|_]; [contradiction|].
  rewrite Hsplit. now apply parts_loop_max_diverges.
Qed.

(** The token 'a', '-', 0xFF, on a thousand steps of fuel. *)
Lemma ParseCharset_range_to_max_witness :
  ParseCharset 1000 (String "a" (String "-" (String "255" EmptyString)))
  = None.
Proof.
  apply (ParseCharset_range_to_max_never_returns
           (String "a" (String "-" (String "255" EmptyString)))
           [] (String "a" (String "-" (String "255" EmptyString))) [] 1000).
  - discriminate.
  - reflexivity.
  - reflexivity.
  - intros q [].
Defined.

(** ** GenerateLicenseKey *)

Lemma get_Some_In (s : string) :
  forall (k : nat) (c : ascii), String.get k s = Some c -> In c (bytes s).
Proof.
  induction s as [|x s IH]; intros k c Hget; simpl in Hget; [discriminate|].
  destruct k as [|k].
  - injection Hget as ->. now left.
  - right. now apply (IH k).
Qed.

Lemma get_in_range (s : string) :
  forall k : nat, (k < String.length s)%nat -> exists c, String.get k s = Some c.
Proof.
  induction s as [|x s IH]; intros k Hk; simpl in Hk; [lia|].
  destruct k as [|k]; simpl; [now exists x|]. apply IH. lia.
Qed.

Lemma index_Some_In (s : string) (i : Z) (c : ascii) :
  index s i = Some c -> In c (bytes s).
Proof.
  unfold index. destruct (i <? 0)%Z; [discriminate|]. apply get_Some_In.
Qed.

Lemma index_in_range (s : string) (i : Z) :
  (0 <= i < len s)%Z -> exists c, index s i = Some c.
Proof.
  unfold index, len. intros Hi.
  destruct (Z.ltb_spec i 0); [lia|]. apply get_in_range. lia.
Qed.

Import KeySpec.

Section FillFacts.
Context {S : Type} `{RandSource S}.

(** The filling loop: it never panics; when it returns a string, that string
    is the bytes written before followed by one byte of the alphabet per
    draw; when it returns an error, that error is the answer of the source
    to one of the draws. *)
Lemma fill_spec (n : nat) (cs : string) :
  (0 < len cs)%Z ->
  forall (src : S) (b : string),
    match fill n cs src b with
    | (Returns (Ok s), src') =>
        exists (nums : list Z) (rp : string),
          draws (len cs) src nums src'
          /\ s = b ++ rp
          /\ String.length rp = n
          /\ Forall2 (fun c k => index cs k = Some c) (bytes rp) nums
    | (Returns (Err e), src') =>
        exists (nums : list Z) (src1 : S),
          draws (len cs) src nums src1
          /\ (List.length nums < n)%nat
          /\ rand_Int src1 (len cs) = (Err e, src')
    | (Panics, _) => False
    end.
Proof.
  intros Hcs. induction n as [|n IH]; intros src b; simpl.
  - exists [], "". repeat split; try constructor. now rewrite append_nil_r.
  - destruct (rand_Int src (len cs)) as [[num|e] src1] eqn:Hdraw.
    + pose proof (rand_Int_range _ _ _ _ Hcs Hdraw) as Hrange.
      destruct (index_in_range cs num Hrange) as [c Hc]. rewrite Hc.
      specialize (IH src1 (b ++ String c "")).
      destruct (fill n cs src1 (b ++ String c "")) as [[[s|e]|] src'].
      * destruct IH as (nums & rp & Hd & Hs & Hlen & Hall).
        exists (num :: nums), (String c rp). repeat split.
        -- econstructor; eassumption.
        -- rewrite Hs, append_assoc. reflexivity.
        -- simpl. now rewrite Hlen.
        -- constructor; assumption.
      * destruct IH as (nums & src2 & Hd & Hlen & Herr).
        exists (num :: nums), src2. repeat split.
        -- econstructor; eassumption.
        -- simpl. lia.
        -- assumption.
      * exact IH.
    + exists [], src. repeat split; [constructor | simpl; lia | assumption].
Qed.

Lemma Forall2_index_In (cs : string) (l : list ascii) (nums : list Z) :
  Forall2 (fun c k => index cs k = Some c) l nums ->
  forall c, In c l -> In c (bytes cs).
Proof.
  induction 1 as [|c k l nums Hc _ IH]; intros c' Hin; [destruct Hin|].
  destruct Hin as [<-|Hin]; [now apply (index_Some_In cs k) | now apply IH].
Qed.

Lemma all_A_repeat (rp : string) :
  (forall c, In c (bytes rp) -> c = "A"%char) ->
  rp = repeat_byte "A" (String.length rp).
Proof.
  induction rp as [|x rp IH]; intros Hall; simpl; [reflexivity|].
  rewrite (Hall x) by now left.
  f_equal. apply IH. intros c Hc. apply Hall. now right.
Qed.

(** C4: a generation with positive length and non-empty alphabet never
    panics.  When it succeeds the key is the random part, preceded by prefix
    and separator ("-" for an empty one) when the prefix is not empty; the
    random part has exactly [length] bytes; its bytes are the bytes of the
    alphabet at the successive numbers drawn from the secure source, so all
    of them belong to the alphabet, and with the alphabet "A" it is [length]
    copies of 'A'.  When it fails, the error is the one that the secure
    source returned for one of the draws. *)
Theorem GenerateLicenseKey_correct (prefix : string) (length : Z)
  (separator charset : string) (src : S) :
  (0 < length)%Z ->
  charset <> "" ->
  match GenerateLicenseKey prefix length separator charset src with
  | (Returns (Ok key), src') =>
      exists (nums : list Z) (randomPart : string),
        draws (len charset) src nums src'
        /\ String.length randomPart = Z.to_nat length
        /\ Forall2 (fun c k => index charset k = Some c) (bytes randomPart) nums
        /\ (forall c, In c (bytes randomPart) -> In c (bytes charset))
        /\ key = (if String.eqb prefix "" then randomPart
                  else prefix
                       ++ (if String.eqb separator "" then "-" else separator)
                       ++ randomPart)
        /\ (charset = "A" -> randomPart = repeat_byte "A" (Z.to_nat length))
  | (Returns (Err e), src') =>
      exists (nums : list Z) (src1 : S),
        draws (len charset) src nums src1
        /\ (List.length nums < Z.to_nat length)%nat
        /\ rand_Int src1 (len charset) = (Err e, src')
  | (Panics, _) => False
  end.
Proof.
  intros Hlen Hcs. unfold GenerateLicenseKey.
  destruct (Z.leb_spec length 0) as [|_]; [lia|].
  destruct (String.eqb_spec charset "") as [|_]; [contradiction|].
  assert (Hpos : (0 < len charset)%Z).
  { unfold len. destruct charset; [contradiction | simpl; lia]. }
  pose proof (fill_spec (Z.to_nat length) charset Hpos src "") as Hfill.
  destruct (fill (Z.to_nat length) charset src "") as [[[s|e]|] src'].
  - destruct Hfill as (nums & rp & Hd & Hs & Hl & Hall).
    rewrite append_nil_l in Hs. subst s.
    assert (Hin : forall c, In c (bytes rp) -> In c (bytes charset))
      by (apply (Forall2_index_In charset _ nums); assumption).
    assert (HA : charset = "A" -> rp = repeat_byte "A" (Z.to_nat length)).
    { intros ->. rewrite <- Hl. apply all_A_repeat.
      intros c Hc. destruct (Hin c Hc) as [<-|[]]. reflexivity. }
    destruct (String.eqb_spec prefix ""); simpl;
      exists nums, rp; repeat split; assumption.
  - exact Hfill.
  - exact Hfill.
Qed.

End FillFacts.

(** The theorem on a prepared tape: prefix "KEY", three bytes from "abc". *)
Lemma GenerateLicenseKey_correct_witness :
  (0 < 3)%Z /\ "abc" <> ""
  /\ match GenerateLicenseKey "KEY" 3 "" "abc" [Ok 4; Ok 2; Ok 0]%Z with
     | (Returns (Ok key), src') =>
         exists (nums : list Z) (randomPart : string),
           draws (len "abc") [Ok 4; Ok 2; Ok 0]%Z nums src'
           /\ String.length randomPart = Z.to_nat 3
           /\ Forall2 (fun c k => index "abc" k = Some c) (bytes randomPart) nums
           /\ (forall c, In c (bytes randomPart) -> In c (bytes "abc"))
           /\ key = (if String.eqb "KEY" "" then randomPart
                     else "KEY" ++ (if String.eqb "" "" then "-" else "")
                          ++ randomPart)
           /\ ("abc" = "A" -> randomPart = repeat_byte "A" (Z.to_nat 3))
     | (Returns (Err e), src') =>
         exists (nums : list Z) (src1 : Tape),
           draws (len "abc") [Ok 4; Ok 2; Ok 0]%Z nums src1
           /\ (List.length nums < Z.to_nat 3)%nat
           /\ rand_Int src1 (len "abc") = (Err e, src')
     | (Panics, _) => False
     end.
Proof.
  split; [lia|]. split; [discriminate|].
  apply (GenerateLicenseKey_correct "KEY" 3 "" "abc" [Ok 4; Ok 2; Ok 0]%Z);
    [lia | discriminate].
Defined.

End GeneratorProofs.

(** ** ParseExpirationDuration and the generate handler *)

Module DurationProofs.
Import Utils DurationSpec Models Handlers.

Lemma substring_full (s : string) : substring 0 (String.length s) s = s.
Proof. induction s as [|c s IH]; simpl; [reflexivity | now rewrite IH]. Qed.

Lemma substring_split (s : string) :
  forall k : nat,
    (k <= String.length s)%nat ->
    substring 0 k s ++ substring k (String.length s - k) s = s.
Proof.
  induction s as [|c s IH]; intros k Hk; simpl in Hk.
  - assert (k = 0%nat) as -> by lia. reflexivity.
  - destruct k as [|k].
    + simpl. now rewrite substring_full.
    + simpl. rewrite append_cons. f_equal. apply IH. lia.
Qed.

Lemma digits_val_digits (s : string) :
  forall (acc n : Z),
    digits_val s acc = Some n -> forallb is_digit (bytes s) = true.
Proof.
  induction s as [|c s IH]; intros acc n Hd; simpl in *; [reflexivity|].
  destruct (is_digit c); [|discriminate]. simpl. eapply IH; eassumption.
Qed.

(** What [Atoi] accepts is an integer as written. *)
Lemma Atoi_integer (s : string) (v : Z) :
  Atoi s = Some v -> spec_integer s = true.
Proof.
  unfold Atoi, spec_integer. destruct s as [|c r]; [discriminate|].
  set (body := if Ascii.eqb c "-" || Ascii.eqb c "+" then r else String c r).
  destruct body as [|x body'] eqn:Hbody; [discriminate|].
  destruct (digits_val (String x body') 0) as [n|] eqn:Hd; [|discriminate].
  intros _. apply digits_val_digits in Hd. now rewrite Hd.
Qed.

(** A duration that [ParseExpirationDuration] accepts has the documented
    form. *)
Lemma ParseExpirationDuration_form `{GoLib} (now : Time) (d : string)
  (t : Time) :
  ParseExpirationDuration now d = Ok t -> spec_duration_form d.
Proof.
  unfold ParseExpirationDuration.
  destruct (Nat.ltb_spec (String.length d) 2) as [|Hlen]; [discriminate|].
  destruct (HasSuffix_mo d) eqn:Hmo.
  - destruct (Atoi (substring 0 (String.length d - 2) d)) as [val|] eqn:Hat;
      [|discriminate].
    intros _. exists (substring 0 (String.length d - 2) d), "mo".
    split; [|split].
    + unfold HasSuffix_mo in Hmo. apply andb_true_iff in Hmo as [_ Hmo].
      apply String.eqb_eq in Hmo. rewrite <- Hmo.
      pose proof (substring_split d (String.length d - 2)) as Hs.
      replace (String.length d - (String.length d - 2))%nat with 2%nat in Hs
        by lia.
      symmetry. apply Hs. lia.
    + eapply Atoi_integer; eassumption.
    + unfold spec_units. simpl. tauto.
  - destruct (Atoi (substring 0 (String.length d - 1) d)) as [val|] eqn:Hat;
      [|discriminate].
    set (u := substring (String.length d - 1) 1 d).
    intros Hok. exists (substring 0 (String.length d - 1) d), u.
    split; [|split].
    + pose proof (substring_split d (String.length d - 1)) as Hs.
      replace (String.length d - (String.length d - 1))%nat with 1%nat in Hs
        by lia.
      symmetry. apply Hs. lia.
    + eapply Atoi_integer; eassumption.
    + clearbody u. unfold spec_units.
      destruct (String.eqb_spec u "m") as [e|_]; [rewrite e; simpl; tauto|].
      destruct (String.eqb_spec u "h") as [e|_]; [rewrite e; simpl; tauto|].
      destruct (String.eqb_spec u "d") as [e|_]; [rewrite e; simpl; tauto|].
      destruct (String.eqb_spec u "w") as [e|_]; [rewrite e; simpl; tauto|].
      destruct (String.eqb_spec u "mo") as [e|_]; [rewrite e; simpl; tauto|].
      destruct (String.eqb_spec u "y") as [e|_]; [rewrite e; simpl; tauto|].
      discriminate.
Qed.

Section GenerateFacts.
Context `{GoLib} {S : Type} `{Generator.RandSource S}.

(** C6: a generate request with both [expires_at] and [duration], or with a
    [duration] that is not of the documented form, is answered with status
    400 and a non-empty error message, and the handler has called no store:
    no license was created. *)
Theorem GenerateLicenseHandler_rejects_bad_expiry (fuel : nat)
  (stores : Stores) (newID : UUID) (now : Time) (src : S)
  (req : generateLicenseRequest.t) :
  (generateLicenseRequest.ExpiresAt req <> None
   /\ generateLicenseRequest.Duration req <> "")
  \/ (generateLicenseRequest.Duration req <> ""
      /\ ~ spec_duration_form (generateLicenseRequest.Duration req)) ->
  exists msg : string,
    msg <> ""
    /\ GenerateLicenseHandler fuel stores newID now src (Ok req)
       = Some {| gen_response :=
                   {| Code := StatusBadRequest; Body := errorBody msg |};
                 gen_calls := [] |}.
Proof.
  intros Hbad. unfold GenerateLicenseHandler.
  destruct (generateLicenseRequest.ExpiresAt req) as [t|] eqn:Hexp.
  - destruct (String.eqb_spec (generateLicenseRequest.Duration req) "")
      as [Hd|Hd].
    + exfalso. destruct Hbad as [[_ Hne]|[Hne _]]; contradiction.
    + simpl. eexists. split; [|reflexivity]. discriminate.
  - destruct Hbad as [[Hne _]|[Hne Hform]]; [congruence|].
    destruct (String.eqb_spec (generateLicenseRequest.Duration req) "")
      as [Hd|Hd]; [contradiction|].
    simpl.
    destruct (ParseExpirationDuration now
                (generateLicenseRequest.Duration req)) as [exp|e] eqn:Hp.
    + exfalso. apply Hform. eapply ParseExpirationDuration_form; eassumption.
    + eexists. split; [|reflexivity]. discriminate.
Qed.

End GenerateFacts.

Import Generator Examples.

Lemma not_duration_form_5x : ~ spec_duration_form "5x".
Proof.
  intros (N & u & Heq & _ & Hin). unfold spec_units in Hin. simpl in Hin.
  destruct N as [|a [|b [|c N]]];
    repeat (destruct Hin as [<-|Hin]; [rewrite ?append_cons in Heq;
                                       discriminate Heq|]);
    destruct Hin.
Qed.

(** The request of a license with duration "5x": rejected, nothing
    stored. *)
Lemma GenerateLicenseHandler_rejects_bad_expiry_witness :
  exists msg : string,
    msg <> ""
    /\ GenerateLicenseHandler 300 exampleStores "id" 0%Z
         ([Ok 4; Ok 2; Ok 0]%Z : Generator.Tape)
         (Ok (exampleRequest None "5x" "" 3))
       = Some {| gen_response :=
                   {| Code := StatusBadRequest; Body := errorBody msg |};
                 gen_calls := [] |}.
Proof.
  apply (GenerateLicenseHandler_rejects_bad_expiry 300 exampleStores "id" 0%Z
           ([Ok 4; Ok 2; Ok 0]%Z : Generator.Tape) (exampleRequest None "5x" "" 3)).
  right. split; [discriminate | exact not_duration_form_5x].
Defined.

End DurationProofs.

(** ** The check handler *)

Module CheckProofs.
Import Utils Models Signer Handlers CheckSpec.

Lemma contains_In (l : list string) (x : string) :
  contains l x = true <-> In x l.
Proof.
  induction l as [|v l IH]; simpl; [split; [discriminate | tauto]|].
  destruct (String.eqb_spec v x) as [->|Hne]; [tauto|].
  rewrite IH. split; [tauto|]. intros [Heq|Hin]; [contradiction | assumption].
Qed.

Lemma append_not_empty (c : ascii) (s t : string) : String c s ++ t <> "".
Proof. rewrite append_cons. discriminate. Qed.

Section CheckFacts.
Context {golib : GoLib} {signlib : SignLib} {netlib : NetLib}.

(** Once [valid] is false, the later rules leave [valid] and [reason] as
    they are. *)
Lemma checkIP_invalid (license : License.t) (ip reason : string) :
  checkIP license ip (false, reason) = (false, reason).
Proof. reflexivity. Qed.

Lemma checkVersion_invalid (license : License.t) (version reason : string) :
  checkVersion license version (false, reason) = (false, reason).
Proof.
  unfold checkVersion. now rewrite andb_false_r.
Qed.

Lemma checkFeature_invalid (license : License.t) (feature reason : string) :
  checkFeature license feature (false, reason) = (false, reason).
Proof.
  unfold checkFeature. now rewrite andb_false_r.
Qed.

Lemma validate_short_circuit_status (license : License.t) (now : Time)
  (ip version feature reason : string) :
  checkStatusExpiry license now = (false, reason) ->
  validate license now ip version feature = (false, reason).
Proof.
  intros Hs. unfold validate. rewrite Hs, checkIP_invalid.
  now rewrite checkVersion_invalid, checkFeature_invalid.
Qed.

Lemma validate_short_circuit_ip (license : License.t) (now : Time)
  (ip version feature reason : string) :
  checkIP license ip (checkStatusExpiry license now) = (false, reason) ->
  validate license now ip version feature = (false, reason).
Proof.
  intros Hs. unfold validate.
  now rewrite Hs, checkVersion_invalid, checkFeature_invalid.
Qed.

(** The reasons are never empty when [valid] is false, and [reason] is
    empty when [valid] is true. *)
Lemma checkStatusExpiry_reason (license : License.t) (now : Time) :
  match checkStatusExpiry license now with
  | (true, reason) => reason = ""
  | (false, reason) => reason <> ""
  end.
Proof.
  unfold checkStatusExpiry.
  destruct (String.eqb _ _); [discriminate|].
  destruct (License.ExpiresAt license) as [t|]; [|reflexivity].
  destruct (Before t now); [discriminate | reflexivity].
Qed.

Lemma checkIP_reason (license : License.t) (ip : string) (st : bool * string) :
  match st with (true, r) => r = "" | (false, r) => r <> "" end ->
  match checkIP license ip st with
  | (true, reason) => reason = ""
  | (false, reason) => reason <> ""
  end.
Proof.
  destruct st as [[|] r]; intros Hr; [|exact Hr].
  unfold checkIP. destruct (_ && _); [|exact Hr].
  destruct (ParseIP ip) as [clientIP|]; [|discriminate].
  destruct (negb _); [discriminate | exact Hr].
Qed.

Lemma checkVersion_reason (license : License.t) (version : string)
  (st : bool * string) :
  match st with (true, r) => r = "" | (false, r) => r <> "" end ->
  match checkVersion license version st with
  | (true, reason) => reason = ""
  | (false, reason) => reason <> ""
  end.
Proof.
  destruct st as [[|] r]; intros Hr;
    [|now rewrite checkVersion_invalid].
  unfold checkVersion. destruct (_ && _); [|exact Hr].
  destruct (negb _); [apply append_not_empty | exact Hr].
Qed.

Lemma checkFeature_reason (license : License.t) (feature : string)
  (st : bool * string) :
  match st with (true, r) => r = "" | (false, r) => r <> "" end ->
  match checkFeature license feature st with
  | (true, reason) => reason = ""
  | (false, reason) => reason <> ""
  end.
Proof.
  destruct st as [[|] r]; intros Hr;
    [|now rewrite checkFeature_invalid].
  unfold checkFeature. destruct (_ && _); [|exact Hr].
  destruct (negb _); [apply append_not_empty | exact Hr].
Qed.

Lemma validate_reason (license : License.t) (now : Time)
  (ip version feature : string) :
  match validate license now ip version feature with
  | (true, reason) => reason = ""
  | (false, reason) => reason <> ""
  end.
Proof.
  unfold validate.
  apply checkFeature_reason, checkVersion_reason, checkIP_reason,
    checkStatusExpiry_reason.
Qed.

(** The response to a check whose key resolves: status 200, the verdict of
    [validate], the expiry, the token when signing is configured and
    succeeds; the license store was asked for the key and nothing else. *)
Lemma CheckLicenseHandler_found (licenseStore : string -> result License.t)
  (pk : string) (now : Time) (c : CheckRequest) (license : License.t) :
  XLicenseKey c <> "" ->
  licenseStore (XLicenseKey c) = Ok license ->
  let R := CheckLicenseHandler licenseStore pk now c in
  let v := validate license now (ClientIP c) (QueryVersion c) (QueryFeature c) in
  Code (response R) = StatusOK
  /\ verdict (response R)
     = (Some (JBool (fst v)),
        if fst v then None else Some (JString (snd v)))
  /\ body_field (response R) "expires_at"
     = Some (JTimePtr (License.ExpiresAt license))
  /\ body_field (response R) "token"
     = (if String.eqb pk "" then None
        else match SignLicense pk (XLicenseKey c) (License.ExpiresAt license)
                     (fst v) (License.Features license) with
             | Ok token => Some (JString token)
             | Err _ => None
             end)
  /\ calls R = [GetLicenseByKey (XLicenseKey c)].
Proof.
  intros Hkey Hget R v. subst R. unfold CheckLicenseHandler, requireLicenseKey.
  destruct (String.eqb_spec (XLicenseKey c) "") as [|_]; [contradiction|].
  rewrite Hget. fold v.
  pose proof (validate_reason license now (ClientIP c) (QueryVersion c)
                (QueryFeature c)) as Hreason. fold v in Hreason.
  destruct v as [valid reason]. cbn [fst snd].
  assert (Hr : String.eqb reason "" = valid).
  { destruct valid; [now subst | now apply String.eqb_neq]. }
  rewrite Hr. unfold verdict, body_field.
  destruct (String.eqb pk ""); cbn [negb];
    [|destruct (SignLicense pk (XLicenseKey c) (License.ExpiresAt license)
                  valid (License.Features license))];
    destruct valid; cbn; repeat split; reflexivity.
Qed.

(** C2: the rules run in the order status, expiration, IP and stop at the
    first failure.  A revoked license reports "License is revoked" whatever
    its expiry; an active license whose expiry is strictly before now
    reports "License has expired" whatever the caller's address; and a
    failure of the status, expiration or IP rule is the reported one
    whatever the version and feature constraints. *)
Theorem check_order_status_expiration_ip
  (licenseStore : string -> result License.t) (pk : string) (now : Time)
  (c : CheckRequest) (license : License.t) :
  XLicenseKey c <> "" ->
  licenseStore (XLicenseKey c) = Ok license ->
  let R := CheckLicenseHandler licenseStore pk now c in
  (License.Status license = LicenseStatusRevoked ->
   verdict (response R) = invalid_because "License is revoked")
  /\ (License.Status license = LicenseStatusActive ->
      forall t : Time,
        License.ExpiresAt license = Some t -> (t < now)%Z ->
        verdict (response R) = invalid_because "License has expired")
  /\ (forall reason : string,
        checkStatusExpiry license now = (false, reason) ->
        verdict (response R) = invalid_because reason)
  /\ (forall reason : string,
        checkIP license (ClientIP c) (checkStatusExpiry license now)
        = (false, reason) ->
        verdict (response R) = invalid_because reason).
Proof.
  intros Hkey Hget R.
  destruct (CheckLicenseHandler_found licenseStore pk now c license Hkey Hget)
    as (_ & Hv & _). fold R in Hv.
  assert (Hstatus : forall reason,
             checkStatusExpiry license now = (false, reason) ->
             verdict (response R) = invalid_because reason).
  { intros reason Hs. rewrite Hv.
    now rewrite (validate_short_circuit_status _ _ _ _ _ _ Hs). }
  repeat split.
  - intros Hrev. apply Hstatus. unfold checkStatusExpiry.
    now rewrite Hrev.
  - intros Hact t Ht Hlt. apply Hstatus. unfold checkStatusExpiry.
    rewrite Hact, Ht. unfold Before.
    destruct (Z.ltb_spec t now); [reflexivity | lia].
  - exact Hstatus.
  - intros reason Hs. rewrite Hv.
    now rewrite (validate_short_circuit_ip _ _ _ _ _ _ Hs).
Qed.

(** The version rule on a license that is still valid. *)
Lemma checkVersion_pass (license : License.t) (version : string) :
  version = "" \/ License.Releases license = []
  \/ In version (License.Releases license) ->
  checkVersion license version (true, "") = (true, "").
Proof.
  intros Hok. unfold checkVersion.
  destruct (String.eqb_spec version "") as [|Hne]; [reflexivity|].
  destruct Hok as [|[Hnil|Hin]]; [contradiction | now rewrite Hnil |].
  apply contains_In in Hin. rewrite Hin.
  now destruct (length (License.Releases license) =? 0)%nat.
Qed.

Lemma checkVersion_fail (license : License.t) (version : string) :
  version <> "" ->
  ~ (License.Releases license = [] \/ In version (License.Releases license)) ->
  checkVersion license version (true, "")
  = (false, "License not valid for version " ++ version).
Proof.
  intros Hne Hbad. unfold checkVersion.
  destruct (String.eqb_spec version "") as [|_]; [contradiction|].
  destruct (License.Releases license) as [|r rs] eqn:Hrel; [tauto|].
  change ((length (r :: rs) =? 0)%nat) with false.
  destruct (contains (r :: rs) version) eqn:Hc; [|reflexivity].
  apply contains_In in Hc. tauto.
Qed.

(** The feature rule on a license that is still valid. *)
Lemma checkFeature_pass (license : License.t) (feature : string) :
  feature = "" \/ In feature (License.Features license) ->
  checkFeature license feature (true, "") = (true, "").
Proof.
  intros Hok. unfold checkFeature.
  destruct (String.eqb_spec feature "") as [|Hne]; [reflexivity|].
  destruct Hok as [|Hin]; [contradiction|].
  apply contains_In in Hin. now rewrite Hin.
Qed.

Lemma checkFeature_fail (license : License.t) (feature : string) :
  feature <> "" ->
  ~ In feature (License.Features license) ->
  checkFeature license feature (true, "")
  = (false, "Feature not enabled: " ++ feature).
Proof.
  intros Hne Hbad. unfold checkFeature.
  destruct (String.eqb_spec feature "") as [|_]; [contradiction|].
  destruct (contains (License.Features license) feature) eqn:Hc;
    [|reflexivity].
  apply contains_In in Hc. contradiction.
Qed.

(** C7: on a license that passes the status, expiration and IP rules, a
    version constraint passes exactly when [Releases] is empty or holds the
    version, and fails with "License not valid for version {version}"; a
    feature constraint passes exactly when [Features] holds the code, and
    fails with "Feature not enabled: {feature}", in particular for an empty
    [Features]. *)
Theorem check_version_and_feature
  (licenseStore : string -> result License.t) (pk : string) (now : Time)
  (c : CheckRequest) (license : License.t) :
  XLicenseKey c <> "" ->
  licenseStore (XLicenseKey c) = Ok license ->
  fst (checkIP license (ClientIP c) (checkStatusExpiry license now)) = true ->
  let R := CheckLicenseHandler licenseStore pk now c in
  let version := QueryVersion c in
  let feature := QueryFeature c in
  let version_ok :=
    License.Releases license = [] \/ In version (License.Releases license) in
  let feature_ok := In feature (License.Features license) in
  (version <> "" -> feature = "" \/ feature_ok ->
   (version_ok -> verdict (response R) = valid_verdict)
   /\ (~ version_ok ->
       verdict (response R)
       = invalid_because ("License not valid for version " ++ version)))
  /\ (feature <> "" -> version = "" \/ version_ok ->
      (feature_ok -> verdict (response R) = valid_verdict)
      /\ (~ feature_ok ->
          verdict (response R)
          = invalid_because ("Feature not enabled: " ++ feature))
      /\ (elems (License.Features license) = [] ->
          verdict (response R)
          = invalid_because ("Feature not enabled: " ++ feature))).
Proof.
  intros Hkey Hget Hpre R version feature version_ok feature_ok.
  destruct (CheckLicenseHandler_found licenseStore pk now c license Hkey Hget)
    as (_ & Hv & _). fold R in Hv. rewrite Hv. clear Hv.
  unfold validate.
  pose proof (checkIP_reason license (ClientIP c) _
                (checkStatusExpiry_reason license now)) as Hr.
  destruct (checkIP license (ClientIP c) (checkStatusExpiry license now))
    as [valid reason]. simpl in Hpre. subst valid. subst reason.
  fold version feature. split.
  - intros Hne Hfeat. split.
    + intros Hver.
      rewrite checkVersion_pass by (right; exact Hver).
      now rewrite checkFeature_pass.
    + intros Hver.
      rewrite checkVersion_fail by assumption.
      now rewrite checkFeature_invalid.
  - intros Hne Hver. rewrite checkVersion_pass by tauto.
    repeat split.
    + intros Hfeat. rewrite checkFeature_pass by (right; exact Hfeat).
      reflexivity.
    + intros Hfeat. now rewrite checkFeature_fail.
    + intros Hnil. rewrite checkFeature_fail; [reflexivity | assumption |].
      rewrite Hnil. intros [].
Qed.

(** C10: a check with an empty or absent [X-License-Key] header is answered
    400 with the error "X-License-Key header is required"; the license store
    is not asked, and no rule is run: the answer carries no verdict and is
    the same for every store, signing key and clock. *)
Theorem check_requires_key (licenseStore : string -> result License.t)
  (pk : string) (now : Time) (c : CheckRequest) :
  XLicenseKey c = "" ->
  let R := CheckLicenseHandler licenseStore pk now c in
  response R
  = {| Code := StatusBadRequest;
       Body := errorBody "X-License-Key header is required" |}
  /\ calls R = []
  /\ verdict (response R) = (None, None)
  /\ LicenseCheckLog.LicenseID (logEntry R) = None.
Proof.
  intros Hkey R. subst R. unfold CheckLicenseHandler, requireLicenseKey.
  rewrite Hkey. cbn. repeat split; reflexivity.
Qed.

(** The check only reads the license store: it asks for the key, once, or
    not at all. *)
Lemma CheckLicenseHandler_read_only
  (licenseStore : string -> result License.t) (pk : string) (now : Time)
  (c : CheckRequest) :
  let R := CheckLicenseHandler licenseStore pk now c in
  calls R = [] \/ calls R = [GetLicenseByKey (XLicenseKey c)].
Proof.
  cbv zeta. unfold CheckLicenseHandler, requireLicenseKey.
  destruct (String.eqb (XLicenseKey c) ""); [now left|]. right.
  destruct (licenseStore (XLicenseKey c)) as [license|e]; [|reflexivity].
  now destruct (validate license now (ClientIP c) (QueryVersion c)
                  (QueryFeature c)).
Qed.

(** C1: the check never persists a license: whatever the license says about
    auto-allowed addresses, the only call on the license store is the lookup
    of the key.  A caller whose address parses and is in neither list of a
    license that restricts addresses is refused with "IP address not
    allowed", also when [AutoAllowedIP] is set and [AllowedIPs] is shorter
    than [AutoAllowedIPLimit]. *)
Theorem check_never_grows_allowlist
  (licenseStore : string -> result License.t) (pk : string) (now : Time)
  (c : CheckRequest) (license : License.t) (clientIP : IP) :
  XLicenseKey c <> "" ->
  licenseStore (XLicenseKey c) = Ok license ->
  fst (checkStatusExpiry license now) = true ->
  ParseIP (ClientIP c) = Some clientIP ->
  allowedIPs_loop clientIP (License.AllowedIPs license) = false ->
  allowedNetworks_loop clientIP (License.AllowedNetworks license) = false ->
  License.AutoAllowedIP license = true ->
  (Z.of_nat (length (License.AllowedIPs license))
   < License.AutoAllowedIPLimit license)%Z ->
  let R := CheckLicenseHandler licenseStore pk now c in
  calls R = [GetLicenseByKey (XLicenseKey c)]
  /\ (License.AllowedIPs license <> []
      \/ License.AllowedNetworks license <> [] ->
      verdict (response R) = invalid_because "IP address not allowed").
Proof.
  intros Hkey Hget Hpre Hip Hips Hnets _ _ R.
  destruct (CheckLicenseHandler_found licenseStore pk now c license Hkey Hget)
    as (_ & Hv & _ & _ & Hcalls). fold R in Hv, Hcalls.
  split; [exact Hcalls|]. intros Hlists. rewrite Hv.
  rewrite (validate_short_circuit_ip license now (ClientIP c) _ _
             "IP address not allowed"); [reflexivity|].
  destruct (checkStatusExpiry license now) as [valid reason].
  simpl in Hpre. subst valid. unfold checkIP. rewrite Hip, Hips, Hnets.
  destruct (License.AllowedIPs license) as [|a l];
    destruct (License.AllowedNetworks license) as [|n l']; cbn;
    try reflexivity.
  destruct Hlists; congruence.
Qed.

(** The claim set holds exactly the stated entries: the four that are
    always there, [exp] exactly when an expiry is set, and no other.  The
    features are the slice as [encoding/json] writes it: the array of the
    codes, or [null] for the nil slice. *)
Lemma claims_of_fields (key : string) (expiresAt : option Time)
  (valid : bool) (features : Strings) :
  let claims := claims_of key expiresAt valid features in
  claims !! "sub" = Some (JString key)
  /\ claims !! "iss" = Some (JString "clortho")
  /\ claims !! "valid" = Some (JBool valid)
  /\ claims !! "features"
     = Some match features with
            | NilStrings => JNull
            | StringsOf l => JStrings l
            end
  /\ claims !! "exp" = (fun t => JInt (Unix t)) <$> expiresAt
  /\ forall name, claims !! name <> None ->
       In name ["sub"; "iss"; "valid"; "features"; "exp"].
Proof.
  cbv zeta. split; [|split; [|split; [|split; [|split]]]];
    try (unfold claims_of, JSlice;
         destruct expiresAt as [t|]; destruct features as [|l]; cbn;
         reflexivity).
  intros name Hname.
  destruct (decide (name = "sub")) as [->|Hsub]; [cbn; tauto|].
  destruct (decide (name = "iss")) as [->|Hiss]; [cbn; tauto|].
  destruct (decide (name = "valid")) as [->|Hvalid]; [cbn; tauto|].
  destruct (decide (name = "features")) as [->|Hfeatures]; [cbn; tauto|].
  destruct (decide (name = "exp")) as [->|Hexp]; [cbn; tauto|].
  exfalso. apply Hname. unfold claims_of.
  destruct expiresAt as [t|];
    rewrite !lookup_insert_ne by congruence; apply lookup_empty.
Qed.

(** C8: with a configured key that decodes to 64 bytes, [SignLicense] is
    the signature, under the decoded key, of the claim set with subject =
    the license key, issuer = "clortho", [valid] = the outcome, [features] =
    the slice ([null] when it is nil), an expiration claim exactly when an
    expiry is set and no other claim; the check response carries that token,
    made for the key of the request, the verdict of the response and the
    expiry and features of the license, whenever the library signs.  With an
    empty key, a key that does not decode, or one of another size, signing
    fails; the check response then has no [token] field and still succeeds
    with status 200 and its verdict. *)
Theorem SignLicense_payload_and_failure (pk : string) :
  (forall privateKey : string,
      pk <> "" ->
      DecodeString pk = Ok privateKey ->
      len privateKey = PrivateKeySize ->
      (forall (key : string) (expiresAt : option Time) (valid : bool)
              (features : Strings),
          let claims := claims_of key expiresAt valid features in
          SignLicense pk key expiresAt valid features
          = SignedString privateKey claims
          /\ claims !! "sub" = Some (JString key)
          /\ claims !! "iss" = Some (JString "clortho")
          /\ claims !! "valid" = Some (JBool valid)
          /\ claims !! "features"
             = Some match features with
                    | NilStrings => JNull
                    | StringsOf l => JStrings l
                    end
          /\ claims !! "exp" = (fun t => JInt (Unix t)) <$> expiresAt
          /\ forall name, claims !! name <> None ->
               In name ["sub"; "iss"; "valid"; "features"; "exp"])
      /\ forall (licenseStore : string -> result License.t) (now : Time)
                (c : CheckRequest) (license : License.t),
           XLicenseKey c <> "" ->
           licenseStore (XLicenseKey c) = Ok license ->
           let R := CheckLicenseHandler licenseStore pk now c in
           Code (response R) = StatusOK
           /\ exists valid : bool,
                body_field (response R) "valid" = Some (JBool valid)
                /\ body_field (response R) "token"
                   = match SignedString privateKey
                             (claims_of (XLicenseKey c)
                                (License.ExpiresAt license) valid
                                (License.Features license)) with
                     | Ok token => Some (JString token)
                     | Err _ => None
                     end)
  /\ (forall (key : string) (expiresAt : option Time) (valid : bool)
             (features : Strings) (token : string),
        SignLicense pk key expiresAt valid features = Ok token ->
        exists (privateKey : string) (claims : gmap string JSON),
          DecodeString pk = Ok privateKey
          /\ len privateKey = PrivateKeySize
          /\ SignedString privateKey claims = Ok token
          /\ claims !! "sub" = Some (JString key)
          /\ claims !! "iss" = Some (JString "clortho")
          /\ claims !! "valid" = Some (JBool valid)
          /\ claims !! "features"
             = Some match features with
                    | NilStrings => JNull
                    | StringsOf l => JStrings l
                    end
          /\ claims !! "exp" = (fun t => JInt (Unix t)) <$> expiresAt)
  /\ (pk = ""
      \/ (exists e, DecodeString pk = Err e)
      \/ (exists k, DecodeString pk = Ok k /\ len k <> PrivateKeySize) ->
      (forall key expiresAt valid features,
       exists e, SignLicense pk key expiresAt valid features = Err e)
      /\ forall (licenseStore : string -> result License.t) (now : Time)
                (c : CheckRequest) (license : License.t),
           XLicenseKey c <> "" ->
           licenseStore (XLicenseKey c) = Ok license ->
           let R := CheckLicenseHandler licenseStore pk now c in
           body_field (response R) "token" = None
           /\ Code (response R) = StatusOK
           /\ exists valid, body_field (response R) "valid"
                            = Some (JBool valid)).
Proof.
  split; [|split].
  - intros privateKey Hne Hdec Hlen.
    assert (Hsign : forall key expiresAt valid features,
               SignLicense pk key expiresAt valid features
               = SignedString privateKey
                   (claims_of key expiresAt valid features)).
    { intros key expiresAt valid features. unfold SignLicense.
      destruct (String.eqb_spec pk "") as [|_]; [contradiction|].
      rewrite Hdec.
      destruct (Z.eqb_spec (len privateKey) PrivateKeySize) as [_|Hbad];
        [reflexivity | contradiction]. }
    split.
    + intros key expiresAt valid features claims.
      split; [apply Hsign|].
      exact (claims_of_fields key expiresAt valid features).
    + intros licenseStore now c license Hkey Hget R.
      destruct (CheckLicenseHandler_found licenseStore pk now c license
                  Hkey Hget) as (Hcode & Hv & _ & Htok & _).
      fold R in Hcode, Hv, Htok. split; [exact Hcode|].
      exists (fst (validate license now (ClientIP c) (QueryVersion c)
                     (QueryFeature c))).
      split.
      * unfold verdict in Hv. now injection Hv as Hvalid _.
      * rewrite Htok, Hsign.
        destruct (String.eqb_spec pk "") as [|_]; [contradiction|].
        reflexivity.
  - intros key expiresAt valid features token. unfold SignLicense.
    destruct (String.eqb pk ""); [discriminate|].
    destruct (DecodeString pk) as [privateKey|e]; [|discriminate].
    destruct (Z.eqb_spec (len privateKey) PrivateKeySize) as [Hlen|];
      [|discriminate].
    cbn [negb]. intros Hsign.
    exists privateKey, (claims_of key expiresAt valid features).
    pose proof (claims_of_fields key expiresAt valid features) as Hc.
    cbv zeta in Hc. tauto.
  - intros Hbad.
    assert (Hfail : forall key expiresAt valid features,
               exists e, SignLicense pk key expiresAt valid features = Err e).
    { intros key expiresAt valid features. unfold SignLicense.
      destruct (String.eqb_spec pk "") as [|Hne]; [eexists; reflexivity|].
      destruct Hbad as [|[[e He]|(k & Hk & Hlen)]]; [contradiction | |].
      - rewrite He. eexists. reflexivity.
      - rewrite Hk. destruct (Z.eqb_spec (len k) PrivateKeySize);
          [contradiction|]. eexists. reflexivity. }
    split; [exact Hfail|].
    intros licenseStore now c license Hkey Hget R.
    destruct (CheckLicenseHandler_found licenseStore pk now c license
                Hkey Hget) as (Hcode & Hv & _ & Htok & _).
    fold R in Hcode, Hv, Htok. repeat split.
    + rewrite Htok. destruct (String.eqb_spec pk "") as [|Hne];
        [reflexivity|].
      destruct (Hfail (XLicenseKey c) (License.ExpiresAt license)
                  (fst (validate license now (ClientIP c) (QueryVersion c)
                          (QueryFeature c)))
                  (License.Features license)) as [e ->].
      reflexivity.
    + exact Hcode.
    + unfold verdict in Hv. injection Hv as Hvalid _. eauto.
Qed.

End CheckFacts.

Import Examples.

(** A revoked license whose expiry is past, and an active license whose
    expiry is past, asked from an address outside its list. *)
Lemma check_order_witness :
  verdict (response
             (CheckLicenseHandler
                (fun _ => Ok (exampleLicense "revoked" (Some 5%Z) [] [] false 0
                                [] []))
                "" 10%Z (exampleCheck "TEST-KEY" "192.168.1.100" "" "")))
  = invalid_because "License is revoked"
  /\ verdict (response
                (CheckLicenseHandler
                   (fun _ => Ok (exampleLicense "active" (Some 5%Z)
                                   ["10.0.0.1"] [] false 0 [] []))
                   "" 10%Z (exampleCheck "TEST-KEY" "192.168.1.100" "" "")))
     = invalid_because "License has expired".
Proof.
  split.
  - apply (check_order_status_expiration_ip
             (fun _ => Ok (exampleLicense "revoked" (Some 5%Z) [] [] false 0
                             [] []))
             "" 10%Z (exampleCheck "TEST-KEY" "192.168.1.100" "" "")
             _ ltac:(discriminate) eq_refl).
    reflexivity.
  - apply (check_order_status_expiration_ip
             (fun _ => Ok (exampleLicense "active" (Some 5%Z) ["10.0.0.1"] []
                             false 0 [] []))
             "" 10%Z (exampleCheck "TEST-KEY" "192.168.1.100" "" "")
             _ ltac:(discriminate) eq_refl) with (t := 5%Z);
      [reflexivity | reflexivity | lia].
Defined.

(** A license for release 1.0 asked for 2.0, and a license without
    features asked for feature "pro". *)
Lemma check_version_and_feature_witness :
  verdict (response
             (CheckLicenseHandler
                (fun _ => Ok (exampleLicense "active" None [] [] false 0
                                ["pro"] ["1.0"]))
                "" 10%Z (exampleCheck "TEST-KEY" "192.168.1.100" "2.0" "")))
  = invalid_because "License not valid for version 2.0"
  /\ verdict (response
                (CheckLicenseHandler
                   (fun _ => Ok (exampleLicense "active" None [] [] false 0
                                   [] ["1.0"]))
                   "" 10%Z
                   (exampleCheck "TEST-KEY" "192.168.1.100" "1.0" "pro")))
     = invalid_because "Feature not enabled: pro".
Proof.
  split.
  - apply (check_version_and_feature
             (fun _ => Ok (exampleLicense "active" None [] [] false 0
                             ["pro"] ["1.0"]))
             "" 10%Z (exampleCheck "TEST-KEY" "192.168.1.100" "2.0" "")
             _ ltac:(discriminate) eq_refl eq_refl).
    + discriminate.
    + now left.
    + cbn. intros [Hnil|[Heq|[]]]; discriminate.
  - apply (check_version_and_feature
             (fun _ => Ok (exampleLicense "active" None [] [] false 0
                             [] ["1.0"]))
             "" 10%Z (exampleCheck "TEST-KEY" "192.168.1.100" "1.0" "pro")
             _ ltac:(discriminate) eq_refl eq_refl).
    + discriminate.
    + right. right. now left.
    + reflexivity.
Defined.

(** A request without the header. *)
Lemma check_requires_key_witness :
  response (CheckLicenseHandler (fun _ => Err "not found") "" 10%Z
              (exampleCheck "" "192.168.1.100" "" ""))
  = {| Code := StatusBadRequest;
       Body := errorBody "X-License-Key header is required" |}.
Proof.
  apply (check_requires_key (fun _ => Err "not found") "" 10%Z
           (exampleCheck "" "192.168.1.100" "" "") eq_refl).
Defined.

(** The license of the test "AutoAllowedIP_AlreadyAllowed" (one allowed
    address, growth enabled, limit 5), asked from a new address: refused,
    and not persisted. *)
Lemma check_never_grows_allowlist_witness :
  let license :=
    exampleLicense "active" None ["10.0.0.1"] [] true 5 [] [] in
  let R :=
    CheckLicenseHandler (fun _ => Ok license) "" 10%Z
      (exampleCheck "TEST-KEY" "192.168.1.100" "" "") in
  calls R = [GetLicenseByKey "TEST-KEY"]
  /\ verdict (response R) = invalid_because "IP address not allowed".
Proof.
  cbv zeta.
  destruct (check_never_grows_allowlist (netlib := ExampleNet)
              (fun _ => Ok (exampleLicense "active" None ["10.0.0.1"] [] true
                              5 [] []))
              "" 10%Z (exampleCheck "TEST-KEY" "192.168.1.100" "" "")
              (exampleLicense "active" None ["10.0.0.1"] [] true 5 [] [])
              [192; 168; 1; 100]%Z
              ltac:(discriminate) eq_refl eq_refl eq_refl eq_refl eq_refl
              eq_refl ltac:(cbn; lia)) as [Hcalls Hverdict].
  split; [exact Hcalls|]. apply Hverdict. left. discriminate.
Defined.

(** The license that the generate handler builds for a request without
    feature codes has the nil slice as its features, so the claim set that
    a check of it signs states [features: null], not a list. *)
Lemma SignLicense_nil_features_null :
  let license := AdminExamples.generatedLicense in
  elems (License.Features license) = []
  /\ SignLicense exampleKeyBase64 (License.Key license) None true
       (License.Features license)
     = SignedString exampleKeyBytes
         (claims_of (License.Key license) None true
            (License.Features license))
  /\ claims_of (License.Key license) None true (License.Features license)
     !! "features" = Some JNull
  /\ claims_of (License.Key license) None true (License.Features license)
     !! "features" <> Some (JStrings (License.Features license)).
Proof. cbv zeta. repeat split. discriminate. Qed.

(** A key that does not decode: no token, status 200; the encoding of a
    key of 64 bytes: the token signs the stated claims and the check
    response carries it. *)
Lemma SignLicense_payload_and_failure_witness :
  (let R := CheckLicenseHandler
              (fun _ => Ok (exampleLicense "active" None [] [] false 0 [] []))
              "not a key" 10%Z
              (exampleCheck "TEST-KEY" "192.168.1.100" "" "") in
   body_field (response R) "token" = None
   /\ Code (response R) = StatusOK)
  /\ SignLicense exampleKeyBase64 "TEST-KEY" (Some 7000000000%Z) true
       (StringsOf ["pro"]) = Ok "[TEST-KEY]"
  /\ (let R := CheckLicenseHandler
                 (fun _ => Ok (exampleLicense "active" None [] [] false 0
                                 ["pro"] []))
                 exampleKeyBase64 10%Z
                 (exampleCheck "TEST-KEY" "192.168.1.100" "" "") in
      body_field (response R) "token" = Some (JString "[TEST-KEY]")).
Proof.
  split; [|split].
  - destruct (SignLicense_payload_and_failure "not a key") as (_ & _ & Hfail).
    destruct Hfail as [_ Hcheck].
    + right. left. eexists. reflexivity.
    + destruct (Hcheck
                  (fun _ => Ok (exampleLicense "active" None [] [] false 0
                                  [] []))
                  10%Z (exampleCheck "TEST-KEY" "192.168.1.100" "" "")
                  (exampleLicense "active" None [] [] false 0 [] [])
                  ltac:(discriminate) eq_refl) as (Htok & Hcode & _).
      split; assumption.
  - destruct (SignLicense_payload_and_failure exampleKeyBase64)
      as (Hgood & _ & _).
    destruct (Hgood exampleKeyBytes ltac:(discriminate) eq_refl eq_refl)
      as [Hsign _].
    destruct (Hsign "TEST-KEY" (Some 7000000000%Z) true (StringsOf ["pro"]))
      as [Heq _].
    rewrite Heq. reflexivity.
  - destruct (SignLicense_payload_and_failure exampleKeyBase64)
      as (Hgood & _ & _).
    destruct (Hgood exampleKeyBytes ltac:(discriminate) eq_refl eq_refl)
      as [_ Hcheck].
    destruct (Hcheck
                (fun _ => Ok (exampleLicense "active" None [] [] false 0
                                ["pro"] []))
                10%Z (exampleCheck "TEST-KEY" "192.168.1.100" "" "")
                (exampleLicense "active" None [] [] false 0 ["pro"] [])
                ltac:(discriminate) eq_refl) as (_ & valid & _ & Htok).
    cbv zeta. rewrite Htok. reflexivity.
Defined.

End CheckProofs.

(** ** The settings of a generate request *)

Module SettingsProofs.
Import Generator Models Handlers SettingsSpec Examples.

(** The key generator treats an empty separator as "-". *)
Lemma GenerateLicenseKey_separator {S} `{RandSource S} (prefix : string)
  (length : Z) (separator charset : string) (src : S) :
  GenerateLicenseKey prefix length separator charset src
  = GenerateLicenseKey prefix length (effective_separator separator) charset
      src.
Proof.
  unfold GenerateLicenseKey, effective_separator.
  destruct (String.eqb_spec separator "") as [->|Hne]; [reflexivity|].
  destruct (String.eqb_spec separator "") as [|_]; [contradiction|].
  reflexivity.
Qed.

(** C5, as stated, fails: for a request with length -5, a product of length
    20 and a group of length 30, the resolved length is 12; it is not the
    request's non-zero value, which the precedence of the specification
    selects, nor the product's, nor the group's. *)
Lemma resolveSettings_negative_length :
  let req := exampleRequest None "" "" (-5) in
  length_ (resolveSettings req exampleProduct (Some exampleGroup)) = 12%Z
  /\ spec_length req exampleProduct (Some exampleGroup) = (-5)%Z
  /\ length_ (resolveSettings req exampleProduct (Some exampleGroup))
     <> spec_length req exampleProduct (Some exampleGroup).
Proof.
  cbv zeta. repeat split. intros Heq. discriminate Heq.
Qed.

(** C5, amended: the four settings are resolved independently.  Prefix: the
    request's when non-empty, else the product's when non-empty, else the
    group's when non-empty, else "LICENSE".  Length: the first non-zero of
    the request's, the product's and the group's, replaced by 12 when it is
    not positive or when all are zero.  Separator (no request value): the
    product's when non-empty and not "-", else the group's when non-empty,
    else "-".  Charset (no request value): the product's when non-empty,
    else the group's, and the empty spec parses to the default alphabet. *)
Theorem resolveSettings_precedence (req : generateLicenseRequest.t)
  (product : Product.t) (group : option ProductGroup.t) :
  let st := resolveSettings req product group in
  prefix st
  = first_present non_empty
      ([generateLicenseRequest.Prefix req; Product.LicensePrefix product]
       ++ of_group ProductGroup.LicensePrefix group)%list
      "LICENSE"
  /\ length_ st
     = (let l := first_present non_zero
                   ([generateLicenseRequest.Length req;
                     Product.LicenseLength product]
                    ++ of_group ProductGroup.LicenseLength group)%list
                   0%Z in
        if (l <=? 0)%Z then 12%Z else l)
  /\ effective_separator (separator st)
     = first_present non_default_separator
         (Product.LicenseSeparator product
          :: of_group ProductGroup.LicenseSeparator group)
         "-"
  /\ charsetRaw st
     = first_present non_empty
         (Product.LicenseCharset product
          :: of_group ProductGroup.LicenseCharset group)
         ""
  /\ (forall fuel, ParseCharset fuel "" = Some (Ok defaultCharset)).
Proof.
  cbv zeta. unfold resolveSettings, first_present, of_group,
    effective_separator, non_empty, non_zero, non_default_separator.
  destruct req, product. destruct group as [[]|];
    cbn [prefix length_ separator charsetRaw app List.find
         generateLicenseRequest.Prefix generateLicenseRequest.Length
         Product.LicensePrefix Product.LicenseSeparator
         Product.LicenseCharset Product.LicenseLength
         ProductGroup.LicensePrefix ProductGroup.LicenseSeparator
         ProductGroup.LicenseCharset ProductGroup.LicenseLength];
    repeat match goal with
      | |- context [String.eqb ?a ?b] =>
          is_var a; destruct (String.eqb_spec a b); subst;
          cbn [negb andb orb String.eqb Ascii.eqb Bool.eqb]
      | |- context [Z.eqb ?a ?b] =>
          is_var a; destruct (Z.eqb_spec a b); subst;
          cbn [negb andb orb Z.eqb]
      end;
    repeat split;
    repeat match goal with
      | |- context [Z.leb ?a ?b] =>
          destruct (Z.leb_spec a b); cbn [negb andb orb]
      end;
    try reflexivity; try congruence; try lia.
Qed.

End SettingsProofs.

(** ** The rate-limit middleware *)

Module MiddlewareProofs.
Import Middleware LimiterSpec.

Section RateLimiterFacts.
Context {ratelib : RateLib}.

(** The bucket of an address: the one the cache holds for it, else a new
    one with the configured rate and burst, stored under that address. *)
Lemma GetLimiter_bucket (rl : RateLimiter) (ip : string) (now : Time) :
  let '(limiter, rl1) := GetLimiter rl ip now in
  match lru_Get (ips rl) ip now with
  | (Some p, _) => limiter = p /\ heap rl1 = heap rl
  | (None, ips') =>
      heap rl1 limiter = NewLimiter (r rl) (b rl)
      /\ ips rl1 = lru_Add ips' ip limiter now
      /\ forall p, (p < fresh rl)%nat -> heap rl1 p = heap rl p
  end.
Proof.
  unfold GetLimiter. destruct (lru_Get (ips rl) ip now) as [[p|] ips'].
  - split; reflexivity.
  - cbn. repeat split.
    + apply fn_lookup_insert.
    + intros p Hp. apply fn_lookup_insert_ne. lia.
Qed.




End RateLimiterFacts.

Import Examples.


End MiddlewareProofs.

(** ** The repository's tests, on the model *)

Module Tests.
Import Generator Utils Models Signer Middleware Handlers CheckSpec Examples.

(** [TestParseCharset]. *)
Example ParseCharset_table :
  ParseCharset 300 "abc" = Some (Ok "abc")
  /\ ParseCharset 300 "a-c" = Some (Ok "abc")
  /\ ParseCharset 300 "1-3" = Some (Ok "123")
  /\ ParseCharset 300 "a-c,1-3" = Some (Ok "abc123")
  /\ ParseCharset 300 "A-C" = Some (Ok "ABC")
  /\ ParseCharset 300 "a-c,x" = Some (Ok "abcx")
  /\ ParseCharset 300 "z-a" = Some (Err "invalid range: z-a")
  /\ ParseCharset 300 "" = Some (Ok defaultCharset)
  /\ ParseCharset 300 "a-c,a-b,," = Some (Ok "abcab").
Proof. repeat split; reflexivity. Qed.

(** [TestGenerateLicenseKey], with the numbers 0, 7, 14, ... as draws. *)
Example GenerateLicenseKey_tests :
  fst (GenerateLicenseKey "TEST" 16 "-" "" (draws_by_7 16))
  = Returns (Ok "TEST-ahovCJQX4bipwDKR")
  /\ fst (GenerateLicenseKey "" 10 "" "" (draws_by_7 10))
     = Returns (Ok "ahovCJQX4b")
  /\ fst (GenerateLicenseKey "COOL" 8 "#" "" (draws_by_7 8))
     = Returns (Ok "COOL#ahovCJQX")
  /\ fst (GenerateLicenseKey "" 10 "" "A" (draws_by_7 10))
     = Returns (Ok "AAAAAAAAAA")
  /\ fst (GenerateLicenseKey "" 5 "" "1" (draws_by_7 5))
     = Returns (Ok "11111")
  /\ fst (GenerateLicenseKey "" 0 "" "ab" (draws_by_7 12))
     = Returns (Ok "abababababab")
  /\ fst (GenerateLicenseKey "K" 3 "" "ab" [Ok 1; Err "entropy"]%Z)
     = Returns (Err "entropy").
Proof. repeat split; reflexivity. Qed.

(** [ParseExpirationDuration]. *)
Example ParseExpirationDuration_examples :
  ParseExpirationDuration 0%Z "3d" = Ok (3 * day)%Z
  /\ ParseExpirationDuration 0%Z "2w" = Ok (14 * day)%Z
  /\ ParseExpirationDuration 0%Z "1mo" = Ok (30 * day)%Z
  /\ ParseExpirationDuration 0%Z "90m" = Ok (90 * Minute)%Z
  /\ ParseExpirationDuration 0%Z "d" = Err "duration too short"
  /\ ParseExpirationDuration 0%Z "mo" = Err "invalid number"
  /\ ParseExpirationDuration 0%Z "1.5h" = Err "invalid number"
  /\ is_ok (ParseExpirationDuration 0%Z "5x") = false
  /\ is_ok (ParseExpirationDuration 0%Z "99999999999999999999d") = false.
Proof. repeat split; reflexivity. Qed.

(** The check of [TestIPRestriction], for its IPv4 cases. *)
Example IPRestriction_tests :
  check_from restricted "10.0.0.1" = valid_verdict
  /\ check_from restricted "192.168.1.5" = valid_verdict
  /\ check_from restricted "192.168.1.200" = valid_verdict
  /\ check_from restricted "10.0.0.2" = invalid_because "IP address not allowed"
  /\ check_from restricted "192.168.2.1"
     = invalid_because "IP address not allowed"
  /\ check_from restricted "no address"
     = invalid_because "Unable to determine client IP for validation".
Proof. repeat split; reflexivity. Qed.

(** The four checks of the auto-allow test, on the handler as it is: the
    limit-reached, already-allowed and disabled cases answer as the test
    expects; in the add-success case the answer is valid, but the
    [UpdateLicense] call that the test waits for is not made. *)
Example AutoAllowedIP_tests :
  check_from (exampleLicense "active" None ["10.0.0.1"; "10.0.0.2"] [] true 2
                [] []) "192.168.1.101"
  = invalid_because "IP address not allowed"
  /\ check_from (exampleLicense "active" None ["10.0.0.1"] [] true 5 [] [])
       "10.0.0.1" = valid_verdict
  /\ check_from (exampleLicense "active" None ["10.0.0.1"] [] false 5 [] [])
       "192.168.1.100" = invalid_because "IP address not allowed"
  /\ check_from (exampleLicense "active" None [] [] true 2 [] [])
       "192.168.1.100" = valid_verdict
  /\ calls (CheckLicenseHandler
              (fun _ => Ok (exampleLicense "active" None [] [] true 2 [] []))
              "" 10%Z (exampleCheck "TEST-KEY" "192.168.1.100" "" ""))
     = [GetLicenseByKey "TEST-KEY"].
Proof. repeat split; reflexivity. Qed.

(** A generate request for the example product: prefix of the product,
    separator of the group, alphabet of the product, length of the request;
    with a negative length, the default length 12. *)
Example GenerateLicenseHandler_examples :
  (gen_response <$> GenerateLicenseHandler 300 exampleStores "id" 0%Z
                      (draws_by_7 20) (Ok (exampleRequest None "" "" 3)))
  = Some {| Code := StatusCreated;
            Body := BodyLicense
              {| License.ID := "id"; License.Key := "ED_074";
                 License.OwnerID := None; License.Type_ := "timed";
                 License.ProductID := "p1"; License.AllowedIPs := [];
                 License.AllowedNetworks := [];
                 License.AutoAllowedIP := false;
                 License.AutoAllowedIPLimit := 0;
                 License.ExpiresAt := None; License.Features := NilStrings;
                 License.Releases := []; License.Status := "active";
                 License.CreatedAt := 0%Z; License.UpdatedAt := 0%Z |} |}
  /\ (gen_calls <$> GenerateLicenseHandler 300 exampleStores "id" 0%Z
                      (draws_by_7 20) (Ok (exampleRequest None "" "X" (-5))))
     = Some [GetProduct "p1"; GetProductGroup "g1";
             CreateLicense
               {| License.ID := "id"; License.Key := "X_074185296307";
                  License.OwnerID := None; License.Type_ := "timed";
                  License.ProductID := "p1"; License.AllowedIPs := [];
                  License.AllowedNetworks := [];
                  License.AutoAllowedIP := false;
                  License.AutoAllowedIPLimit := 0;
                  License.ExpiresAt := None; License.Features := NilStrings;
                  License.Releases := []; License.Status := "active";
                  License.CreatedAt := 0%Z; License.UpdatedAt := 0%Z |};
             CreateAdminLog "GENERATE_LICENSE" "id"].
Proof. split; reflexivity. Qed.

(** Two requests of one address through a limiter with a burst of one: the
    first reaches the rest of the chain, the second is answered 429. *)
Example RateLimit_two_requests :
  let c := exampleContext "192.168.1.100" in
  let served (c : Context) : Context :=
    {| Middleware.ClientIP := Middleware.ClientIP c;
       written := Some {| Middleware.Code := 200; Middleware.Body := ∅ |};
       aborted := aborted c |} in
  let '(c1, h1) := serve (RateLimitMiddleware (exampleConfig true 1)) 0%Z
                     served c in
  let '(c2, h2) := serve h1 1%Z served c in
  let '(c3, _) := serve h2 2%Z served (exampleContext "10.0.0.1") in
  (Middleware.Code <$> written c1) = Some 200%Z
  /\ (Middleware.Code <$> written c2) = Some 429%Z
  /\ aborted c2 = true
  /\ (Middleware.Code <$> written c3) = Some 200%Z.
Proof. repeat split; reflexivity. Qed.

(** The keys of the signing tests: the encoding of 64 bytes decodes to
    them; "invalid-base64" does not decode; 64 letters of the alphabet are
    48 bytes, not a private key. *)
Example DecodeString_examples :
  DecodeString exampleKeyBase64 = Ok exampleKeyBytes
  /\ len exampleKeyBytes = PrivateKeySize
  /\ DecodeString "invalid-base64" = Err "illegal base64 data"
  /\ (len <$> match DecodeString exampleKeyBytes with
              | Ok k => Some k
              | Err _ => None
              end) = Some 48%Z
  /\ SignLicense exampleKeyBytes "TEST-KEY" None true NilStrings
     = Err "invalid private key size: 48".
Proof. repeat split; reflexivity. Qed.

End Tests.

(** * More properties of the code *)

(** ** The key generator *)

Module GeneratorMore.
Import Generator CharsetSpec KeySpec SettingsSpec GeneratorProofs.

(** A charset of two ranges and a literal. *)
Lemma ParseCharset_below_max_witness :
  ParseCharset 300 "a-c,x,1-3"
  = Some match List.find bad_range (Split "a-c,x,1-3") with
         | Some p => Err ("invalid range: " ++ p)
         | None => Ok (concat_strings (List.map expand (Split "a-c,x,1-3")))
         end.
Proof.
  apply (ParseCharset_below_max "a-c,x,1-3" 300).
  - discriminate.
  - lia.
  - intros p [<-|[<-|[<-|[]]]]; reflexivity.
Defined.

Section KeyFacts.
Context {S : Type} `{RandSource S}.

(** The alphabet in use is never empty. *)
Lemma usedCharset_not_empty (charset : string) :
  (0 < len (if String.eqb charset "" then defaultCharset else charset))%Z.
Proof.
  destruct (String.eqb_spec charset "") as [->|Hne]; [reflexivity|].
  unfold len. destruct charset; [contradiction | simpl; lia].
Qed.

(** X2: the length of a generated key is the length of the random part (the
    requested length, or 12 when that is not positive), plus, for a
    non-empty prefix, the lengths of the prefix and of the separator in
    use; whatever the alphabet, also the empty one. *)
Theorem GenerateLicenseKey_length (prefix : string) (length : Z)
  (separator charset : string) (src src' : S) (key : string) :
  GenerateLicenseKey prefix length separator charset src
  = (Returns (Ok key), src') ->
  len key
  = ((if String.eqb prefix "" then 0
      else len prefix + len (effective_separator separator))
     + (if (length <=? 0)%Z then 12 else length))%Z.
Proof.
  unfold GenerateLicenseKey, effective_separator.
  set (n := if (length <=? 0)%Z then 12%Z else length).
  assert (Hn : (0 < n)%Z) by (subst n; destruct (Z.leb_spec length 0); lia).
  set (cs := if String.eqb charset "" then defaultCharset else charset).
  pose proof (fill_spec (Z.to_nat n) cs (usedCharset_not_empty charset) src "")
    as Hfill.
  fold cs in Hfill.
  destruct (fill (Z.to_nat n) cs src "") as [[[s|e]|] s1]; try discriminate.
  destruct Hfill as (nums & rp & _ & Hs & Hl & _).
  rewrite append_nil_l in Hs. subst s.
  assert (Hrp : len rp = n) by (unfold len; rewrite Hl; lia).
  destruct (String.eqb prefix ""); cbn [negb]; intros Heq;
    injection Heq as <- _.
  - rewrite Hrp. lia.
  - unfold len in *. rewrite !length_append. lia.
Qed.

(** The filling loop succeeds when the source answers every draw. *)
Lemma fill_draws (cs : string) (nums : list Z) :
  (0 < len cs)%Z ->
  forall (src src' : S) (b : string),
    draws (len cs) src nums src' ->
    exists rp : string,
      fill (List.length nums) cs src b = (Returns (Ok (b ++ rp)), src').
Proof.
  intros Hcs src src' b Hd. revert b.
  induction Hd as [s|s s1 s2 n ns Hdraw Hd IH]; intros b.
  - exists "". cbn. now rewrite append_nil_r.
  - cbn [List.length fill]. rewrite Hdraw.
    pose proof (rand_Int_range _ _ _ _ Hcs Hdraw) as Hrange.
    destruct (index_in_range cs n Hrange) as [c ->].
    destruct (IH (b ++ String c "")) as [rp ->].
    exists (String c rp). now rewrite append_assoc.
Qed.

(** X3: the generator fails only on the source: when the source answers
    as many draws as the key has random bytes, the generator returns a key,
    and leaves the source in the state after these draws. *)
Theorem GenerateLicenseKey_succeeds (prefix : string) (length : Z)
  (separator charset : string) (src src' : S) (nums : list Z) :
  let usedCharset := if String.eqb charset "" then defaultCharset else charset in
  draws (len usedCharset) src nums src' ->
  List.length nums = Z.to_nat (if (length <=? 0)%Z then 12 else length) ->
  exists key : string,
    GenerateLicenseKey prefix length separator charset src
    = (Returns (Ok key), src').
Proof.
  intros usedCharset Hd Hlen. unfold GenerateLicenseKey. fold usedCharset.
  rewrite <- Hlen.
  destruct (fill_draws usedCharset nums (usedCharset_not_empty charset)
              src src' "" Hd) as [rp ->].
  destruct (String.eqb prefix ""); cbn [negb]; eexists; reflexivity.
Qed.

End KeyFacts.

(** A key of prefix "TEST" and 16 random bytes has 21 bytes, as in the
    generator's test. *)
Lemma GenerateLicenseKey_length_witness :
  len "TEST-ahovCJQX4bipwDKR" = 21%Z.
Proof.
  apply (GenerateLicenseKey_length "TEST" 16 "-" "" (Examples.draws_by_7 16)
           [] "TEST-ahovCJQX4bipwDKR").
  reflexivity.
Defined.

(** Three prepared answers for a key of three random bytes. *)
Lemma GenerateLicenseKey_succeeds_witness :
  exists key : string,
    GenerateLicenseKey "K" 3 "" "abc" ([Ok 4; Ok 2; Ok 0]%Z : Tape)
    = (Returns (Ok key), []).
Proof.
  apply (GenerateLicenseKey_succeeds "K" 3 "" "abc"
           ([Ok 4; Ok 2; Ok 0]%Z : Tape) [] [1; 2; 0]%Z).
  - repeat (econstructor; [reflexivity|]). constructor.
  - reflexivity.
Defined.

End GeneratorMore.

(** ** Durations and pagination *)

Module UtilsMore.
Import Utils DurationSpec Pagination DurationProofs.

Lemma substring_app_l (a b : string) :
  substring 0 (String.length a) (a ++ b) = a.
Proof.
  induction a as [|c a IH]; [destruct b; reflexivity|].
  rewrite append_cons. simpl. now rewrite IH.
Qed.

Lemma substring_app_r (a b : string) :
  substring (String.length a) (String.length b) (a ++ b) = b.
Proof.
  induction a as [|c a IH]; [apply substring_full|].
  rewrite append_cons. simpl. exact IH.
Qed.

(** A string that ends with "mo" ends with the byte 'o'. *)
Lemma HasSuffix_mo_last (s : string) (c : ascii) :
  HasSuffix_mo (s ++ String c "") = true -> c = "o"%char.
Proof.
  unfold HasSuffix_mo. intros Hmo. apply andb_true_iff in Hmo as [Hlen Hmo].
  apply Nat.leb_le in Hlen. apply String.eqb_eq in Hmo.
  rewrite length_append in Hlen, Hmo. simpl in Hlen, Hmo.
  assert (Hget : String.get 1 "mo" = Some "o"%char) by reflexivity.
  rewrite <- Hmo in Hget. rewrite substring_correct1 in Hget by lia.
  replace (1 + (String.length s + 1 - 2))%nat
    with (0 + String.length s)%nat in Hget by lia.
  rewrite <- append_correct2 in Hget. simpl in Hget. congruence.
Qed.

Lemma HasSuffix_mo_app (N : string) : HasSuffix_mo (N ++ "mo") = true.
Proof.
  unfold HasSuffix_mo. rewrite length_append.
  change (String.length "mo") with 2%nat.
  apply andb_true_iff. split; [apply Nat.leb_le; lia|].
  replace (String.length N + 2 - 2)%nat with (String.length N) by lia.
  pose proof (substring_app_r N "mo") as Hs.
  change (String.length "mo") with 2%nat in Hs. now rewrite Hs.
Qed.

Lemma Atoi_not_empty (N : string) (v : Z) : Atoi N = Some v -> N <> "".
Proof. intros Ha ->. discriminate Ha. Qed.

(** What the parser does with an integer followed by a unit. *)
Lemma ParseExpirationDuration_byte_unit `{GoLib} (now : Time) (N : string)
  (c : ascii) (v : Z) :
  Atoi N = Some v -> c <> "o"%char -> In (String c "") spec_units ->
  is_ok (ParseExpirationDuration now (N ++ String c "")) = true.
Proof.
  intros HN Hc Hu. pose proof (Atoi_not_empty N v HN) as Hne.
  assert (HlenN : (1 <= String.length N)%nat)
    by (destruct N; [contradiction | simpl; lia]).
  unfold ParseExpirationDuration. rewrite length_append.
  change (String.length (String c "")) with 1%nat.
  destruct (Nat.ltb_spec (String.length N + 1) 2); [lia|].
  destruct (HasSuffix_mo (N ++ String c "")) eqn:Hmo;
    [apply HasSuffix_mo_last in Hmo; contradiction|].
  replace (String.length N + 1 - 1)%nat with (String.length N) by lia.
  rewrite substring_app_l, HN.
  pose proof (substring_app_r N (String c "")) as Hs.
  change (String.length (String c "")) with 1%nat in Hs. rewrite Hs.
  unfold spec_units in Hu. simpl in Hu.
  destruct Hu as [Hu|[Hu|[Hu|[Hu|[Hu|[Hu|[]]]]]]];
    try discriminate Hu; injection Hu as <-; reflexivity.
Qed.

Lemma ParseExpirationDuration_unit `{GoLib} (now : Time) (N u : string)
  (v : Z) :
  Atoi N = Some v -> In u spec_units ->
  is_ok (ParseExpirationDuration now (N ++ u)) = true.
Proof.
  intros HN Hu.
  destruct (String.eqb_spec u "mo") as [->|Hmo].
  - pose proof (Atoi_not_empty N v HN) as Hne.
    assert (HlenN : (1 <= String.length N)%nat)
      by (destruct N; [contradiction | simpl; lia]).
    unfold ParseExpirationDuration. rewrite length_append.
    change (String.length "mo") with 2%nat.
    destruct (Nat.ltb_spec (String.length N + 2) 2); [lia|].
    rewrite HasSuffix_mo_app.
    replace (String.length N + 2 - 2)%nat with (String.length N) by lia.
    rewrite substring_app_l, HN. reflexivity.
  - assert (Hbyte : exists c, u = String c "" /\ c <> "o"%char).
    { unfold spec_units in Hu. simpl in Hu.
      destruct Hu as [<-|[<-|[<-|[<-|[<-|[<-|[]]]]]]];
        try (eexists; split; [reflexivity | discriminate]).
      contradiction. }
    destruct Hbyte as (c & -> & Hc).
    eapply ParseExpirationDuration_byte_unit; eassumption.
Qed.

(** X4: [ParseExpirationDuration] accepts exactly the strings made of a
    number that [strconv.Atoi] reads (an optional sign, digits, within the
    64-bit range) followed by one of the units m, h, d, w, mo, y. *)
Theorem ParseExpirationDuration_accepts_iff `{GoLib} (now : Time)
  (d : string) :
  is_ok (ParseExpirationDuration now d) = true
  <-> exists (N unit : string),
        d = N ++ unit /\ In unit spec_units /\ Atoi N <> None.
Proof.
  split.
  - unfold ParseExpirationDuration.
    destruct (Nat.ltb_spec (String.length d) 2) as [|Hlen]; [discriminate|].
    destruct (HasSuffix_mo d) eqn:Hmo.
    + destruct (Atoi (substring 0 (String.length d - 2) d)) as [val|] eqn:Hat;
        [|discriminate].
      intros _. exists (substring 0 (String.length d - 2) d), "mo".
      split; [|split; [unfold spec_units; simpl; tauto | congruence]].
      unfold HasSuffix_mo in Hmo. apply andb_true_iff in Hmo as [_ Hmo].
      apply String.eqb_eq in Hmo. rewrite <- Hmo.
      pose proof (substring_split d (String.length d - 2)) as Hs.
      replace (String.length d - (String.length d - 2))%nat with 2%nat in Hs
        by lia.
      symmetry. apply Hs. lia.
    + destruct (Atoi (substring 0 (String.length d - 1) d)) as [val|] eqn:Hat;
        [|discriminate].
      set (u := substring (String.length d - 1) 1 d).
      intros Hok. exists (substring 0 (String.length d - 1) d), u.
      split; [|split; [|congruence]].
      * pose proof (substring_split d (String.length d - 1)) as Hs.
        replace (String.length d - (String.length d - 1))%nat with 1%nat
          in Hs by lia.
        symmetry. apply Hs. lia.
      * clearbody u. unfold spec_units.
        destruct (String.eqb_spec u "m") as [e|_]; [rewrite e; simpl; tauto|].
        destruct (String.eqb_spec u "h") as [e|_]; [rewrite e; simpl; tauto|].
        destruct (String.eqb_spec u "d") as [e|_]; [rewrite e; simpl; tauto|].
        destruct (String.eqb_spec u "w") as [e|_]; [rewrite e; simpl; tauto|].
        destruct (String.eqb_spec u "mo") as [e|_]; [rewrite e; simpl; tauto|].
        destruct (String.eqb_spec u "y") as [e|_]; [rewrite e; simpl; tauto|].
        discriminate.
  - intros (N & u & -> & Hu & HN).
    destruct (Atoi N) as [v|] eqn:Hat; [|contradiction].
    eapply ParseExpirationDuration_unit; eassumption.
Qed.

(** A number that [Atoi] reads fits the 64-bit [int]. *)
Lemma Atoi_range (s : string) (v : Z) :
  Atoi s = Some v -> (- 2 ^ 63 <= v <= 2 ^ 63 - 1)%Z.
Proof.
  unfold Atoi. destruct s as [|c r]; [discriminate|].
  destruct (if Ascii.eqb c "-" || Ascii.eqb c "+" then r else String c r)
    as [|x body]; [discriminate|].
  destruct (digits_val (String x body) 0) as [n|]; [|discriminate].
  destruct (_ && _) eqn:Hr; [|discriminate].
  intros Hv. injection Hv as <-.
  apply andb_true_iff in Hr as [H1 H2].
  apply Z.leb_le in H1, H2. lia.
Qed.

(** The parsed page is at least 1, the parsed limit between 1 and 1000. *)
Lemma ParsePaginationParams_range (page limit : option string) :
  let p := ParsePaginationParams page limit in
  (1 <= Page p <= 2 ^ 63 - 1)%Z /\ (1 <= Limit p <= 1000)%Z.
Proof.
  cbv zeta. unfold ParsePaginationParams. cbn [Page Limit]. split.
  - destruct (Atoi (DefaultQuery page "1")) as [v|] eqn:Hat; [|lia].
    apply Atoi_range in Hat. destruct (Z.ltb_spec v 1); lia.
  - destruct (Atoi (DefaultQuery limit "10")) as [v|] eqn:Hat.
    + destruct (Z.ltb_spec v 1).
      * cbn. lia.
      * destruct (Z.ltb_spec 1000 v); lia.
    + cbn. lia.
Qed.

(** The number of pages for a positive limit of at most 1000 and a row
    count below 2^62. *)
Lemma totalPagesOf_ceiling (totalCount : Z) (p : PaginationParams) :
  (1 <= Limit p <= 1000)%Z ->
  (0 <= totalCount < 2 ^ 62)%Z ->
  let n := totalPagesOf totalCount p in
  ((n - 1) * Limit p < totalCount <= n * Limit p)%Z.
Proof.
  intros Hl Hc n. subst n. unfold totalPagesOf.
  destruct (Z.ltb_spec 0 (Limit p)); [|lia].
  set (L := Limit p) in *.
  assert (Hw1 : wrap64 (totalCount + L) = (totalCount + L)%Z).
  { unfold wrap64. rewrite Z.mod_small; lia. }
  rewrite Hw1.
  assert (Hw2 : wrap64 (totalCount + L - 1) = (totalCount + L - 1)%Z).
  { unfold wrap64. rewrite Z.mod_small; lia. }
  rewrite Hw2. rewrite Z.quot_div_nonneg by lia.
  pose proof (Z.div_mod (totalCount + L - 1) L ltac:(lia)) as Hdm.
  pose proof (Z.mod_pos_bound (totalCount + L - 1) L ltac:(lia)) as Hm.
  nia.
Qed.

(** X5: whatever the query says, the parsed page is at least 1 and the
    parsed limit lies between 1 and 1000; without the two keys the page is 1
    and the limit 10.  A limit that is a number is kept when it lies
    between 1 and 1000, cut to 1000 above, and replaced by 10 below 1; a
    page that is a number is kept from 1 on and replaced by 1 below; a value
    that is not a number gives the default. *)
Theorem ParsePaginationParams_bounds (page limit : option string) :
  let p := ParsePaginationParams page limit in
  (1 <= Page p <= 2 ^ 63 - 1)%Z
  /\ (1 <= Limit p <= 1000)%Z
  /\ ParsePaginationParams None None = {| Page := 1; Limit := 10 |}
  /\ (forall s, limit = Some s ->
       match Atoi s with
       | Some v => Limit p = (if (v <? 1)%Z then 10
                              else if (1000 <? v)%Z then 1000 else v)%Z
       | None => Limit p = 10%Z
       end)
  /\ (forall s, page = Some s ->
       match Atoi s with
       | Some v => Page p = (if (v <? 1)%Z then 1 else v)%Z
       | None => Page p = 1%Z
       end).
Proof.
  cbv zeta.
  destruct (ParsePaginationParams_range page limit) as [Hp Hl].
  split; [exact Hp|]. split; [exact Hl|]. split; [reflexivity|].
  unfold ParsePaginationParams. cbn [Page Limit]. split.
  - intros s ->. cbn [DefaultQuery].
    destruct (Atoi s) as [v|]; [|reflexivity].
    destruct (Z.ltb_spec v 1); [reflexivity|].
    destruct (Z.ltb_spec 1000 v); reflexivity.
  - intros s ->. cbn [DefaultQuery].
    destruct (Atoi s) as [v|]; reflexivity.
Qed.

(** X6: with the parsed parameters and a row count below 2^62, the number of
    pages that a list handler reports is the number of pages that the rows
    fill: the least [n] with [n * limit >= totalCount]. *)
Theorem totalPages_is_ceiling (page limit : option string) (totalCount : Z) :
  (0 <= totalCount < 2 ^ 62)%Z ->
  let p := ParsePaginationParams page limit in
  let n := totalPagesOf totalCount p in
  ((n - 1) * Limit p < totalCount <= n * Limit p)%Z.
Proof.
  intros Hc p n.
  destruct (ParsePaginationParams_range page limit) as [_ Hl].
  exact (totalPagesOf_ceiling totalCount p Hl Hc).
Qed.

(** X7: for a page that the handler reports as existing (at most
    [totalPages]), the store's query keeps the parsed limit, starts at row
    [(page - 1) * limit] and that row exists; successive pages are
    adjacent. *)
Theorem window_of_existing_page (page limit : option string)
  (totalCount : Z) :
  (0 <= totalCount < 2 ^ 62)%Z ->
  let p := ParsePaginationParams page limit in
  (Page p <= totalPagesOf totalCount p)%Z ->
  let '(lim, offset) := window p in
  lim = Limit p
  /\ offset = ((Page p - 1) * Limit p)%Z
  /\ (0 <= offset < totalCount)%Z.
Proof.
  intros Hc p Hpage.
  destruct (ParsePaginationParams_range page limit) as [Hp Hl].
  fold p in Hp, Hl.
  pose proof (totalPagesOf_ceiling totalCount p Hl Hc) as Hceil.
  cbv zeta in Hceil.
  unfold window.
  destruct (Z.leb_spec (Limit p) 0); [lia|].
  destruct (Z.leb_spec (Page p) 0); [lia|].
  set (L := Limit p) in *. set (P := Page p) in *.
  set (n := totalPagesOf totalCount p) in *.
  assert (Hoff : (0 <= (P - 1) * L < totalCount)%Z) by nia.
  assert (Hw1 : wrap64 (P - 1) = (P - 1)%Z).
  { unfold wrap64. rewrite Z.mod_small; lia. }
  rewrite Hw1.
  assert (Hw2 : wrap64 ((P - 1) * L) = ((P - 1) * L)%Z).
  { unfold wrap64. rewrite Z.mod_small; lia. }
  rewrite Hw2. repeat split; lia.
Qed.

(** 95 rows, 10 per page: 10 pages; page 10 starts at row 90. *)
Lemma totalPages_is_ceiling_witness :
  let p := ParsePaginationParams (Some "10") (Some "10") in
  ((totalPagesOf 95 p - 1) * Limit p < 95 <= totalPagesOf 95 p * Limit p)%Z.
Proof.
  apply (totalPages_is_ceiling (Some "10") (Some "10") 95). lia.
Defined.

Lemma window_of_existing_page_witness :
  let '(lim, offset) := window (ParsePaginationParams (Some "10") (Some "10")) in
  lim = 10%Z /\ offset = ((10 - 1) * 10)%Z /\ (0 <= offset < 95)%Z.
Proof.
  apply (window_of_existing_page (Some "10") (Some "10") 95);
    [lia | vm_compute; discriminate].
Defined.

End UtilsMore.

(** ** The log handlers *)

Module LogMore.
Import Utils Models Pagination LogHandlers.

Section LogFacts.
Context {CheckLog : Type}.
Variable checkLogs : LogCall -> result (list CheckLog * Z).

Lemma fetch_one_call {T} (store : LogCall -> result (list T * Z))
  (call : LogCall) (pagination : PaginationParams) (failure : string) :
  log_calls (fetch store call pagination failure) = [call].
Proof.
  unfold fetch. destruct (store call) as [[logs total]|e]; reflexivity.
Qed.

(** X8: the check-log handler asks the store at most once.  A
    [status_code] that is not a number is answered 400 before any query, and
    so is a request without a filter.  Otherwise the one query is the query
    by license key when [license_key] is given, else the query by product
    when [product_id] is given, else the query by product group; it carries
    the filter's value, the status code when one is given, and the parsed
    paging; the answer is 200 with the page of what the store returned, or
    500 when the store failed.  With a license key, the answer does not
    depend on [product_id], [product_group_id] or [owner_id]. *)
Theorem GetLicenseCheckLogsHandler_filters (q : LogQuery) :
  let R := GetLicenseCheckLogsHandler checkLogs q in
  (List.length (log_calls R) <= 1)%nat
  /\ (status_code q <> "" /\ Atoi (status_code q) = None ->
      R = {| log_response := LogError 400 "Invalid status_code parameter";
             log_calls := [] |})
  /\ (license_key q = "" /\ product_id q = "" /\ product_group_id q = "" ->
      exists msg, log_response R = LogError 400 msg /\ log_calls R = [])
  /\ (license_key q <> "" ->
      forall q' : LogQuery,
        license_key q' = license_key q ->
        status_code q' = status_code q ->
        page q' = page q -> limit q' = limit q ->
        GetLicenseCheckLogsHandler checkLogs q' = R)
  /\ (status_code q = "" \/ Atoi (status_code q) <> None ->
      let statusCode :=
        if String.eqb (status_code q) "" then None
        else Atoi (status_code q) in
      let pagination := ParsePaginationParams (page q) (limit q) in
      (license_key q <> "" ->
       log_calls R
       = [GetLicenseCheckLogsByLicenseKey (license_key q) statusCode
            pagination])
      /\ (license_key q = "" -> product_id q <> "" ->
          log_calls R
          = [GetLicenseCheckLogsByProductID (product_id q) statusCode
               pagination])
      /\ (license_key q = "" -> product_id q = "" ->
          product_group_id q <> "" ->
          log_calls R
          = [GetLicenseCheckLogsByProductGroupID (product_group_id q)
               statusCode pagination])
      /\ forall call, log_calls R = [call] ->
           log_response R
           = match checkLogs call with
             | Ok (logs, totalCount) =>
                 LogPage 200 (paginated logs totalCount pagination)
             | Err _ => LogError 500 "Failed to fetch license check logs"
             end).
Proof.
  cbv zeta. unfold GetLicenseCheckLogsHandler.
  split; [|split; [|split; [|split]]].
  - destruct (String.eqb (status_code q) ""); cbn [negb];
      [|destruct (Atoi (status_code q)); [|cbn; lia]];
      destruct (String.eqb (license_key q) ""); cbn [negb];
      try (rewrite fetch_one_call; cbn; lia);
      destruct (String.eqb (product_id q) ""); cbn [negb];
      try (rewrite fetch_one_call; cbn; lia);
      destruct (String.eqb (product_group_id q) ""); cbn [negb];
      try (rewrite fetch_one_call; cbn; lia); cbn; lia.
  - intros [Hne Hat].
    destruct (String.eqb_spec (status_code q) "") as [|_]; [contradiction|].
    cbn [negb]. now rewrite Hat.
  - intros (-> & -> & ->).
    destruct (String.eqb (status_code q) ""); cbn [negb];
      [|destruct (Atoi (status_code q))]; eexists; split; reflexivity.
  - intros Hkey q' Hk Hs Hp Hl. rewrite Hk, Hs, Hp, Hl.
    destruct (String.eqb (status_code q) ""); cbn [negb];
      [|destruct (Atoi (status_code q)); [|reflexivity]];
      destruct (String.eqb_spec (license_key q) "") as [|_];
      try contradiction; reflexivity.
  - intros Hstatus.
    set (statusCode := if String.eqb (status_code q) "" then None
                       else Atoi (status_code q)).
    set (pagination := ParsePaginationParams (page q) (limit q)).
    assert (Hparsed :
              (if negb (String.eqb (status_code q) "")
               then match Atoi (status_code q) with
                    | None => Err "Invalid status_code parameter"
                    | Some code => Ok (Some code)
                    end
               else Ok None) = Ok statusCode).
    { subst statusCode.
      destruct (String.eqb_spec (status_code q) "") as [He|Hne];
        [reflexivity|]. cbn [negb].
      destruct Hstatus as [He|Hat]; [contradiction|].
      destruct (Atoi (status_code q)); [reflexivity | contradiction]. }
    rewrite Hparsed.
    assert (Hfetch : forall call failure,
              log_calls (fetch checkLogs call pagination failure) = [call]
              /\ forall call', [call] = [call'] ->
                   log_response (fetch checkLogs call pagination failure)
                   = match checkLogs call' with
                     | Ok (logs, totalCount) =>
                         LogPage 200 (paginated logs totalCount pagination)
                     | Err _ => LogError 500 failure
                     end).
    { intros call failure. split; [apply fetch_one_call|].
      intros call' Heq. injection Heq as <-. unfold fetch.
      destruct (checkLogs call) as [[logs totalCount]|e]; reflexivity. }
    destruct (String.eqb_spec (license_key q) "") as [Hk|Hk]; cbn [negb].
    + destruct (String.eqb_spec (product_id q) "") as [Hp|Hp]; cbn [negb].
      * destruct (String.eqb_spec (product_group_id q) "") as [Hg|Hg];
          cbn [negb].
        -- repeat split; try contradiction. intros call Hcall.
           discriminate Hcall.
        -- split; [contradiction|]. split; [contradiction|].
           split; [intros; apply Hfetch|].
           intros call Hcall. rewrite (proj1 (Hfetch _ _)) in Hcall.
           now apply Hfetch.
      * split; [contradiction|]. split; [intros; apply Hfetch|].
        split; [contradiction|].
        intros call Hcall. rewrite (proj1 (Hfetch _ _)) in Hcall.
        now apply Hfetch.
    + split; [intros; apply Hfetch|]. split; [contradiction|].
      split; [contradiction|].
      intros call Hcall. rewrite (proj1 (Hfetch _ _)) in Hcall.
      now apply Hfetch.
Qed.

End LogFacts.

End LogMore.

(** ** Revoke, purge, update *)

Module AdminMore.
Import Utils Models Signer Handlers Pagination LicenseAdmin CheckSpec
  DurationSpec DurationProofs CheckProofs.

(** A revoked license is reported as revoked, whatever else it holds. *)
Lemma withStatus_revoked_verdict `{GoLib} `{SignLib} `{NetLib}
  (licenseStore : string -> result License.t) (pk : string) (now : Time)
  (c : CheckRequest) (license : License.t) :
  XLicenseKey c <> "" ->
  licenseStore (XLicenseKey c)
  = Ok (withStatus license LicenseStatusRevoked) ->
  verdict (response (CheckLicenseHandler licenseStore pk now c))
  = invalid_because "License is revoked".
Proof.
  intros Hkey Hget.
  destruct (CheckLicenseHandler_found licenseStore pk now c _ Hkey Hget)
    as (_ & Hv & _).
  rewrite Hv.
  now rewrite (validate_short_circuit_status _ _ _ _ _ "License is revoked").
Qed.

Section RevokeFacts.
Context `{GoLib} `{SignLib} `{NetLib}.

(** X9: revoking a stored license answers 200 after exactly one lookup, one
    update and one audit entry; the update carries the stored license with
    the status [revoked] and nothing else changed; and a check that reads
    the updated license answers "License is revoked", whatever the expiry,
    the caller's address and the constraints. *)
Theorem RevokeLicenseHandler_revokes (licenseStore : LicenseStore)
  (key : string) (license : License.t) :
  key <> "" ->
  getLicenseByKey licenseStore key = SOk license ->
  updateLicense licenseStore (withStatus license LicenseStatusRevoked)
  = SOk tt ->
  let revoked := withStatus license LicenseStatusRevoked in
  let R := RevokeLicenseHandler licenseStore key in
  admin_response R
  = {| AdminCode := StatusOK; AdminBodyOf := jsonMessage "License revoked" |}
  /\ admin_calls R
     = [CallGet key; CallUpdate revoked;
        CallAdminLog "REVOKE_LICENSE" (License.ID license)
          (License.OwnerID license)]
  /\ forall (checkStore : string -> result License.t) (pk : string)
            (now : Time) (c : CheckRequest),
       XLicenseKey c = key ->
       checkStore key = Ok revoked ->
       verdict (response (CheckLicenseHandler checkStore pk now c))
       = invalid_because "License is revoked".
Proof.
  intros Hkey Hget Hupd revoked R. subst R revoked.
  unfold RevokeLicenseHandler, requireLicenseKey. cbn [withKey XLicenseKey].
  destruct (String.eqb_spec key "") as [|_]; [contradiction|].
  rewrite Hget. cbv zeta. rewrite Hupd.
  repeat split. intros checkStore pk now c Hc Hstore.
  apply withStatus_revoked_verdict with (license := license);
    rewrite Hc; assumption.
Qed.

End RevokeFacts.

(** X10: whatever the store answers, revoking writes at most one license,
    and that license is the one stored under the key with its status set to
    [revoked]; a key that does not resolve is never written. *)
Theorem RevokeLicenseHandler_only_status (licenseStore : LicenseStore)
  (key : string) (written : License.t) :
  In (CallUpdate written) (admin_calls (RevokeLicenseHandler licenseStore key)) ->
  exists stored : License.t,
    getLicenseByKey licenseStore key = SOk stored
    /\ written = withStatus stored LicenseStatusRevoked
    /\ License.Key written = License.Key stored
    /\ License.ExpiresAt written = License.ExpiresAt stored
    /\ License.AllowedIPs written = License.AllowedIPs stored.
Proof.
  unfold RevokeLicenseHandler, requireLicenseKey. cbn [withKey XLicenseKey].
  destruct (String.eqb key ""); [intros []|].
  destruct (getLicenseByKey licenseStore key) as [stored|[|msg]];
    try (cbn; intros [Heq|[]]; discriminate Heq).
  destruct (updateLicense licenseStore _) as [u|e]; cbn;
    intros [Heq|[Heq|Hrest]]; try discriminate Heq;
    try (destruct Hrest as [Heq|[]]; discriminate Heq);
    try (injection Heq as <-; exists stored; repeat split).
  destruct Hrest.
Qed.

(** X13: purging looks the license up first: the deletion is asked for
    only when the key is given and resolves, and the answer is 200 exactly
    when both the lookup and the deletion succeed. *)
Theorem DeleteLicenseHandler_lookup_first (licenseStore : LicenseStore)
  (key : string) :
  let R := DeleteLicenseHandler licenseStore key in
  (forall k, In (CallDelete k) (admin_calls R) ->
             k = key /\ key <> ""
             /\ exists stored, getLicenseByKey licenseStore key = SOk stored)
  /\ (AdminCode (admin_response R) = StatusOK
      <-> key <> ""
          /\ (exists stored, getLicenseByKey licenseStore key = SOk stored)
          /\ deleteLicense licenseStore key = SOk tt).
Proof.
  cbv zeta. unfold DeleteLicenseHandler, requireLicenseKey.
  cbn [withKey XLicenseKey].
  destruct (String.eqb_spec key "") as [->|Hne].
  - cbn. split; [intros k []|]. split; [discriminate|]. intros [Hk _].
    contradiction.
  - destruct (getLicenseByKey licenseStore key) as [stored|[|msg]].
    + destruct (deleteLicense licenseStore key) as [[]|[|msg]]; cbn; split;
        try (intros k [Heq|[Heq|Hrest]]; try discriminate Heq;
             [injection Heq as <-; repeat split; eauto
             | try destruct Hrest as [Heq|[]]; try discriminate Heq;
               try destruct Hrest]);
        (split; [try discriminate; intros _; repeat split; eauto
                | try reflexivity; intros (_ & _ & Hd); discriminate Hd]).
    + cbn. split; [intros k [Heq|[]]; discriminate Heq|].
      split; [discriminate | intros (_ & [s Hs] & _); discriminate Hs].
    + cbn. split; [intros k [Heq|[]]; discriminate Heq|].
      split; [discriminate | intros (_ & [s Hs] & _); discriminate Hs].
Qed.

Section UpdateFacts.
Context `{GoLib}.

(** X11: whatever the request, an update writes at most the license stored
    under the key, with the same identifier, key, owner, product and
    creation time, stamped with the time of the request; and a license that
    has an expiry keeps one: no update makes a timed license perpetual. *)
Theorem UpdateLicenseHandler_preserves (licenseStore : LicenseStore)
  (now : Time) (key : string) (bound : result updateLicenseRequest.t)
  (written : License.t) :
  In (CallUpdate written)
     (admin_calls (UpdateLicenseHandler licenseStore now key bound)) ->
  exists stored : License.t,
    getLicenseByKey licenseStore key = SOk stored
    /\ License.ID written = License.ID stored
    /\ License.Key written = License.Key stored
    /\ License.OwnerID written = License.OwnerID stored
    /\ License.ProductID written = License.ProductID stored
    /\ License.CreatedAt written = License.CreatedAt stored
    /\ License.UpdatedAt written = now
    /\ (License.ExpiresAt stored <> None -> License.ExpiresAt written <> None).
Proof.
  unfold UpdateLicenseHandler, requireLicenseKey. cbn [withKey XLicenseKey].
  destruct (String.eqb key ""); [intros []|].
  destruct bound as [req|e]; [|intros []].
  destruct (getLicenseByKey licenseStore key) as [stored|e];
    [|cbn; intros [Heq|[]]; discriminate Heq].
  set (resolved := match updateLicenseRequest.ExpiresAt req with
                   | Some t => Ok (Some t)
                   | None => _
                   end).
  assert (Hres : forall expiresAt, resolved = Ok expiresAt ->
                 License.ExpiresAt stored <> None -> expiresAt <> None).
  { subst resolved. intros expiresAt.
    destruct (updateLicenseRequest.ExpiresAt req) as [t|].
    - intros Heq _. injection Heq as <-. discriminate.
    - destruct (negb _).
      + destruct (ParseExpirationDuration now _); [|discriminate].
        intros Heq _. injection Heq as <-. discriminate.
      + intros Heq. injection Heq as <-. tauto. }
  destruct resolved as [expiresAt|e];
    [|cbn; intros [Heq|[]]; discriminate Heq].
  specialize (Hres expiresAt eq_refl).
  destruct (updateLicense licenseStore _) as [u|e]; cbn;
    intros [Heq|[Heq|Hrest]]; try discriminate Heq;
    try (destruct Hrest as [Heq|[]]; discriminate Heq);
    try (injection Heq as <-; exists stored; repeat split; exact Hres).
  destruct Hrest.
Qed.

(** X12: in an update, an explicit [expires_at] wins: the duration is not
    even read, so a request with both, or with a malformed duration beside
    an [expires_at], is accepted (the generate handler refuses both).
    Without [expires_at], a malformed duration is answered 400 and nothing
    is written. *)
Theorem UpdateLicenseHandler_expiry (licenseStore : LicenseStore)
  (now : Time) (key : string) (req : updateLicenseRequest.t)
  (stored : License.t) :
  key <> "" ->
  getLicenseByKey licenseStore key = SOk stored ->
  let R := UpdateLicenseHandler licenseStore now key (Ok req) in
  (forall t : Time,
      updateLicenseRequest.ExpiresAt req = Some t ->
      updateLicense licenseStore (applyUpdate req stored (Some t) now)
      = SOk tt ->
      AdminCode (admin_response R) = StatusOK
      /\ exists written,
           AdminBodyOf (admin_response R) = BodyOne written
           /\ License.ExpiresAt written = Some t)
  /\ (updateLicenseRequest.ExpiresAt req = None ->
      updateLicenseRequest.Duration req <> "" ->
      ~ spec_duration_form (updateLicenseRequest.Duration req) ->
      AdminCode (admin_response R) = StatusBadRequest
      /\ admin_calls R = [CallGet key]).
Proof.
  intros Hkey Hget R. subst R.
  unfold UpdateLicenseHandler, requireLicenseKey. cbn [withKey XLicenseKey].
  destruct (String.eqb_spec key "") as [|_]; [contradiction|].
  rewrite Hget. split.
  - intros t Ht Hupd. rewrite Ht. cbv iota beta. rewrite Hupd. cbn.
    split; [reflexivity|]. eexists. split; reflexivity.
  - intros Hexp Hdur Hform. rewrite Hexp.
    destruct (String.eqb_spec (updateLicenseRequest.Duration req) "")
      as [|_]; [contradiction|].
    cbn [negb].
    destruct (ParseExpirationDuration now _) as [exp|e] eqn:Hp.
    + exfalso. apply Hform. eapply ParseExpirationDuration_form; eassumption.
    + split; reflexivity.
Qed.

End UpdateFacts.

Import Examples AdminExamples.

(** Revoking the example license, and checking it afterwards. *)
Lemma RevokeLicenseHandler_revokes_witness :
  admin_calls (RevokeLicenseHandler (oneLicense timedLicense) "TEST-KEY")
  = [CallGet "TEST-KEY";
     CallUpdate (withStatus timedLicense LicenseStatusRevoked);
     CallAdminLog "REVOKE_LICENSE" "l1" None]
  /\ verdict (response
                (CheckLicenseHandler
                   (fun _ => Ok (withStatus timedLicense LicenseStatusRevoked))
                   "" 10%Z (exampleCheck "TEST-KEY" "10.0.0.1" "" "")))
     = invalid_because "License is revoked".
Proof.
  destruct (RevokeLicenseHandler_revokes (oneLicense timedLicense) "TEST-KEY"
              timedLicense ltac:(discriminate) eq_refl eq_refl)
    as (_ & Hcalls & Hcheck).
  split; [exact Hcalls|].
  apply (Hcheck (fun _ => Ok (withStatus timedLicense LicenseStatusRevoked))
           "" 10%Z (exampleCheck "TEST-KEY" "10.0.0.1" "" "") eq_refl eq_refl).
Defined.

Lemma RevokeLicenseHandler_only_status_witness :
  exists stored : License.t,
    getLicenseByKey (oneLicense timedLicense) "TEST-KEY" = SOk stored
    /\ withStatus timedLicense LicenseStatusRevoked
       = withStatus stored LicenseStatusRevoked
    /\ License.Key (withStatus timedLicense LicenseStatusRevoked)
       = License.Key stored
    /\ License.ExpiresAt (withStatus timedLicense LicenseStatusRevoked)
       = License.ExpiresAt stored
    /\ License.AllowedIPs (withStatus timedLicense LicenseStatusRevoked)
       = License.AllowedIPs stored.
Proof.
  apply (RevokeLicenseHandler_only_status (oneLicense timedLicense) "TEST-KEY"
           (withStatus timedLicense LicenseStatusRevoked)).
  right. left. reflexivity.
Defined.

(** An update of the example license that only names an owner. *)
Lemma UpdateLicenseHandler_preserves_witness :
  exists stored : License.t,
    getLicenseByKey (oneLicense timedLicense) "TEST-KEY" = SOk stored
    /\ License.ID (applyUpdate (durationUpdate None "") timedLicense
                     (Some 50%Z) 7%Z) = License.ID stored
    /\ License.Key (applyUpdate (durationUpdate None "") timedLicense
                      (Some 50%Z) 7%Z) = License.Key stored
    /\ License.OwnerID (applyUpdate (durationUpdate None "") timedLicense
                          (Some 50%Z) 7%Z) = License.OwnerID stored
    /\ License.ProductID (applyUpdate (durationUpdate None "") timedLicense
                            (Some 50%Z) 7%Z) = License.ProductID stored
    /\ License.CreatedAt (applyUpdate (durationUpdate None "") timedLicense
                            (Some 50%Z) 7%Z) = License.CreatedAt stored
    /\ License.UpdatedAt (applyUpdate (durationUpdate None "") timedLicense
                            (Some 50%Z) 7%Z) = 7%Z
    /\ (License.ExpiresAt stored <> None ->
        License.ExpiresAt (applyUpdate (durationUpdate None "") timedLicense
                             (Some 50%Z) 7%Z) <> None).
Proof.
  apply (UpdateLicenseHandler_preserves (oneLicense timedLicense) 7%Z
           "TEST-KEY" (Ok (durationUpdate None ""))).
  right. left. reflexivity.
Defined.

(** An update with an expiry and the malformed duration "5x" is accepted;
    the duration "5x" alone is refused. *)
Lemma UpdateLicenseHandler_expiry_witness :
  AdminCode (admin_response
               (UpdateLicenseHandler (oneLicense timedLicense) 7%Z "TEST-KEY"
                  (Ok (durationUpdate (Some 99%Z) "5x")))) = StatusOK
  /\ admin_calls (UpdateLicenseHandler (oneLicense timedLicense) 7%Z
                    "TEST-KEY" (Ok (durationUpdate None "5x")))
     = [CallGet "TEST-KEY"].
Proof.
  split.
  - destruct (UpdateLicenseHandler_expiry (oneLicense timedLicense) 7%Z
                "TEST-KEY" (durationUpdate (Some 99%Z) "5x") timedLicense
                ltac:(discriminate) eq_refl) as [Hset _].
    destruct (Hset 99%Z eq_refl eq_refl) as [Hcode _]. exact Hcode.
  - destruct (UpdateLicenseHandler_expiry (oneLicense timedLicense) 7%Z
                "TEST-KEY" (durationUpdate None "5x") timedLicense
                ltac:(discriminate) eq_refl) as [_ Hbad].
    destruct (Hbad eq_refl ltac:(discriminate) not_duration_form_5x)
      as [_ Hcalls].
    exact Hcalls.
Defined.

End AdminMore.

(** ** The check: addresses and the audit entry *)

Module CheckMore.
Import Utils Models Signer Handlers CheckSpec AddressSpec CheckProofs.

Section AddressFacts.
Context {golib : GoLib} {signlib : SignLib} {netlib : NetLib}.

(** The loop over [AllowedIPs] finds an entry exactly when one names the
    address. *)
Lemma allowedIPs_loop_listed (clientIP : IP) (l : list string) :
  allowedIPs_loop clientIP l = true
  <-> exists entry, In entry l /\ listed_address clientIP entry.
Proof.
  induction l as [|e l IH]; cbn [allowedIPs_loop].
  - split; [discriminate | intros (entry & [] & _)].
  - unfold listed_address in *.
    destruct (ParseIP e) as [a|] eqn:Hip.
    + destruct (IP_Equal a clientIP) eqn:Heq.
      * split; [intros _|reflexivity]. exists e. split; [now left|].
        left. eauto.
      * rewrite IH. split.
        -- intros (entry & Hin & Hl). exists entry. split; [now right|exact Hl].
        -- intros (entry & [<-|Hin] & Hl); [|eauto].
           destruct Hl as [(a' & Ha & Ht)|(Hn & _)]; congruence.
    + destruct (ParseCIDR e) as [[a subnet]|] eqn:Hc.
      * destruct (IP_Equal a clientIP) eqn:Heq.
        -- split; [intros _|reflexivity]. exists e. split; [now left|].
           right. eauto.
        -- rewrite IH. split.
           ++ intros (entry & Hin & Hl). exists entry.
              split; [now right|exact Hl].
           ++ intros (entry & [<-|Hin] & Hl); [|eauto].
              destruct Hl as [(a' & Ha & _)|(_ & a' & s' & Hc' & Ht)];
                congruence.
      * rewrite IH. split.
        -- intros (entry & Hin & Hl). exists entry. split; [now right|exact Hl].
        -- intros (entry & [<-|Hin] & Hl); [|eauto].
           destruct Hl as [(a' & Ha & _)|(_ & a' & s' & Hc' & _)]; congruence.
Qed.

(** The loop over [AllowedNetworks] finds an entry exactly when one holds
    the address. *)
Lemma allowedNetworks_loop_listed (clientIP : IP) (l : list string) :
  allowedNetworks_loop clientIP l = true
  <-> exists entry, In entry l /\ listed_network clientIP entry.
Proof.
  induction l as [|e l IH]; cbn [allowedNetworks_loop].
  - split; [discriminate | intros (entry & [] & _)].
  - unfold listed_network in *.
    destruct (ParseCIDR e) as [[a subnet]|] eqn:Hc.
    + destruct (IPNet_Contains subnet clientIP) eqn:Heq.
      * split; [intros _|reflexivity]. exists e. split; [now left|eauto].
      * rewrite IH. split.
        -- intros (entry & Hin & Hl). exists entry. split; [now right|exact Hl].
        -- intros (entry & [<-|Hin] & Hl); [|eauto].
           destruct Hl as (a' & s' & Hc' & Ht). congruence.
    + rewrite IH. split.
      * intros (entry & Hin & Hl). exists entry. split; [now right|exact Hl].
      * intros (entry & [<-|Hin] & Hl); [|eauto].
        destruct Hl as (a' & s' & Hc' & _). congruence.
Qed.

(** The IP rule on a license that restricts addresses, for a caller whose
    address parses. *)
Lemma checkIP_admitted (license : License.t) (ip : string) (clientIP : IP) :
  restricts license ->
  ParseIP ip = Some clientIP ->
  (admitted license clientIP -> checkIP license ip (true, "") = (true, ""))
  /\ (~ admitted license clientIP ->
      checkIP license ip (true, "") = (false, "IP address not allowed")).
Proof.
  intros Hres Hip. unfold checkIP, admitted. rewrite Hip.
  rewrite <- allowedIPs_loop_listed, <- allowedNetworks_loop_listed.
  assert (Hlists : ((0 <? length (License.AllowedIPs license))%nat
                    || (0 <? length (License.AllowedNetworks license))%nat)
                   = true).
  { destruct Hres as [Hne|Hne];
      [destruct (License.AllowedIPs license) as [|x l]
      |destruct (License.AllowedNetworks license) as [|x l]];
      try contradiction; cbn; [reflexivity | apply orb_true_r]. }
  cbn [andb]. rewrite Hlists.
  destruct (License.AllowedIPs license) as [|x l] eqn:Hl;
    destruct (License.AllowedNetworks license) as [|y l'] eqn:Hl';
    cbn [length Nat.ltb Nat.leb negb andb];
    try discriminate Hlists.
  - destruct (allowedNetworks_loop clientIP (y :: l')); cbn [negb]; split;
      intros Ha; try reflexivity.
    + exfalso. apply Ha. now right.
    + destruct Ha as [Ha|Ha]; discriminate Ha.
  - change (allowedIPs_loop clientIP []) with false.
    destruct (allowedIPs_loop clientIP (x :: l)); cbn [negb andb]; split;
      intros Ha; try reflexivity.
    + exfalso. apply Ha. now left.
    + destruct Ha as [Ha|Ha]; discriminate Ha.
  - destruct (allowedIPs_loop clientIP (x :: l)); cbn [negb andb].
    + split; [reflexivity|]. intros Ha. exfalso. apply Ha. now left.
    + destruct (allowedNetworks_loop clientIP (y :: l')); cbn [negb]; split;
        intros Ha; try reflexivity.
      * exfalso. apply Ha. now right.
      * destruct Ha as [Ha|Ha]; discriminate Ha.
Qed.

(** The later rules never report the reason of the IP rule. *)
Lemma later_rules_reason (license : License.t) (version feature : string) :
  snd (checkFeature license feature
         (checkVersion license version (true, "")))
  <> "IP address not allowed".
Proof.
  unfold checkVersion.
  destruct (negb (String.eqb version "") && true).
  - destruct (negb _).
    + rewrite checkFeature_invalid. cbn [snd]. discriminate.
    + unfold checkFeature. destruct (_ && _); [|discriminate].
      destruct (negb _); cbn [snd]; discriminate.
  - unfold checkFeature. destruct (_ && _); [|discriminate].
    destruct (negb _); cbn [snd]; discriminate.
Qed.

(** X14: which addresses a license admits.  For a license that lists
    addresses or networks, is not revoked and not expired, and a caller whose
    address parses, the check answers "IP address not allowed" exactly when
    no entry of [AllowedIPs] names the address and no entry of
    [AllowedNetworks] holds it.  An entry of [AllowedIPs] written as a CIDR
    names only the address written in it, not its network; entries that do
    not parse are skipped.  An admitted caller that asks for no version and
    no feature is answered valid. *)
Theorem check_address_admission
  (licenseStore : string -> result License.t) (pk : string) (now : Time)
  (c : CheckRequest) (license : License.t) (clientIP : IP) :
  XLicenseKey c <> "" ->
  licenseStore (XLicenseKey c) = Ok license ->
  fst (checkStatusExpiry license now) = true ->
  restricts license ->
  ParseIP (ClientIP c) = Some clientIP ->
  let R := CheckLicenseHandler licenseStore pk now c in
  (verdict (response R) = invalid_because "IP address not allowed"
   <-> ~ admitted license clientIP)
  /\ (admitted license clientIP ->
      QueryVersion c = "" -> QueryFeature c = "" ->
      verdict (response R) = valid_verdict).
Proof.
  intros Hkey Hget Hpre Hres Hip R.
  destruct (CheckLicenseHandler_found licenseStore pk now c license Hkey Hget)
    as (_ & Hv & _). fold R in Hv. rewrite Hv. clear Hv.
  pose proof (checkStatusExpiry_reason license now) as Hr.
  pose proof (validate_reason license now (ClientIP c) (QueryVersion c)
                (QueryFeature c)) as Hvr.
  unfold validate in *.
  destruct (checkStatusExpiry license now) as [valid reason].
  cbn [fst] in Hpre. subst valid. subst reason.
  destruct (checkIP_admitted license (ClientIP c) clientIP Hres Hip)
    as [Hyes Hno].
  split; [split|].
  - intros Hverdict Hadm. rewrite (Hyes Hadm) in Hverdict, Hvr.
    pose proof (later_rules_reason license (QueryVersion c) (QueryFeature c))
      as Hlater.
    destruct (checkFeature license (QueryFeature c) _) as [[|] r];
      cbn [fst snd] in *; [discriminate Hverdict|].
    injection Hverdict as Hreason. contradiction.
  - intros Hadm. rewrite (Hno Hadm).
    now rewrite checkVersion_invalid, checkFeature_invalid.
  - intros Hadm Hver Hfeat. rewrite (Hyes Hadm), Hver, Hfeat. reflexivity.
Qed.

(** X15: a license without [AllowedIPs] and [AllowedNetworks] does not look
    at the caller's address: the verdict is the same from every address,
    also one that does not parse.  On a license that lists addresses or
    networks and is neither revoked nor expired, a caller whose address does
    not parse is refused with "Unable to determine client IP for
    validation", whatever the lists hold. *)
Theorem check_address_only_when_restricted
  (licenseStore : string -> result License.t) (pk : string) (now : Time)
  (c : CheckRequest) (license : License.t) :
  XLicenseKey c <> "" ->
  licenseStore (XLicenseKey c) = Ok license ->
  let R := CheckLicenseHandler licenseStore pk now c in
  (License.AllowedIPs license = [] -> License.AllowedNetworks license = [] ->
   forall c' : CheckRequest,
     XLicenseKey c' = XLicenseKey c ->
     QueryVersion c' = QueryVersion c ->
     QueryFeature c' = QueryFeature c ->
     verdict (response (CheckLicenseHandler licenseStore pk now c'))
     = verdict (response R))
  /\ (restricts license ->
      fst (checkStatusExpiry license now) = true ->
      ParseIP (ClientIP c) = None ->
      verdict (response R)
      = invalid_because "Unable to determine client IP for validation").
Proof.
  intros Hkey Hget R.
  destruct (CheckLicenseHandler_found licenseStore pk now c license Hkey Hget)
    as (_ & Hv & _). fold R in Hv. rewrite Hv. clear Hv. split.
  - intros Hips Hnets c' Hk Hver Hfeat.
    assert (Hkey' : XLicenseKey c' <> "") by now rewrite Hk.
    assert (Hget' : licenseStore (XLicenseKey c') = Ok license)
      by now rewrite Hk.
    destruct (CheckLicenseHandler_found licenseStore pk now c' license
                Hkey' Hget') as (_ & Hv' & _).
    rewrite Hv', Hver, Hfeat.
    assert (Hsame : forall ip st, checkIP license ip st = st).
    { intros ip [valid reason]. unfold checkIP. rewrite Hips, Hnets.
      cbn. now rewrite andb_false_r. }
    unfold validate. now rewrite !Hsame.
  - intros Hres Hpre Hip.
    rewrite (validate_short_circuit_ip license now (ClientIP c) _ _
               "Unable to determine client IP for validation");
      [reflexivity|].
    pose proof (checkStatusExpiry_reason license now) as Hr.
    destruct (checkStatusExpiry license now) as [valid reason].
    cbn [fst] in Hpre. subst valid. unfold checkIP. rewrite Hip.
    destruct Hres as [Hne|Hne];
      [destruct (License.AllowedIPs license) as [|x l]
      |destruct (License.AllowedNetworks license) as [|x l]];
      try contradiction; cbn; [reflexivity|].
    now rewrite orb_true_r.
Qed.

(** X16: the audit entry of a check.  When the key is given, the entry
    carries the status and the whole body of the response, the token
    included; the refusal of a request without key is logged with status 0
    and an empty payload, not with its 400.  The entry is flagged valid
    exactly when the response says [valid: true], and its reason is the
    reason of the response. *)
Theorem check_log_matches_response
  (licenseStore : string -> result License.t) (pk : string) (now : Time)
  (c : CheckRequest) :
  let R := CheckLicenseHandler licenseStore pk now c in
  LicenseCheckLog.LicenseKey (logEntry R) = XLicenseKey c
  /\ LicenseCheckLog.IPAddress (logEntry R) = ClientIP c
  /\ (XLicenseKey c <> "" ->
      LicenseCheckLog.StatusCode (logEntry R) = Code (response R)
      /\ Body (response R) = BodyH (LicenseCheckLog.ResponsePayload (logEntry R)))
  /\ (XLicenseKey c = "" ->
      Code (response R) = StatusBadRequest
      /\ LicenseCheckLog.StatusCode (logEntry R) = 0%Z
      /\ LicenseCheckLog.ResponsePayload (logEntry R) = ∅)
  /\ (logValid R = true <-> body_field (response R) "valid" = Some (JBool true))
  /\ (forall reason, verdict (response R) = invalid_because reason ->
                     logValid R = false /\ logReason R = reason)
  /\ (body_field (response R) "reason" = None -> logReason R = "").
Proof.
  cbv zeta. unfold CheckLicenseHandler, requireLicenseKey.
  destruct (String.eqb_spec (XLicenseKey c) "") as [Hk|Hk].
  - cbn. repeat split; intros; try reflexivity; try discriminate;
      congruence.
  - destruct (licenseStore (XLicenseKey c)) as [license|e].
    + pose proof (validate_reason license now (ClientIP c) (QueryVersion c)
                    (QueryFeature c)) as Hreason.
      destruct (validate license now (ClientIP c) (QueryVersion c)
                  (QueryFeature c)) as [valid reason].
      assert (Hr : String.eqb reason "" = valid).
      { destruct valid; [now subst | now apply String.eqb_neq]. }
      rewrite Hr. unfold verdict, invalid_because, body_field.
      destruct (String.eqb pk ""); cbn [negb];
        [|destruct (SignLicense pk (XLicenseKey c) (License.ExpiresAt license)
                      valid (License.Features license))];
        destruct valid; cbn; repeat split; intros;
        try reflexivity; try discriminate; try congruence;
        match goal with
        | Hx : (_, _) = (_, _) |- _ =>
            apply (f_equal snd) in Hx; cbn [snd] in Hx; rewrite Hx;
            reflexivity
        end.
    + cbn. repeat split; intros; try reflexivity; try discriminate;
        congruence.
Qed.

End AddressFacts.

Import Examples.

(** The license of the IP restriction test, asked from 10.0.0.1. *)
Lemma check_address_admission_witness :
  check_from restricted "10.0.0.1" = valid_verdict.
Proof.
  assert (Hadm : admitted restricted [10; 0; 0; 1]%Z).
  { left. exists "10.0.0.1". split; [now left|].
    left. exists [10; 0; 0; 1]%Z. split; reflexivity. }
  destruct (check_address_admission (netlib := ExampleNet)
              (fun _ => Ok restricted) "" 10%Z
              (exampleCheck "TEST-KEY" "10.0.0.1" "" "") restricted
              [10; 0; 0; 1]%Z ltac:(discriminate) eq_refl eq_refl
              ltac:(left; discriminate) eq_refl) as [_ Hvalid].
  exact (Hvalid Hadm eq_refl eq_refl).
Defined.

(** A license without lists, asked from an address that does not parse; and
    the license of the IP restriction test, asked from such an address. *)
Lemma check_address_only_when_restricted_witness :
  check_from (exampleLicense "active" None [] [] false 0 [] []) "10.0.0.1"
  = check_from (exampleLicense "active" None [] [] false 0 [] []) "nowhere"
  /\ check_from restricted "nowhere"
     = invalid_because "Unable to determine client IP for validation".
Proof.
  split.
  - destruct (check_address_only_when_restricted (netlib := ExampleNet)
                (fun _ => Ok (exampleLicense "active" None [] [] false 0 [] []))
                "" 10%Z (exampleCheck "TEST-KEY" "nowhere" "" "")
                (exampleLicense "active" None [] [] false 0 [] [])
                ltac:(discriminate) eq_refl) as [Hany _].
    exact (Hany eq_refl eq_refl (exampleCheck "TEST-KEY" "10.0.0.1" "" "")
             eq_refl eq_refl eq_refl).
  - destruct (check_address_only_when_restricted (netlib := ExampleNet)
                (fun _ => Ok restricted) "" 10%Z
                (exampleCheck "TEST-KEY" "nowhere" "" "") restricted
                ltac:(discriminate) eq_refl) as [_ Hbad].
    exact (Hbad ltac:(left; discriminate) eq_refl eq_refl).
Defined.

End CheckMore.

(** ** The generate handler *)

Module GenerateMore.
Import Generator Utils Models Handlers CharsetSpec KeySpec SettingsSpec
  GeneratorProofs SettingsProofs.

(** The resolved prefix is never empty and the resolved length is
    positive. *)
Lemma resolveSettings_prefix_length (req : generateLicenseRequest.t)
  (product : Product.t) (group : option ProductGroup.t) :
  prefix (resolveSettings req product group) <> ""
  /\ (0 < length_ (resolveSettings req product group))%Z.
Proof.
  unfold resolveSettings.
  destruct group as [g|]; cbn [prefix length_]; split;
    try (match goal with
         | |- (0 < (if (?x <=? 0)%Z then _ else _))%Z =>
             destruct (Z.leb_spec x 0); lia
         end);
    destruct (String.eqb_spec (generateLicenseRequest.Prefix req) "")
      as [_|Hreq]; cbn [negb]; try exact Hreq;
    match goal with
    | |- (if String.eqb ?p "" then _ else _) <> "" =>
        destruct (String.eqb_spec p "") as [_|Hp];
        [discriminate | exact Hp]
    end.
Qed.

Section GenerateFacts.
Context {golib : GoLib} {S : Type} {randSource : RandSource S}.

(** The key that the generator returns for resolved settings. *)
Lemma GenerateLicenseKey_resolved (settings : Settings) (charset : string)
  (src src' : S) (key : string) :
  prefix settings <> "" ->
  (0 < length_ settings)%Z ->
  GenerateLicenseKey (prefix settings) (length_ settings)
    (separator settings) charset src = (Returns (Ok key), src') ->
  exists random : string,
    key = prefix settings ++ effective_separator (separator settings)
          ++ random
    /\ len random = length_ settings.
Proof.
  intros Hp Hl. unfold GenerateLicenseKey, effective_separator.
  destruct (Z.leb_spec (length_ settings) 0) as [|_]; [lia|].
  set (cs := if String.eqb charset "" then defaultCharset else charset).
  assert (Hcs : (0 < len cs)%Z).
  { subst cs. destruct (String.eqb_spec charset "") as [->|Hne];
      [reflexivity|]. unfold len. destruct charset; [contradiction|].
    simpl. lia. }
  pose proof (fill_spec (Z.to_nat (length_ settings)) cs Hcs src "") as Hfill.
  destruct (fill (Z.to_nat (length_ settings)) cs src "") as [[[s|e]|] s1];
    try discriminate.
  destruct Hfill as (nums & rp & _ & Hs & Hlen & _).
  rewrite append_nil_l in Hs. subst s.
  destruct (String.eqb_spec (prefix settings) "") as [|_]; [contradiction|].
  cbn [negb]. intros Heq. injection Heq as <- _.
  exists rp. split; [reflexivity|]. unfold len. rewrite Hlen. lia.
Qed.

(** X17: the license behind a 201.  A generate request that is answered
    201 named an existing product; the license in the body is the one
    handed to [CreateLicense], which the store accepted; it is active,
    belongs to that product, carries the fresh identifier, the clock as
    creation and update time, and the lists and the owner of the request;
    its key is the resolved prefix, which is never empty, the separator in
    use, and as many random bytes as the resolved length. *)
Theorem GenerateLicenseHandler_created (fuel : nat) (stores : Stores)
  (newID : UUID) (now : Time) (src : S)
  (bound : result generateLicenseRequest.t) (R : GenerateResult) :
  GenerateLicenseHandler fuel stores newID now src bound = Some R ->
  Code (gen_response R) = StatusCreated ->
  exists (req : generateLicenseRequest.t) (product : Product.t)
         (license : License.t) (random : string),
    let group :=
      match Product.ProductGroupID product with
      | Some gid => match getProductGroup stores gid with
                    | Ok g => Some g
                    | Err _ => None
                    end
      | None => None
      end in
    let settings := resolveSettings req product group in
    bound = Ok req
    /\ getProduct stores (generateLicenseRequest.ProductID req) = Ok product
    /\ Body (gen_response R) = BodyLicense license
    /\ createLicense stores license = Ok tt
    /\ In (CreateLicense license) (gen_calls R)
    /\ License.Status license = LicenseStatusActive
    /\ License.ProductID license = Product.ID product
    /\ License.ID license = newID
    /\ License.CreatedAt license = now
    /\ License.UpdatedAt license = now
    /\ License.OwnerID license = generateLicenseRequest.OwnerID req
    /\ elems (License.Features license)
       = generateLicenseRequest.FeatureCodes req
    /\ (generateLicenseRequest.FeatureCodes req = [] ->
        License.Features license = NilStrings)
    /\ License.Releases license = generateLicenseRequest.ReleaseVersions req
    /\ License.AllowedIPs license = generateLicenseRequest.AllowedIPs req
    /\ License.AllowedNetworks license
       = generateLicenseRequest.AllowedNetworks req
    /\ prefix settings <> ""
    /\ (generateLicenseRequest.Prefix req <> "" ->
        prefix settings = generateLicenseRequest.Prefix req)
    /\ License.Key license
       = prefix settings ++ effective_separator (separator settings)
         ++ random
    /\ len random = length_ settings
    /\ (0 < length_ settings)%Z.
Proof.
  unfold GenerateLicenseHandler.
  destruct bound as [req|e]; [|intros Heq; injection Heq as <-; discriminate].
  destruct (_ && _); [intros Heq; injection Heq as <-; discriminate|].
  match goal with
  | |- match ?p with _ => _ end = _ -> _ => destruct p as [expiresAt|e]
  end; [|intros Heq; injection Heq as <-; discriminate].
  destruct (getProduct stores _) as [product|e] eqn:Hprod;
    [|intros Heq; injection Heq as <-; discriminate].
  set (group := match Product.ProductGroupID product with
                | Some gid => match getProductGroup stores gid with
                              | Ok g => Some g
                              | Err _ => None
                              end
                | None => None
                end).
  replace (match Product.ProductGroupID product with
           | Some gid => (_, [GetProductGroup gid])
           | None => (None, [])
           end)
    with (group, match Product.ProductGroupID product with
                 | Some gid => [GetProductGroup gid]
                 | None => []
                 end)
    by (subst group; now destruct (Product.ProductGroupID product)).
  set (settings := resolveSettings req product group).
  destruct (resolveSettings_prefix_length req product group) as [Hp Hl].
  fold settings in Hp, Hl.
  destruct (ParseCharset fuel (charsetRaw settings)) as [[cs|e]|];
    [|intros Heq; injection Heq as <-; discriminate|discriminate].
  destruct (GenerateLicenseKey _ _ _ cs src) as [[[key|e]|] src'] eqn:Hgen;
    [|intros Heq; injection Heq as <-; discriminate|discriminate].
  destruct (GenerateLicenseKey_resolved settings cs src src' key Hp Hl Hgen)
    as (random & Hkey & Hrandom).
  match goal with
  | |- match createLicense stores ?l with _ => _ end = _ -> _ =>
      set (license := l);
      destruct (createLicense stores license) as [[]|e] eqn:Hcreate
  end; [|intros Heq; injection Heq as <-; discriminate].
  intros Heq _. injection Heq as <-.
  exists req, product, license, random.
  cbn [gen_response gen_calls Body]. fold group settings.
  repeat split; try assumption; try reflexivity.
  - right. apply in_or_app. right. now left.
  - subst license. cbn [License.Features].
    now destruct (generateLicenseRequest.FeatureCodes req).
  - intros Hnil. subst license. cbn [License.Features].
    now rewrite Hnil.
  - intros Hreq. subst settings. unfold resolveSettings.
    destruct group as [g|]; cbn [prefix];
      destruct (String.eqb_spec (generateLicenseRequest.Prefix req) "");
      try contradiction; reflexivity.
Qed.

(** X18: what a generate request leaves in the stores.  [CreateLicense] is
    called at most once, as the last call on the license store, and only by
    a request answered 201 or 500; a request answered 400 has created
    nothing.  The audit entry is written only by a request answered 201,
    after the license was created, and names the new identifier. *)
Theorem GenerateLicenseHandler_calls (fuel : nat) (stores : Stores)
  (newID : UUID) (now : Time) (src : S)
  (bound : result generateLicenseRequest.t) (R : GenerateResult) :
  GenerateLicenseHandler fuel stores newID now src bound = Some R ->
  (forall license, In (CreateLicense license) (gen_calls R) ->
     License.ID license = newID
     /\ (Code (gen_response R) = StatusCreated
         /\ createLicense stores license = Ok tt
         \/ Code (gen_response R) = StatusInternalServerError
            /\ createLicense stores license <> Ok tt))
  /\ (forall action id, In (CreateAdminLog action id) (gen_calls R) ->
        Code (gen_response R) = StatusCreated
        /\ action = "GENERATE_LICENSE" /\ id = newID
        /\ exists license, In (CreateLicense license) (gen_calls R))
  /\ (Code (gen_response R) = StatusCreated ->
      exists license, In (CreateLicense license) (gen_calls R)
                      /\ In (CreateAdminLog "GENERATE_LICENSE" newID)
                           (gen_calls R)).
Proof.
  unfold GenerateLicenseHandler.
  assert (Hnone : forall (resp : Response) (calls : list StoreCall),
            Code resp <> StatusCreated ->
            (forall x, In x calls ->
               match x with
               | CreateLicense _ | CreateAdminLog _ _ => False
               | _ => True
               end) ->
            forall R,
              Some {| gen_response := resp; gen_calls := calls |} = Some R ->
              (forall license, In (CreateLicense license) (gen_calls R) ->
                 License.ID license = newID
                 /\ (Code (gen_response R) = StatusCreated
                     /\ createLicense stores license = Ok tt
                     \/ Code (gen_response R) = StatusInternalServerError
                        /\ createLicense stores license <> Ok tt))
              /\ (forall action id,
                    In (CreateAdminLog action id) (gen_calls R) ->
                    Code (gen_response R) = StatusCreated
                    /\ action = "GENERATE_LICENSE" /\ id = newID
                    /\ exists license, In (CreateLicense license) (gen_calls R))
              /\ (Code (gen_response R) = StatusCreated ->
                  exists license,
                    In (CreateLicense license) (gen_calls R)
                    /\ In (CreateAdminLog "GENERATE_LICENSE" newID)
                         (gen_calls R))).
  { intros resp calls Hcode Hcalls R' Heq. injection Heq as <-.
    cbn [gen_response gen_calls]. repeat split;
      try (intros; match goal with
                   | Hin : In _ calls |- _ => destruct (Hcalls _ Hin)
                   end).
    intros Hc. contradiction. }
  destruct bound as [req|e];
    [|apply Hnone; [discriminate | intros x []]].
  destruct (_ && _); [apply Hnone; [discriminate | intros x []]|].
  match goal with
  | |- match ?p with _ => _ end = _ -> _ => destruct p as [expiresAt|e]
  end; [|apply Hnone; [discriminate | intros x []]].
  destruct (getProduct stores _) as [product|e];
    [|apply Hnone; [discriminate | intros x [<-|[]]; exact I]].
  set (group := match Product.ProductGroupID product with
                | Some gid => _
                | None => _
                end).
  assert (Hgroup : forall x, In x (GetProduct (generateLicenseRequest.ProductID req)
                                     :: snd group) ->
                   match x with
                   | CreateLicense _ | CreateAdminLog _ _ => False
                   | _ => True
                   end).
  { subst group. destruct (Product.ProductGroupID product) as [gid|];
      cbn [snd]; intros x Hin.
    - destruct Hin as [<-|[<-|[]]]; exact I.
    - destruct Hin as [<-|[]]; exact I. }
  destruct group as [group groupCalls]. cbn [snd] in Hgroup.
  destruct (ParseCharset fuel _) as [[cs|e]|];
    [|apply Hnone; [discriminate | exact Hgroup]|discriminate].
  destruct (GenerateLicenseKey _ _ _ cs src) as [[[key|e]|] src'];
    [|apply Hnone; [discriminate | exact Hgroup]|discriminate].
  match goal with
  | |- match createLicense stores ?l with _ => _ end = _ -> _ =>
      set (license := l);
      destruct (createLicense stores license) as [[]|e] eqn:Hcreate
  end; intros Heq; injection Heq as <-; cbn [gen_response gen_calls Code];
    (split; [intros lic Hin | split; [intros action id Hin | intros Hcode]]);
    try (destruct Hin as [Hin|Hin]; [discriminate Hin|];
         apply in_app_or in Hin; destruct Hin as [Hin|Hin];
         [destruct (Hgroup _ (or_intror Hin))|]).
  - destruct Hin as [Heq|[Heq|[]]]; [injection Heq as <-|discriminate Heq].
    split; [reflexivity|]. left. split; [reflexivity | exact Hcreate].
  - destruct Hin as [Heq|[Heq|[]]]; [discriminate Heq|injection Heq as <- <-].
    repeat split. exists license. right. apply in_or_app. right. now left.
  - exists license. split; right; apply in_or_app; right; [now left|].
    right. now left.
  - destruct Hin as [Heq|[]]. injection Heq as <-.
    split; [reflexivity|]. right. split; [reflexivity|].
    rewrite Hcreate. discriminate.
  - destruct Hin as [Heq|[]]. discriminate Heq.
  - discriminate.
Qed.

End GenerateFacts.

Import Examples AdminExamples.

(** The generate request of the examples: the key is the product's prefix,
    the group's separator and three random bytes. *)
Lemma GenerateLicenseHandler_created_witness :
  exists random : string,
    License.Key generatedLicense = "ED" ++ "_" ++ random
    /\ len random = 3%Z.
Proof.
  destruct (GenerateLicenseHandler_created (randSource := TapeSource)
              300 exampleStores "id" 0%Z
              (draws_by_7 20) (Ok (exampleRequest None "" "" 3))
              generatedResult eq_refl eq_refl)
    as (req & product & license & random & Hb & Hp & Hbody & _ & _ & _ & _
        & _ & _ & _ & _ & _ & _ & _ & _ & _ & _ & _ & Hkey & Hlen & _).
  injection Hb as <-. vm_compute in Hp. injection Hp as <-.
  injection Hbody as <-. exists random. split; [exact Hkey | exact Hlen].
Defined.

Lemma GenerateLicenseHandler_calls_witness :
  Code (gen_response generatedResult) = StatusCreated
  /\ createLicense exampleStores generatedLicense = Ok tt
  \/ Code (gen_response generatedResult) = StatusInternalServerError
     /\ createLicense exampleStores generatedLicense <> Ok tt.
Proof.
  destruct (GenerateLicenseHandler_calls (randSource := TapeSource)
              300 exampleStores "id" 0%Z
              (draws_by_7 20) (Ok (exampleRequest None "" "" 3))
              generatedResult eq_refl) as [Hcreate _].
  apply (Hcreate generatedLicense). right. right. left. reflexivity.
Defined.

End GenerateMore.

(** ** Updating a product *)

Module ProductMore.
Import Models Handlers Products.

Lemma orKeep_not_empty (requested stored : string) :
  stored <> "" -> orKeep requested stored <> "".
Proof.
  unfold orKeep. destruct (String.eqb_spec requested ""); cbn [negb]; tauto.
Qed.

Section ProductFacts.
Context {uuidlib : UUIDLib}.

(** X19: an update of a product cannot clear a setting.  Whatever the
    request, the product handed to [UpdateProduct] is the stored one with
    the same identifier and owner; a stored name, prefix, separator,
    charset, type and duration that is not empty stays not empty; a positive
    length stays positive; and a product that belongs to a group still
    belongs to one.  A request whose [product_group_id] is not a UUID
    writes nothing. *)
Theorem UpdateProductHandler_never_clears (productStore : ProductStore)
  (id : string) (bound : result updateProductRequest.t)
  (written : Product.t) :
  In (CallUpdateProduct written)
     (product_calls (UpdateProductHandler productStore id bound)) ->
  exists (req : updateProductRequest.t) (stored : Product.t),
    bound = Ok req
    /\ getProductByID productStore id = Ok stored
    /\ Product.ID written = Product.ID stored
    /\ Product.OwnerID written = Product.OwnerID stored
    /\ (Product.Name stored <> "" -> Product.Name written <> "")
    /\ (Product.LicensePrefix stored <> "" ->
        Product.LicensePrefix written <> "")
    /\ (Product.LicenseSeparator stored <> "" ->
        Product.LicenseSeparator written <> "")
    /\ (Product.LicenseCharset stored <> "" ->
        Product.LicenseCharset written <> "")
    /\ (Product.LicenseType stored <> "" -> Product.LicenseType written <> "")
    /\ (Product.LicenseDuration stored <> "" ->
        Product.LicenseDuration written <> "")
    /\ ((0 < Product.LicenseLength stored)%Z ->
        (0 < Product.LicenseLength written)%Z)
    /\ (Product.ProductGroupID stored <> None ->
        Product.ProductGroupID written <> None)
    /\ (updateProductRequest.ProductGroupID req <> "" ->
        uuid_Parse (updateProductRequest.ProductGroupID req)
        = Product.ProductGroupID written).
Proof.
  unfold UpdateProductHandler.
  destruct bound as [req|e]; [|intros []].
  destruct (getProductByID productStore id) as [stored|e];
    [|cbn; intros [Heq|[]]; discriminate Heq].
  set (group := if negb (String.eqb (updateProductRequest.ProductGroupID req) "")
                then _ else _).
  assert (Hgroup : forall g, group = Ok g ->
            (Product.ProductGroupID stored <> None -> g <> None)
            /\ (updateProductRequest.ProductGroupID req <> "" ->
                uuid_Parse (updateProductRequest.ProductGroupID req) = g)).
  { subst group. intros g.
    destruct (String.eqb_spec (updateProductRequest.ProductGroupID req) "")
      as [He|Hne]; cbn [negb].
    - intros Heq. injection Heq as <-. split; [tauto|]. intros Hx.
      contradiction.
    - destruct (uuid_Parse _) as [groupID|]; [|discriminate].
      intros Heq. injection Heq as <-. split; [discriminate | reflexivity]. }
  destruct group as [g|e]; [|cbn; intros [Heq|[]]; discriminate Heq].
  destruct (Hgroup g eq_refl) as [Hkeep Hset].
  assert (Hmerge : forall p, p = mergeProduct req stored g ->
            In (CallUpdateProduct written) [CallUpdateProduct p] \/
            In (CallUpdateProduct written)
               [CallUpdateProduct p;
                CallProductLog "UPDATE_PRODUCT" (Product.ID p)
                  (Product.OwnerID p)] ->
            written = mergeProduct req stored g).
  { intros p -> [[Heq|[]]|[Heq|[Heq|[]]]]; try discriminate Heq;
      now injection Heq as <-. }
  intros Hin.
  assert (Hw : written = mergeProduct req stored g).
  { apply (Hmerge _ eq_refl).
    destruct (updateProduct productStore _); cbn in Hin;
      destruct Hin as [Heq|Hin]; try discriminate Heq; [right|left];
      exact Hin. }
  subst written. exists req, stored. cbn [mergeProduct Product.ID
    Product.OwnerID Product.Name Product.LicensePrefix
    Product.LicenseSeparator Product.LicenseCharset Product.LicenseType
    Product.LicenseDuration Product.LicenseLength Product.ProductGroupID].
  repeat split; try apply orKeep_not_empty; try assumption.
  destruct (Z.ltb_spec 0 (updateProductRequest.LicenseLength req)); lia.
Qed.

End ProductFacts.

Import Examples AdminExamples.

(** An update of the example product that names a prefix only. *)
Lemma UpdateProductHandler_never_clears_witness :
  exists (req : updateProductRequest.t) (stored : Product.t),
    Ok (prefixUpdate "NEW" "" 0) = Ok req
    /\ getProductByID oneProduct "p1" = Ok stored
    /\ Product.LicenseCharset
         (mergeProduct (prefixUpdate "NEW" "" 0) exampleProduct (Some "g1"))
       <> "".
Proof.
  destruct (UpdateProductHandler_never_clears (uuidlib := ExampleUUID)
              oneProduct "p1" (Ok (prefixUpdate "NEW" "" 0))
              (mergeProduct (prefixUpdate "NEW" "" 0) exampleProduct
                 (Some "g1")))
    as (req & stored & Hb & Hs & _ & _ & _ & _ & _ & Hcharset & _).
  - right. left. reflexivity.
  - exists req, stored. repeat split; [exact Hb | exact Hs |].
    apply Hcharset. vm_compute in Hs. injection Hs as <-. discriminate.
Defined.

End ProductMore.

(** ** The rate limiter: one bucket per request *)

Module LimiterMore.
Import Middleware LimiterSpec MiddlewareProofs.

Section LimiterFacts.
Context {ratelib : RateLib}.



End LimiterFacts.

End LimiterMore.

(** ** Signed responses *)

Module SigningMore.
Import Signer ResponseSigning.

Lemma writeAll_app (buffer : string) (l : list string) :
  writeAll buffer l = buffer ++ writeAll "" l.
Proof.
  revert buffer. induction l as [|x l IH]; intros buffer; cbn [writeAll].
  - now rewrite append_nil_r.
  - rewrite IH, (IH ("" ++ x)), append_nil_l. now rewrite append_assoc.
Qed.

Section SigningFacts.
Context {signlib : SignLib} {siglib : SigLib}.

(** X21: with a private key of the right size, the header map of the
    response holds the timestamp and a signature that the matching public
    key accepts for "timestamp.body", where the body is what the rest of
    the chain wrote for this request; the body that reaches the client and
    the other headers are what the rest of the chain produced. *)
Theorem ResponseSigningMiddleware_verifies (privateKeyBase64 : string)
  (now : Time) (next : Downstream) (reply : Reply)
  (privateKey publicKey : string) :
  privateKeyBase64 <> "" ->
  DecodeString privateKeyBase64 = Ok privateKey ->
  len privateKey = PrivateKeySize ->
  (forall message, Verify publicKey message (Sign privateKey message) = true) ->
  let R := ResponseSigningMiddleware privateKeyBase64 now next reply in
  let written := writeAll "" (chunks next) in
  body R = body reply ++ written
  /\ headers R !! "X-Clortho-Timestamp" = Some (FormatRFC3339 now)
  /\ (exists signature,
        headers R !! "X-Clortho-Signature" = Some (EncodeToString signature)
        /\ Verify publicKey (FormatRFC3339 now ++ "." ++ written) signature
           = true)
  /\ (forall name, name <> "X-Clortho-Timestamp" ->
                   name <> "X-Clortho-Signature" ->
                   headers R !! name = setHeaders next (headers reply) !! name).
Proof.
  intros Hne Hdec Hsize Hverify R written. subst R.
  unfold ResponseSigningMiddleware.
  destruct (String.eqb_spec privateKeyBase64 "") as [|_]; [contradiction|].
  rewrite Hdec, Hsize. cbn [Z.eqb PrivateKeySize negb Pos.eqb].
  change (negb (PrivateKeySize =? PrivateKeySize)%Z) with false.
  cbn [body headers passThrough]. fold written. repeat split.
  - apply writeAll_app.
  - apply lookup_insert_eq.
  - exists (Sign privateKey (FormatRFC3339 now ++ "." ++ written)). split.
    + rewrite lookup_insert_ne by discriminate. apply lookup_insert_eq.
    + apply Hverify.
  - intros name Hts Hsig. now rewrite !lookup_insert_ne by congruence.
Qed.

(** X22: whatever the configured key, the middleware leaves the body and
    the headers of the rest of the chain as they are, the two signature
    headers apart; and with a key that is empty, is not base64 or has not
    the size of an Ed25519 private key, it adds nothing at all. *)
Theorem ResponseSigningMiddleware_transparent (privateKeyBase64 : string)
  (now : Time) (next : Downstream) (reply : Reply) :
  let R := ResponseSigningMiddleware privateKeyBase64 now next reply in
  body R = body reply ++ writeAll "" (chunks next)
  /\ (forall name, name <> "X-Clortho-Timestamp" ->
                   name <> "X-Clortho-Signature" ->
                   headers R !! name = setHeaders next (headers reply) !! name)
  /\ (privateKeyBase64 = ""
      \/ (exists e, DecodeString privateKeyBase64 = Err e)
      \/ (exists k, DecodeString privateKeyBase64 = Ok k
                    /\ len k <> PrivateKeySize) ->
      R = passThrough next reply).
Proof.
  cbv zeta. unfold ResponseSigningMiddleware.
  destruct (String.eqb_spec privateKeyBase64 "") as [He|Hne].
  - cbn [passThrough body headers]. repeat split. apply writeAll_app.
  - destruct (DecodeString privateKeyBase64) as [k|e].
    + destruct (Z.eqb_spec (len k) PrivateKeySize) as [Hk|Hk]; cbn [negb];
        cbn [passThrough body headers]; repeat split;
        try apply writeAll_app.
      * intros name Hts Hsig. now rewrite !lookup_insert_ne by congruence.
      * intros [He|[[e He]|(k' & He & Hk')]]; [contradiction|discriminate|].
        injection He as <-. contradiction.
    + cbn [passThrough body headers]. repeat split. apply writeAll_app.
Qed.

End SigningFacts.

End SigningMore.

Module SigningExamples.
Import Signer ResponseSigning Examples AdminExamples.

(** "hello world" signed with the example key, given in base64: the
    timestamp header, and a signature header that verifies. *)
Lemma ResponseSigningMiddleware_verifies_witness :
  let R := ResponseSigningMiddleware exampleKeyBase64 5%Z helloWorld
             emptyReply in
  body R = "hello world"
  /\ headers R !! "X-Clortho-Timestamp" = Some (FormatRFC3339 5%Z)
  /\ exists signature,
       headers R !! "X-Clortho-Signature" = Some (EncodeToString signature)
       /\ Verify key64 (FormatRFC3339 5%Z ++ "." ++ "hello world") signature
          = true.
Proof.
  destruct (SigningMore.ResponseSigningMiddleware_verifies
              (signlib := ExampleSign) (siglib := ExampleSig)
              exampleKeyBase64 5%Z helloWorld emptyReply key64 key64
              ltac:(discriminate) eq_refl eq_refl
              (fun message => String.eqb_refl (key64 ++ message)))
    as (Hbody & Hts & Hsig & _).
  cbv zeta. split; [exact Hbody|]. split; [exact Hts | exact Hsig].
Defined.

End SigningExamples.

(** ** Loading the configuration *)

Module ConfigMore.
Import Config.

Section ConfigFacts.
Context {Rest : Type} {keylib : KeyLib}.
Variable Getenv : string -> string.

(** X23: where the signing keys and the admin secret of a loaded
    configuration come from.  A variable of the environment that is set
    wins.  Otherwise the keys are those of the file when the file gives
    both; when the file lacks one, both are replaced by a generated pair,
    so a single key in the file is lost.  The environment is read after the
    generation: a key that only the environment gives is paired with a
    generated one.  The port, the database URL and the admin secret follow
    the same order; the other fields are those of the file. *)
Theorem LoadFromPath_sources (defaults : t Rest)
  (file : FileOutcome (Rest := Rest)) (cfg : t Rest) :
  LoadFromPath Getenv defaults file = Ok cfg ->
  exists fromFile : t Rest,
    (file = NotExist /\ fromFile = defaults \/ file = Decoded (Ok fromFile))
    /\ (exists basePrivate basePublic : string,
          (if negb (String.eqb (ResponseSigningPrivateKey fromFile) "")
              && negb (String.eqb (ResponseSigningPublicKey fromFile) "")
           then basePrivate = ResponseSigningPrivateKey fromFile
                /\ basePublic = ResponseSigningPublicKey fromFile
           else exists pub priv,
                  GenerateKey = Ok (pub, priv)
                  /\ basePrivate = Base64 priv /\ basePublic = Base64 pub)
          /\ ResponseSigningPrivateKey cfg
             = (if String.eqb (Getenv "RESPONSE_SIGNING_PRIVATE_KEY") ""
                then basePrivate
                else Getenv "RESPONSE_SIGNING_PRIVATE_KEY")
          /\ ResponseSigningPublicKey cfg
             = (if String.eqb (Getenv "RESPONSE_SIGNING_PUBLIC_KEY") ""
                then basePublic
                else Getenv "RESPONSE_SIGNING_PUBLIC_KEY"))
    /\ (exists baseSecret : string,
          (if String.eqb (AdminSecret fromFile) ""
           then exists secretBytes,
                  ReadRandom32 = Ok secretBytes
                  /\ baseSecret = Base64 secretBytes
           else baseSecret = AdminSecret fromFile)
          /\ AdminSecret cfg
             = (if String.eqb (Getenv "ADMIN_SECRET") "" then baseSecret
                else Getenv "ADMIN_SECRET"))
    /\ Port cfg
       = (if String.eqb (Getenv "PORT") "" then Port fromFile
          else Getenv "PORT")
    /\ DatabaseURL cfg
       = (if String.eqb (Getenv "DATABASE_URL") "" then DatabaseURL fromFile
          else Getenv "DATABASE_URL")
    /\ Debug cfg = Debug fromFile
    /\ TrustedProxies cfg = TrustedProxies fromFile
    /\ RateLimits cfg = RateLimits fromFile.
Proof.
  unfold LoadFromPath.
  set (afterFile := match file with
                    | NotExist => Ok defaults
                    | OpenFailed e => Err e
                    | Decoded r => r
                    end).
  assert (Hfile : forall c, afterFile = Ok c ->
            file = NotExist /\ c = defaults \/ file = Decoded (Ok c)).
  { subst afterFile. intros c. destruct file as [|e|r].
    - intros Heq. injection Heq as <-. left. split; reflexivity.
    - discriminate.
    - intros ->. now right. }
  destruct afterFile as [fromFile|e]; [|discriminate].
  specialize (Hfile fromFile eq_refl).
  unfold ensureKeys, ensureAdminSecret, LoadEnv, fromEnv.
  destruct (negb (String.eqb (ResponseSigningPrivateKey fromFile) "")
            && negb (String.eqb (ResponseSigningPublicKey fromFile) ""))
    eqn:Hcomplete.
  - destruct (String.eqb (AdminSecret fromFile) "") eqn:Hsecret;
      cbn [negb].
    + destruct ReadRandom32 as [secretBytes|e]; [|discriminate].
      intros Heq. injection Heq as <-. exists fromFile.
      cbn [Port Debug DatabaseURL AdminSecret ResponseSigningPrivateKey
             ResponseSigningPublicKey TrustedProxies RateLimits].
      rewrite Hcomplete, Hsecret.
      split; [exact Hfile|]. split; [|split].
      * exists (ResponseSigningPrivateKey fromFile),
          (ResponseSigningPublicKey fromFile).
        repeat split; try reflexivity;
          match goal with
          | |- context [String.eqb ?x ""] => now destruct (String.eqb x "")
          end.
      * exists (Base64 secretBytes). split; [now exists secretBytes|].
        now destruct (String.eqb (Getenv "ADMIN_SECRET") "").
      * repeat split; try reflexivity;
          match goal with
          | |- context [String.eqb ?x ""] => now destruct (String.eqb x "")
          end.
    + intros Heq. injection Heq as <-. exists fromFile.
      cbn [Port Debug DatabaseURL AdminSecret ResponseSigningPrivateKey
             ResponseSigningPublicKey TrustedProxies RateLimits].
      rewrite Hcomplete, Hsecret.
      split; [exact Hfile|]. split; [|split].
      * exists (ResponseSigningPrivateKey fromFile),
          (ResponseSigningPublicKey fromFile).
        repeat split; try reflexivity;
          match goal with
          | |- context [String.eqb ?x ""] => now destruct (String.eqb x "")
          end.
      * exists (AdminSecret fromFile). split; [reflexivity|].
        now destruct (String.eqb (Getenv "ADMIN_SECRET") "").
      * repeat split; try reflexivity;
          match goal with
          | |- context [String.eqb ?x ""] => now destruct (String.eqb x "")
          end.
  - destruct GenerateKey as [[pub priv]|e] eqn:Hgen; [|discriminate].
    cbn [AdminSecret].
    destruct (String.eqb (AdminSecret fromFile) "") eqn:Hsecret;
      cbn [negb].
    + destruct ReadRandom32 as [secretBytes|e]; [|discriminate].
      intros Heq. injection Heq as <-. exists fromFile.
      cbn [Port Debug DatabaseURL AdminSecret ResponseSigningPrivateKey
             ResponseSigningPublicKey TrustedProxies RateLimits].
      rewrite Hcomplete, Hsecret.
      split; [exact Hfile|]. split; [|split].
      * exists (Base64 priv), (Base64 pub).
        split; [exists pub, priv; repeat split|].
        split;
          match goal with
          | |- context [String.eqb ?x ""] => now destruct (String.eqb x "")
          end.
      * exists (Base64 secretBytes). split; [now exists secretBytes|].
        now destruct (String.eqb (Getenv "ADMIN_SECRET") "").
      * repeat split; try reflexivity;
          match goal with
          | |- context [String.eqb ?x ""] => now destruct (String.eqb x "")
          end.
    + intros Heq. injection Heq as <-. exists fromFile.
      cbn [Port Debug DatabaseURL AdminSecret ResponseSigningPrivateKey
             ResponseSigningPublicKey TrustedProxies RateLimits].
      rewrite Hcomplete, Hsecret.
      split; [exact Hfile|]. split; [|split].
      * exists (Base64 priv), (Base64 pub).
        split; [exists pub, priv; repeat split|].
        split;
          match goal with
          | |- context [String.eqb ?x ""] => now destruct (String.eqb x "")
          end.
      * exists (AdminSecret fromFile). split; [reflexivity|].
        now destruct (String.eqb (Getenv "ADMIN_SECRET") "").
      * repeat split; try reflexivity;
          match goal with
          | |- context [String.eqb ?x ""] => now destruct (String.eqb x "")
          end.
Qed.

(** X24: the environment comes too late to save a load.  When the file
    does not give both signing keys and the generation of a key pair fails,
    loading fails, also when the environment gives both keys; likewise for
    the admin secret when the random source fails. *)
Theorem LoadFromPath_generation_first (defaults fromFile : t Rest)
  (file : FileOutcome (Rest := Rest)) (e : string) :
  file = NotExist /\ fromFile = defaults \/ file = Decoded (Ok fromFile) ->
  (ResponseSigningPrivateKey fromFile = ""
   \/ ResponseSigningPublicKey fromFile = "" ->
   GenerateKey = Err e ->
   LoadFromPath Getenv defaults file = Err ("failed to generate keys: " ++ e))
  /\ (ResponseSigningPrivateKey fromFile <> "" ->
      ResponseSigningPublicKey fromFile <> "" ->
      AdminSecret fromFile = "" ->
      ReadRandom32 = Err e ->
      LoadFromPath Getenv defaults file
      = Err ("failed to generate admin secret: " ++ e)).
Proof.
  intros Hfile.
  assert (Hafter : match file with
                   | NotExist => Ok defaults
                   | OpenFailed e => Err e
                   | Decoded r => r
                   end = Ok fromFile).
  { destruct Hfile as [[-> ->]| ->]; reflexivity. }
  unfold LoadFromPath. rewrite Hafter. unfold ensureKeys, ensureAdminSecret.
  split.
  - intros Hmissing Hgen.
    assert (Hc : negb (String.eqb (ResponseSigningPrivateKey fromFile) "")
                 && negb (String.eqb (ResponseSigningPublicKey fromFile) "")
                 = false).
    { destruct Hmissing as [-> | ->]; [reflexivity|].
      now rewrite andb_false_r. }
    now rewrite Hc, Hgen.
  - intros Hpriv Hpub Hsecret Hrand.
    destruct (String.eqb_spec (ResponseSigningPrivateKey fromFile) "")
      as [|_]; [contradiction|].
    destruct (String.eqb_spec (ResponseSigningPublicKey fromFile) "")
      as [|_]; [contradiction|].
    cbn [negb andb]. now rewrite Hsecret, Hrand.
Qed.

End ConfigFacts.

Import Examples AdminExamples.

(** No file, the private key in the environment only: the public key is a
    generated one. *)
Lemma LoadFromPath_sources_witness :
  exists fromFile : t unit,
    (@NotExist unit = NotExist /\ fromFile = exampleConfig0 "" ""
     \/ @NotExist unit = Decoded (Ok fromFile))
    /\ ResponseSigningPublicKey
         {| Port := "8080"; Debug := false; DatabaseURL := "";
            AdminSecret := "secret";
            ResponseSigningPrivateKey := "from-env";
            ResponseSigningPublicKey := "generated-public";
            TrustedProxies := []; RateLimits := tt |}
       = "generated-public".
Proof.
  destruct (LoadFromPath_sources (keylib := ExampleKeys)
              (exampleEnv "from-env") (exampleConfig0 "" "") NotExist
              {| Port := "8080"; Debug := false; DatabaseURL := "";
                 AdminSecret := "secret";
                 ResponseSigningPrivateKey := "from-env";
                 ResponseSigningPublicKey := "generated-public";
                 TrustedProxies := []; RateLimits := tt |} eq_refl)
    as (fromFile & Hfile & _).
  exists fromFile. split; [exact Hfile | reflexivity].
Defined.

(** No file, both keys in the environment, a broken random source. *)
Lemma LoadFromPath_generation_first_witness :
  LoadFromPath (keylib := FailingKeys) keysEnv (exampleConfig0 "" "") NotExist
  = Err ("failed to generate keys: " ++ "no entropy").
Proof.
  destruct (LoadFromPath_generation_first (keylib := FailingKeys) keysEnv
              (exampleConfig0 "" "") (exampleConfig0 "" "") NotExist
              "no entropy" ltac:(left; split; reflexivity)) as [Hkeys _].
  apply Hkeys; [left|]; reflexivity.
Defined.

End ConfigMore.

(** ** From generation to check *)

Module RoundTrip.
Import Generator Utils Models Signer Handlers CheckSpec AddressSpec
  SettingsSpec CheckProofs CheckMore GenerateMore.

Section RoundTripFacts.
Context {golib : GoLib} {signlib : SignLib} {netlib : NetLib}
  {S : Type} {randSource : RandSource S}.

(** The license in the body of a 201 is active and its key is not empty. *)
Lemma created_license_active (fuel : nat) (stores : Stores) (newID : UUID)
  (now : Time) (src : S) (bound : result generateLicenseRequest.t)
  (R : GenerateResult) (license : License.t) :
  GenerateLicenseHandler fuel stores newID now src bound = Some R ->
  Body (gen_response R) = BodyLicense license ->
  License.Status license = LicenseStatusActive
  /\ License.Key license <> "".
Proof.
  unfold GenerateLicenseHandler.
  destruct bound as [req|e]; [|intros Heq; injection Heq as <-; discriminate].
  destruct (_ && _); [intros Heq; injection Heq as <-; discriminate|].
  match goal with
  | |- match ?p with _ => _ end = _ -> _ => destruct p as [expiresAt|e]
  end; [|intros Heq; injection Heq as <-; discriminate].
  destruct (getProduct stores _) as [product|e];
    [|intros Heq; injection Heq as <-; discriminate].
  match goal with
  | |- (let '(group, groupCalls) := ?g in _) = _ -> _ =>
      destruct g as [group groupCalls]
  end.
  set (settings := resolveSettings req product group).
  destruct (resolveSettings_prefix_length req product group) as [Hp Hl].
  fold settings in Hp, Hl.
  destruct (ParseCharset fuel (charsetRaw settings)) as [[cs|e]|];
    [|intros Heq; injection Heq as <-; discriminate|discriminate].
  destruct (GenerateLicenseKey _ _ _ cs src) as [[[key|e]|] src'] eqn:Hgen;
    [|intros Heq; injection Heq as <-; discriminate|discriminate].
  destruct (GenerateLicenseKey_resolved settings cs src src' key Hp Hl Hgen)
    as (random & Hkey & _).
  match goal with
  | |- match createLicense stores ?l with _ => _ end = _ -> _ =>
      destruct (createLicense stores l) as [[]|e]
  end; intros Heq; injection Heq as <-; [|discriminate].
  cbn [gen_response Body]. intros Hbody. injection Hbody as <-.
  cbn [License.Status License.Key]. split; [reflexivity|].
  rewrite Hkey. destruct (prefix settings); [contradiction|].
  rewrite append_cons. discriminate.
Qed.

(** X25: a license that was just generated checks as valid.  The license
    in the body of a 201 has a key, so a check with it is not refused for a
    missing header; and when the store returns that license, a check
    without version and feature, not after the expiry, from an address that
    the license admits (any address when the request listed none), is
    answered 200 and valid. *)
Theorem generated_license_checks_valid (fuel : nat) (stores : Stores)
  (newID : UUID) (now : Time) (src : S)
  (bound : result generateLicenseRequest.t) (R : GenerateResult)
  (license : License.t) :
  GenerateLicenseHandler fuel stores newID now src bound = Some R ->
  Body (gen_response R) = BodyLicense license ->
  License.Key license <> ""
  /\ forall (checkStore : string -> result License.t) (pk : string)
            (later : Time) (c : CheckRequest),
       XLicenseKey c = License.Key license ->
       checkStore (License.Key license) = Ok license ->
       QueryVersion c = "" -> QueryFeature c = "" ->
       (forall t, License.ExpiresAt license = Some t ->
                  Before t later = false) ->
       (License.AllowedIPs license = [] /\ License.AllowedNetworks license = []
        \/ exists clientIP, ParseIP (ClientIP c) = Some clientIP
                            /\ admitted license clientIP) ->
       let answer := response (CheckLicenseHandler checkStore pk later c) in
       Code answer = StatusOK /\ verdict answer = valid_verdict.
Proof.
  intros Hgen Hbody.
  destruct (created_license_active fuel stores newID now src bound R license
              Hgen Hbody) as [Hactive Hkey].
  split; [exact Hkey|].
  intros checkStore pk later c Hc Hstore Hver Hfeat Hexp Haddr answer.
  assert (Hkey' : XLicenseKey c <> "") by now rewrite Hc.
  assert (Hget : checkStore (XLicenseKey c) = Ok license) by now rewrite Hc.
  destruct (CheckLicenseHandler_found checkStore pk later c license Hkey' Hget)
    as (Hcode & Hv & _).
  subst answer. split; [exact Hcode|]. rewrite Hv.
  assert (Hstatus : checkStatusExpiry license later = (true, "")).
  { unfold checkStatusExpiry. rewrite Hactive.
    change (String.eqb LicenseStatusActive LicenseStatusRevoked) with false.
    destruct (License.ExpiresAt license) as [t|]; [|reflexivity].
    now rewrite (Hexp t eq_refl). }
  assert (Hip : checkIP license (ClientIP c) (true, "") = (true, "")).
  { destruct Haddr as [[Hips Hnets]|(clientIP & Hparse & Hadm)].
    - unfold checkIP. now rewrite Hips, Hnets.
    - destruct (License.AllowedIPs license) as [|x l] eqn:Hl.
      + destruct (License.AllowedNetworks license) as [|y l'] eqn:Hl'.
        * unfold checkIP. now rewrite Hl, Hl'.
        * apply (checkIP_admitted license (ClientIP c) clientIP);
            [right; rewrite Hl'; discriminate | exact Hparse | exact Hadm].
      + apply (checkIP_admitted license (ClientIP c) clientIP);
          [left; rewrite Hl; discriminate | exact Hparse | exact Hadm]. }
  unfold validate. rewrite Hstatus, Hip, Hver, Hfeat. reflexivity.
Qed.

End RoundTripFacts.

Import Examples AdminExamples.

(** The generated license of the examples, checked at a later time from
    some address. *)
Lemma generated_license_checks_valid_witness :
  verdict (response (CheckLicenseHandler (fun _ => Ok generatedLicense) ""
                       99%Z (exampleCheck "ED_074" "10.0.0.1" "" "")))
  = valid_verdict.
Proof.
  destruct (generated_license_checks_valid (netlib := ExampleNet)
              (randSource := TapeSource) 300 exampleStores "id" 0%Z
              (draws_by_7 20) (Ok (exampleRequest None "" "" 3))
              generatedResult generatedLicense eq_refl eq_refl)
    as [_ Hcheck].
  destruct (Hcheck (fun _ => Ok generatedLicense) "" 99%Z
              (exampleCheck "ED_074" "10.0.0.1" "" "") eq_refl eq_refl
              eq_refl eq_refl ltac:(discriminate)
              ltac:(left; split; reflexivity)) as [_ Hvalid].
  exact Hvalid.
Defined.

End RoundTrip.

(** ** Reading licenses *)

Module ListMore.
Import Utils Models Handlers Pagination LicenseAdmin.

(** X26: the admin read of licenses.  With a key it asks for that license
    and nothing else, whatever the owner filter and the paging say; without
    a key it asks once for a page whose number is at least 1 and whose size
    is between 1 and 1000, with the owner filter only when it is not empty,
    and echoes the page, the size and the count of the store in its
    answer. *)
Theorem GetLicenseHandler_one_or_page (licenseStore : LicenseStore)
  (key owner_id : string) (page limit : option string) :
  let R := GetLicenseHandler licenseStore key owner_id page limit in
  (key <> "" ->
   admin_calls R = [CallGet key]
   /\ R = GetLicenseHandler licenseStore key "" None None
   /\ forall license, getLicenseByKey licenseStore key = SOk license ->
        admin_response R
        = {| AdminCode := StatusOK; AdminBodyOf := BodyOne license |})
  /\ (key = "" ->
      exists pagination : PaginationParams,
        admin_calls R
        = [CallList (if String.eqb owner_id "" then None else Some owner_id)
             pagination]
        /\ (1 <= Page pagination)%Z
        /\ (1 <= Limit pagination <= 1000)%Z
        /\ forall licenses total,
             listLicenses licenseStore
               (if String.eqb owner_id "" then None else Some owner_id)
               pagination = Ok (licenses, total) ->
             exists list,
               admin_response R
               = {| AdminCode := StatusOK; AdminBodyOf := BodyMany list |}
               /\ Items list = licenses
               /\ TotalCount list = total
               /\ ListPage list = Page pagination
               /\ ListLimit list = Limit pagination).
Proof.
  cbv zeta. unfold GetLicenseHandler. split.
  - intros Hkey. destruct (String.eqb_spec key "") as [|_]; [contradiction|].
    destruct (getLicenseByKey licenseStore key) as [license|[|msg]];
      repeat split; try discriminate.
    intros l Heq. now injection Heq as <-.
  - intros ->. cbn [String.eqb].
    exists (ParsePaginationParams page limit).
    assert (Howner : (if negb (String.eqb owner_id "") then Some owner_id
                      else None)
                     = (if String.eqb owner_id "" then None
                        else Some owner_id))
      by now destruct (String.eqb owner_id "").
    rewrite Howner.
    pose proof (UtilsMore.ParsePaginationParams_range page limit)
      as (Hpage & Hlimit).
    destruct (listLicenses licenseStore _ (ParsePaginationParams page limit))
      as [[licenses total]|e]; (split; [reflexivity|]);
      (split; [apply Hpage|]); (split; [exact Hlimit|]).
    + intros l t Heq. injection Heq as <- <-. eexists.
      split; [reflexivity|]. repeat split.
    + discriminate.
Qed.

End ListMore.
